(** * Freefall: a model of falling objects (freefall.py)

    A shallow embedding of the [Freefall] class.  Python values are a tagged
    union, Python floats are IEEE binary64 numbers (Rocq's primitive floats),
    Python ints are [Z].  An instance is its attribute dictionary, a finite
    map from attribute names to values, and every method is a computation in
    a state-and-exception monad over that dictionary.  The [while] loop of
    [_calculator] has no iteration cap in the source; here it is driven by a
    fuel counter and reports [OutOfFuel] when the counter runs out. *)

From Stdlib Require Import ZArith Floats Lia List String Bool.
From stdpp Require Import base gmap strings.

Set Warnings "-inexact-float,-register-all".
Set Default Proof Using "Type".

Local Open Scope Z_scope.

(** ** Python values *)

(** [PyComplex] stands for a complex number whose components are not
    modelled: the only way the program can produce one is a negative base
    under [** 0.5]. *)
Inductive pyval : Type :=
  | PyNone
  | PyBool (b : bool)
  | PyInt (z : Z)
  | PyFloat (f : float)
  | PyComplex
  | PyStr (s : string)
  | PyList (l : list pyval).

Inductive exn : Type :=
  | TypeError
  | ValueError
  | OverflowError
  | ZeroDivisionError
  | AttributeError
  | IndexError.

Inductive outcome (A : Type) : Type :=
  | Ok (a : A)
  | Raise (e : exn)
  | OutOfFuel.
Arguments Ok {A} a.
Arguments Raise {A} e.
Arguments OutOfFuel {A}.

Definition obind {A B} (x : outcome A) (k : A -> outcome B) : outcome B :=
  match x with
  | Ok a => k a
  | Raise e => Raise e
  | OutOfFuel => OutOfFuel
  end.

(** ** Numbers: int, bool (a subclass of int) and float *)

Inductive num : Type :=
  | NInt (z : Z)
  | NFloat (f : float).

Definition as_num (v : pyval) : option num :=
  match v with
  | PyBool b => Some (NInt (Z.b2z b))
  | PyInt z => Some (NInt z)
  | PyFloat f => Some (NFloat f)
  | _ => None
  end.

(** [isinstance(v, (int, float))]: [bool] is a subclass of [int]. *)
Definition isinstance_int_float (v : pyval) : bool :=
  match v with
  | PyBool _ | PyInt _ | PyFloat _ => true
  | _ => false
  end.

(** Conversion of an int to a float: round to nearest even, [OverflowError]
    when the int is too large. *)
Definition float_of_int (z : Z) : outcome float :=
  let f := SF2Prim (binary_normalize prec emax z 0 false) in
  if is_infinity f then Raise OverflowError else Ok f.

Definition to_float (n : num) : outcome float :=
  match n with
  | NInt z => float_of_int z
  | NFloat f => Ok f
  end.

(** [+], [-], [*]: exact on two ints, binary64 otherwise.  Float arithmetic
    never raises; only the conversion of an int operand can. *)
Definition arith (iop : Z -> Z -> Z) (fop : float -> float -> float)
    (a b : pyval) : outcome pyval :=
  match as_num a, as_num b with
  | Some (NInt x), Some (NInt y) => Ok (PyInt (iop x y))
  | Some x, Some y =>
      obind (to_float x) (fun fx =>
      obind (to_float y) (fun fy => Ok (PyFloat (fop fx fy))))
  | _, _ => Raise TypeError
  end.

Definition py_add := arith Z.add PrimFloat.add.
Definition py_sub := arith Z.sub PrimFloat.sub.
Definition py_mul := arith Z.mul PrimFloat.mul.

(** [a / b] on two ints: the correctly rounded quotient. *)
Definition int_true_divide (a b : Z) : outcome float :=
  if b =? 0 then Raise ZeroDivisionError
  else
    let s := xorb (a <? 0) (b <? 0) in
    match a with
    | 0 => Ok (if s then neg_zero else zero)
    | _ =>
        let q := SF2Prim (SFdiv prec emax
                            (S754_finite (a <? 0) (Z.to_pos (Z.abs a)) 0)
                            (S754_finite (b <? 0) (Z.to_pos (Z.abs b)) 0)) in
        if is_infinity q then Raise OverflowError else Ok q
    end.

Definition py_truediv (a b : pyval) : outcome pyval :=
  match as_num a, as_num b with
  | Some (NInt x), Some (NInt y) =>
      obind (int_true_divide x y) (fun q => Ok (PyFloat q))
  | Some x, Some y =>
      obind (to_float x) (fun fx =>
      obind (to_float y) (fun fy =>
      if is_zero fy then Raise ZeroDivisionError
      else Ok (PyFloat (fx / fy)%float)))
  | _, _ => Raise TypeError
  end.

(** [x ** 2] on a float: the special cases of [float.__pow__], then the C
    library's [pow], taken to be correctly rounded; an overflowing result
    raises [OverflowError]. *)
Definition float_pow_2 (x : float) : outcome float :=
  if is_nan x then Ok x
  else if is_infinity x then Ok infinity
  else
    let r := (x * x)%float in
    if is_infinity r then Raise OverflowError else Ok r.

Definition py_pow_2 (v : pyval) : outcome pyval :=
  match as_num v with
  | Some (NInt z) => Ok (PyInt (z * z))
  | Some (NFloat x) => obind (float_pow_2 x) (fun r => Ok (PyFloat r))
  | None => Raise TypeError
  end.

(** [x ** 0.5] on a float; a negative base gives a complex number. *)
Definition float_pow_half (x : float) : pyval :=
  if is_nan x then PyFloat x
  else if is_infinity x then PyFloat infinity
  else if is_zero x then PyFloat zero
  else if (x <? 0)%float then PyComplex
  else PyFloat (sqrt x).

Definition py_pow_half (v : pyval) : outcome pyval :=
  match as_num v with
  | Some n => obind (to_float n) (fun x => Ok (float_pow_half x))
  | None => Raise TypeError
  end.

(** Comparison of a float with an int is exact. *)
Definition float_compare_int (f : float) (z : Z) : option comparison :=
  match Prim2SF f with
  | S754_nan => None
  | S754_infinity s => Some (if s then Lt else Gt)
  | S754_zero _ => Some (0 ?= z)
  | S754_finite s m e =>
      let v := cond_Zopp s (Zpos m) in
      Some (if 0 <=? e then v * 2 ^ e ?= z else v ?= z * 2 ^ (- e))
  end.

Definition float_compare (x y : float) : option comparison :=
  match (x ?= y)%float with
  | FEq => Some Eq
  | FLt => Some Lt
  | FGt => Some Gt
  | FNotComparable => None
  end.

Definition num_compare (a b : num) : option comparison :=
  match a, b with
  | NInt x, NInt y => Some (x ?= y)
  | NFloat x, NFloat y => float_compare x y
  | NFloat x, NInt y => float_compare_int x y
  | NInt x, NFloat y => option_map CompOpp (float_compare_int y x)
  end.

Definition ordering (test : option comparison -> bool) (a b : pyval)
    : outcome bool :=
  match as_num a, as_num b with
  | Some x, Some y => Ok (test (num_compare x y))
  | _, _ => Raise TypeError
  end.

Definition is_lt (c : option comparison) : bool :=
  match c with Some Lt => true | _ => false end.
Definition is_le (c : option comparison) : bool :=
  match c with Some Lt | Some Eq => true | _ => false end.
Definition is_gt (c : option comparison) : bool :=
  match c with Some Gt => true | _ => false end.
Definition is_ge (c : option comparison) : bool :=
  match c with Some Gt | Some Eq => true | _ => false end.
Definition is_eq (c : option comparison) : bool :=
  match c with Some Eq => true | _ => false end.

Definition py_lt := ordering is_lt.
Definition py_le := ordering is_le.
Definition py_gt := ordering is_gt.
Definition py_ge := ordering is_ge.

(** [a == b] never raises; values that are not numbers are unequal to a
    number. *)
Definition py_eq (a b : pyval) : bool :=
  match as_num a, as_num b with
  | Some x, Some y => is_eq (num_compare x y)
  | _, _ => false
  end.

(** ** [round(x, 2)] *)

(** Nearest integer to [a / b], ties to even, for [0 <= a] and [0 < b]. *)
Definition div_half_even (a b : Z) : Z :=
  let q := a / b in
  let r := a mod b in
  match 2 * r ?= b with
  | Lt => q
  | Gt => q + 1
  | Eq => if Z.even q then q else q + 1
  end.

(** On a float, [round(x, 2)] converts [x] to the nearest decimal with two
    fractional digits (ties to even on the exact binary value) and that
    decimal back to the nearest float; infinities and NaN round to
    themselves. *)
Definition float_round_2 (x : float) : float :=
  match Prim2SF x with
  | S754_finite s m e =>
      if 0 <=? e then x
      else
        match div_half_even (Zpos m * 100) (2 ^ (- e)) with
        | Zpos n =>
            SF2Prim (SFdiv prec emax (S754_finite s n 0)
                                     (S754_finite false 100 0))
        | _ => if s then neg_zero else zero
        end
  | _ => x
  end.

Definition py_round_2 (v : pyval) : outcome pyval :=
  match v with
  | PyBool b => Ok (PyInt (Z.b2z b))
  | PyInt z => Ok (PyInt z)
  | PyFloat f => Ok (PyFloat (float_round_2 f))
  | _ => Raise TypeError
  end.

(** [l[-1]] *)
Definition last_item (l : list pyval) : outcome pyval :=
  match last l with
  | Some v => Ok v
  | None => Raise IndexError
  end.

(** ** Instances and the method monad *)

(** An instance is its attribute dictionary. *)
Abbreviation obj := (gmap string pyval).

(** A method body: it reads and writes the attributes of [self] and either
    returns, raises, or runs out of fuel.  The attributes written before an
    exception is raised stay written. *)
Definition M (A : Type) : Type := obj -> outcome A * obj.

Definition ret {A} (a : A) : M A := fun self => (Ok a, self).

Definition bind {A B} (m : M A) (k : A -> M B) : M B :=
  fun self =>
    match m self with
    | (Ok a, self') => k a self'
    | (Raise e, self') => (Raise e, self')
    | (OutOfFuel, self') => (OutOfFuel, self')
    end.

Notation "x <- m ;; k" := (bind m (fun x => k))
  (at level 100, m at level 99, k at level 200, right associativity).
Notation "m ;;; k" := (bind m (fun _ => k))
  (at level 100, k at level 200, right associativity).

Definition raise {A} (e : exn) : M A := fun self => (Raise e, self).
Definition out_of_fuel {A} : M A := fun self => (OutOfFuel, self).

Definition lift {A} (x : outcome A) : M A := fun self => (x, self).

(** [self.name] *)
Definition getattr (name : string) : M pyval :=
  fun self =>
    match self !! name with
    | Some v => (Ok v, self)
    | None => (Raise AttributeError, self)
    end.

(** [self.name = v] *)
Definition setattr (name : string) (v : pyval) : M unit :=
  fun self => (Ok tt, <[name := v]> self).

(** [for arg in args: body] *)
Fixpoint for_each (args : list pyval) (body : pyval -> M unit) : M unit :=
  match args with
  | [] => ret tt
  | arg :: rest => body arg ;;; for_each rest body
  end.

(** ** The class [Freefall] *)

Definition __init__ (mass area drag_coef density gravity : pyval) : M unit :=
  for_each [mass; area; drag_coef; density; gravity] (fun arg =>
    if negb (isinstance_int_float arg) then raise TypeError else ret tt) ;;;
  for_each [mass; area; drag_coef; gravity] (fun arg =>
    c <- lift (py_le arg (PyInt 0)) ;;
    if c then raise ValueError else ret tt) ;;;
  c1 <- lift (py_ge drag_coef (PyInt 2)) ;;
  c2 <- (if c1 then ret true else lift (py_lt density (PyInt 0))) ;;
  if c2 then raise ValueError
  else
    setattr "_m" mass ;;;
    setattr "_A" area ;;;
    setattr "_C" drag_coef ;;;
    setattr "_p" density ;;;
    setattr "_g" gravity.

(** The defaults of the optional arguments. *)
Definition default_drag_coef : pyval := PyInt 1.
Definition default_density : pyval := PyFloat 1.2.
Definition default_gravity : pyval := PyFloat 9.81.

(** The call [Freefall(mass, area, drag_coef, density, gravity)]: a fresh
    instance is handed to [__init__], and the caller receives it only when
    [__init__] returns. *)
Definition Freefall (mass area drag_coef density gravity : pyval)
    : outcome obj :=
  match __init__ mass area drag_coef density gravity ∅ with
  | (Ok _, self) => Ok self
  | (Raise e, _) => Raise e
  | (OutOfFuel, _) => OutOfFuel
  end.

Definition set_drag_coef (drag_coef : pyval) : M unit :=
  if negb (isinstance_int_float drag_coef) then raise TypeError
  else
    c1 <- lift (py_le drag_coef (PyInt 0)) ;;
    c2 <- (if c1 then ret true else lift (py_ge drag_coef (PyInt 2))) ;;
    if c2 then raise ValueError
    else setattr "_C" drag_coef.

Definition set_density (density : pyval) : M unit :=
  if negb (isinstance_int_float density) then raise TypeError
  else
    c <- lift (py_lt density (PyInt 0)) ;;
    if c then raise ValueError
    else setattr "_p" density.

Definition set_gravity (gravity : pyval) : M unit :=
  if negb (isinstance_int_float gravity) then raise TypeError
  else
    c <- lift (py_le gravity (PyInt 0)) ;;
    if c then raise ValueError
    else setattr "_g" gravity.

Definition set_size (mass area : pyval) : M unit :=
  if negb (isinstance_int_float mass) || negb (isinstance_int_float area)
  then raise TypeError
  else
    c1 <- lift (py_le mass (PyInt 0)) ;;
    c2 <- (if c1 then ret true else lift (py_le area (PyInt 0))) ;;
    if c2 then raise ValueError
    else
      setattr "_m" mass ;;;
      setattr "_A" area.

Definition properties : M (gmap string pyval) :=
  m <- getattr "_m" ;;
  A <- getattr "_A" ;;
  C <- getattr "_C" ;;
  p <- getattr "_p" ;;
  g <- getattr "_g" ;;
  ret (<["g (m/(s^2))" := g]> (<["p (kg/(m^3))" := p]> (<["C" := C]>
        (<["A (m^2)" := A]> (<["m (kg)" := m]> ∅))))).

Definition terminal : M pyval :=
  p <- getattr "_p" ;;
  if py_eq p (PyInt 0) then ret PyNone
  else
    m <- getattr "_m" ;;
    x1 <- lift (py_mul (PyInt 2) m) ;;
    g <- getattr "_g" ;;
    x2 <- lift (py_mul x1 g) ;;
    p <- getattr "_p" ;;
    C <- getattr "_C" ;;
    y1 <- lift (py_mul p C) ;;
    A <- getattr "_A" ;;
    y2 <- lift (py_mul y1 A) ;;
    q <- lift (py_truediv x2 y2) ;;
    v_term <- lift (py_pow_half q) ;;
    lift (py_round_2 v_term).

Definition step : pyval := PyFloat 0.01.

(** The state of the loop of [_calculator]. *)
Record frame : Type := Frame {
  height : pyval;
  v : pyval;
  t : pyval;
  time_vector : list pyval;
  speed_vector : list pyval;
}.

(** One pass through the body of the [while] loop. *)
Definition loop_body (s : frame) : M frame :=
  C <- getattr "_C" ;;
  d1 <- lift (py_mul (PyFloat 0.5) C) ;;
  p <- getattr "_p" ;;
  d2 <- lift (py_mul d1 p) ;;
  A <- getattr "_A" ;;
  d3 <- lift (py_mul d2 A) ;;
  v2 <- lift (py_pow_2 (v s)) ;;
  drag <- lift (py_mul d3 v2) ;;
  g <- getattr "_g" ;;
  m <- getattr "_m" ;;
  dm <- lift (py_truediv drag m) ;;
  acc <- lift (py_sub g dm) ;;
  dv <- lift (py_mul acc step) ;;
  v' <- lift (py_add (v s) dv) ;;
  dh <- lift (py_mul v' step) ;;
  height' <- lift (py_sub (height s) dh) ;;
  t' <- lift (py_add (t s) step) ;;
  ret {| height := height'; v := v'; t := t';
         time_vector := time_vector s ++ [t'];
         speed_vector := speed_vector s ++ [v'] |}.

(** [while height > 0: body] *)
Fixpoint while_loop (fuel : nat) (s : frame) : M frame :=
  c <- lift (py_gt (height s) (PyInt 0)) ;;
  if c then
    match fuel with
    | O => out_of_fuel
    | S fuel' => s' <- loop_body s ;; while_loop fuel' s'
    end
  else ret s.

Definition _calculator (fuel : nat) (height : pyval)
    : M (list pyval * list pyval) :=
  let v := PyInt 0 in
  let t := PyInt 0 in
  s <- while_loop fuel {| height := height; v := v; t := t;
                          time_vector := [t]; speed_vector := [v] |} ;;
  ret (time_vector s, speed_vector s).

Definition air_time (fuel : nat) (height : pyval) : M pyval :=
  if negb (isinstance_int_float height) then raise TypeError
  else
    c <- lift (py_le height (PyInt 0)) ;;
    if c then raise ValueError
    else
      r <- _calculator fuel height ;;
      t_air <- lift (last_item (fst r)) ;;
      lift (py_round_2 t_air).

Definition landing_speed (fuel : nat) (height : pyval) : M pyval :=
  if negb (isinstance_int_float height) then raise TypeError
  else
    c <- lift (py_le height (PyInt 0)) ;;
    if c then raise ValueError
    else
      r <- _calculator fuel height ;;
      v_land <- lift (last_item (snd r)) ;;
      lift (py_round_2 v_land).

(** ** Running methods *)

Definition result_of {A} (r : outcome A * obj) : outcome A := fst r.
Definition state_of {A} (r : outcome A * obj) : obj := snd r.

(** A method that leaves every attribute as it found it, whatever it
    returns or raises. *)
Definition read_only {A} (m : M A) : Prop :=
  forall self, state_of (m self) = self.

(** A method that changes no attribute when it does not return. *)
Definition atomic {A} (m : M A) : Prop :=
  forall self, match result_of (m self) with
               | Ok _ => True
               | _ => state_of (m self) = self
               end.

(** Two calls in a row. *)
Definition twice {A} (m : M A) : M (outcome A * outcome A) :=
  fun self =>
    let r1 := m self in
    let r2 := m (state_of r1) in
    (Ok (result_of r1, result_of r2), state_of r2).

(** A method that always returns. *)
Definition succeeds {A} (m : M A) : Prop :=
  forall self, exists a, result_of (m self) = Ok a.

(** A value the type checks turn away. *)
Definition not_a_number (v : pyval) : Prop := isinstance_int_float v = false.

(** The one NaN of the float type; every comparison with it is false. *)
Definition is_NaN (v : pyval) : Prop := v = PyFloat nan.

(** The attributes hold numbers. *)
Definition is_number (v : pyval) : Prop := isinstance_int_float v = true.

Definition field (self : obj) (name : string) : pyval :=
  default PyNone (self !! name).

Record has_fields (self : obj) (m A C p g : pyval) : Prop := {
  field_m : self !! "_m" = Some m;
  field_A : self !! "_A" = Some A;
  field_C : self !! "_C" = Some C;
  field_p : self !! "_p" = Some p;
  field_g : self !! "_g" = Some g;
}.

(** The invariants of the data model, with the comparisons of the
    language: a NaN satisfies none of them. *)
Record invariants (m A C p g : pyval) : Prop := {
  inv_m : py_gt m (PyInt 0) = Ok true;
  inv_A : py_gt A (PyInt 0) = Ok true;
  inv_g : py_gt g (PyInt 0) = Ok true;
  inv_C_pos : py_gt C (PyInt 0) = Ok true;
  inv_C_lt2 : py_lt C (PyInt 2) = Ok true;
  inv_p : py_ge p (PyInt 0) = Ok true;
}.

Definition valid_model (self : obj) : Prop :=
  exists m A C p g, has_fields self m A C p g /\ invariants m A C p g.

(** ** The simulation on a fixed instance *)

(** The body of the loop once the five attributes have been read as
    [m], [A], [C], [p] and [g]: [loop_body] without the attribute reads. *)
Definition body (m A C p g : pyval) (s : frame) : outcome frame :=
  obind (py_mul (PyFloat 0.5) C) (fun d1 =>
  obind (py_mul d1 p) (fun d2 =>
  obind (py_mul d2 A) (fun d3 =>
  obind (py_pow_2 (v s)) (fun v2 =>
  obind (py_mul d3 v2) (fun drag =>
  obind (py_truediv drag m) (fun dm =>
  obind (py_sub g dm) (fun acc =>
  obind (py_mul acc step) (fun dv =>
  obind (py_add (v s) dv) (fun v' =>
  obind (py_mul v' step) (fun dh =>
  obind (py_sub (height s) dh) (fun height' =>
  obind (py_add (t s) step) (fun t' =>
  Ok {| height := height'; v := v'; t := t';
        time_vector := time_vector s ++ [t'];
        speed_vector := speed_vector s ++ [v'] |})))))))))))).

(** The frame [_calculator] starts from. *)
Definition initial (h : pyval) : frame :=
  {| height := h; v := PyInt 0; t := PyInt 0;
     time_vector := [PyInt 0]; speed_vector := [PyInt 0] |}.

(** [n] passes through the body. *)
Fixpoint steps (m A C p g : pyval) (n : nat) (s : frame) : outcome frame :=
  match n with
  | O => Ok s
  | S n' => obind (body m A C p g s) (steps m A C p g n')
  end.

(** The loop condition [height > 0]. *)
Definition falling (s : frame) : outcome bool := py_gt (height s) (PyInt 0).

(** The loop started in [s] leaves after exactly [n] passes, in [s']: the
    condition holds before each of the [n] passes and fails in [s']. *)
Definition lands_after (m A C p g : pyval) (s : frame) (n : nat) (s' : frame)
    : Prop :=
  steps m A C p g n s = Ok s'
  /\ falling s' = Ok false
  /\ forall k, (k < n)%nat ->
       exists sk, steps m A C p g k s = Ok sk /\ falling sk = Ok true.

(** The checks [air_time] and [landing_speed] make on their argument. *)
Definition positive_number (h : pyval) : Prop :=
  is_number h /\ py_le h (PyInt 0) = Ok false.

(** The only errors arithmetic on numbers can raise. *)
Definition arithmetic_error (e : exn) : Prop :=
  e = OverflowError \/ e = ZeroDivisionError.

Definition number_or_error (r : outcome pyval) : Prop :=
  match r with
  | Ok v => is_number v
  | Raise e => arithmetic_error e
  | OutOfFuel => False
  end.

(** Every value a frame holds is a number. *)
Record numeric_frame (s : frame) : Prop := {
  num_height : is_number (height s);
  num_v : is_number (v s);
  num_t : is_number (t s);
  num_time_vector : Forall is_number (time_vector s);
  num_speed_vector : Forall is_number (speed_vector s);
}.

(** What a query may produce on numbers: a number, an arithmetic error,
    or no answer within the fuel. *)
Definition numeric_result {A} (P : A -> Prop) (r : outcome A) : Prop :=
  match r with
  | Ok a => P a
  | Raise e => arithmetic_error e
  | OutOfFuel => True
  end.

(** ** Floats by sign *)

(** A float that is not negative: NaN, [+0], [+infinity] or a finite float
    with the sign bit clear. *)
Definition plus_sign (x : spec_float) : bool :=
  match x with
  | S754_zero true | S754_infinity true | S754_finite true _ _ => false
  | _ => true
  end.

(** A float that is strictly positive. *)
Definition pos_float (x : spec_float) : bool :=
  match x with
  | S754_infinity false | S754_finite false _ _ => true
  | _ => false
  end.

(** A zero of either sign. *)
Definition is_zero_float (x : spec_float) : bool :=
  match x with S754_zero _ => true | _ => false end.

(** ** Instances used below *)

(** The instance with the five given attributes. *)
Definition model_of (m A C p g : pyval) : obj :=
  <["_g" := g]> (<["_p" := p]> (<["_C" := C]> (<["_A" := A]>
    (<["_m" := m]> ∅)))).

(** The instance of the unit tests, [Freefall(85, 0.7)]. *)
Definition test_model : obj :=
  model_of (PyInt 85) (PyFloat 0.7) default_drag_coef default_density
    default_gravity.

(** The same after [set_density(0)]: a fall in vacuum. *)
Definition vacuum_model : obj :=
  model_of (PyInt 85) (PyFloat 0.7) default_drag_coef (PyInt 0)
    default_gravity.




(** An area and a density so large that [0.5*C*p*A] overflows. *)
Definition dense_model : obj :=
  model_of (PyFloat 1) (PyFloat 1e308) (PyFloat 1) (PyFloat 1e308)
    (PyFloat 9.81).


(** In vacuum, with the least positive gravity: [g*0.01] rounds to zero. *)
Definition stuck_model : obj :=
  model_of (PyInt 1) (PyInt 1) (PyInt 1) (PyInt 0) (PyFloat 5e-324).

(** ** The closed form of a fall without drag *)


(** ** Rounding, conversions and the frames of the proofs below *)

(** The binary64 number nearest to [a / b * 2^-1074], for integers
    [0 <= a] and [0 < b]. *)
Definition round_q (s : bool) (a b : Z) : spec_float :=
  let n := Z.max (Z.log2 (a / b) + 1 - 53) 0 in
  let q := div_half_even a (b * 2 ^ n) in
  let n' := if q =? 2 ^ 53 then n + 1 else n in
  let q' := if q =? 2 ^ 53 then 2 ^ 52 else q in
  match q' with
  | Z.pos m =>
      if n' - 1074 <=? 971 then S754_finite s m (n' - 1074)
      else S754_infinity s
  | _ => S754_zero s
  end.

(** The binary64 number nearest to [z * 2^-1074], for an integer [z > 0]. *)
Definition round_spec (s : bool) (z : Z) : spec_float := round_q s z 1.

(** The binary64 number nearest to [z * 2^-1074] for any integer [z]. *)
Definition round_int (z : Z) : spec_float :=
  match z with
  | 0 => S754_zero false
  | Z.pos _ => round_spec false z
  | Z.neg p => round_spec true (Z.pos p)
  end.

(** The value of a finite number or a zero, counted in units of
    [2^-1074]. *)
Definition scaled (x : spec_float) : Z :=
  match x with
  | S754_finite s m e => cond_Zopp s (Z.pos m) * 2 ^ (e + 1074)
  | _ => 0
  end.

Definition is_finite_SF (x : spec_float) : bool :=
  match x with
  | S754_zero _ | S754_finite _ _ _ => true
  | _ => false
  end.


(** [float(v)] as the mixed arithmetic applies it to an operand. *)
Definition as_float (v : pyval) : outcome float :=
  match as_num v with
  | Some n => to_float n
  | None => Raise TypeError
  end.

(** The five attributes as the loop sees them: every one of them meets a
    float operand, and is converted. *)
Record floats_of (m A C p g : pyval) (fm fA fC fp fg : float) : Prop := {
  float_m : as_float m = Ok fm;
  float_A : as_float A = Ok fA;
  float_C : as_float C = Ok fC;
  float_p : as_float p = Ok fp;
  float_g : as_float g = Ok fg;
}.

(** The frames of a fall in vacuum after the first pass: the speed is a
    float of at least [c], the gain of a pass; while the height is positive
    the speed is finite and the height is a finite float whose unit in the
    last place is at most [q] and whose value is at most [n] units of
    [2^-1074]. *)
Definition vacuum_frame (c : float) (q : Z) (n : nat) (s : frame) : Prop :=
  exists x y tau,
    v s = PyFloat x /\ height s = PyFloat y /\ t s = PyFloat tau
    /\ last (time_vector s) = Some (t s)
    /\ last (speed_vector s) = Some (v s)
    /\ (c <=? x)%float = true
    /\ ((0 <? y)%float = true ->
        is_finite x = true
        /\ exists my ey,
             Prim2SF y = S754_finite false my ey
             /\ 2 ^ (ey + 1074) <= q
             /\ Z.pos my * 2 ^ (ey + 1074) <= Z.of_nat n).

(** A query that has ended: with a float, or with the overflow of a
    square. *)
Definition returns_float_or_overflows (r : outcome pyval) : Prop :=
  match r with
  | Ok (PyFloat _) => True
  | Raise OverflowError => True
  | _ => False
  end.

(** In vacuum, under a gravity so strong that the square of the speed
    overflows in the second pass. *)
Definition violent_model : obj :=
  model_of (PyFloat 85) (PyFloat 0.7) (PyFloat 1) (PyFloat 0) (PyFloat 1e160).

(** ** What the further properties are stated with *)

(** The dictionary [properties] returns for the attribute values [m], [A],
    [C], [p] and [g]. *)
Definition property_dict (m A C p g : pyval) : gmap string pyval :=
  <["g (m/(s^2))" := g]> (<["p (kg/(m^3))" := p]> (<["C" := C]>
    (<["A (m^2)" := A]> (<["m (kg)" := m]> ∅)))).

(** The clock of [_calculator] after [n] passes: [t] starts as the int [0]
    and every pass adds [step] to it in binary64. *)
Definition tick (n : nat) : float :=
  Nat.iter n (fun x => (x + 0.01)%float) 0%float.

Definition clock (n : nat) : pyval :=
  match n with
  | O => PyInt 0
  | S _ => PyFloat (tick n)
  end.

(** A query that has ended on a valid instance. *)
Definition float_or_OverflowError (r : outcome pyval) : Prop :=
  match r with
  | Ok a => exists x, a = PyFloat x
  | Raise e => e = OverflowError
  | OutOfFuel => True
  end.

(** A number that is not negative: an int [z >= 0], or a float that is not
    negative. *)
Definition not_negative (v : pyval) : Prop :=
  match as_num v with
  | Some (NInt z) => 0 <= z
  | Some (NFloat x) => plus_sign (Prim2SF x) = true
  | None => False
  end.

(** What [terminal] may produce on a valid instance. *)
Definition terminal_outcome (r : outcome pyval) : Prop :=
  match r with
  | Ok PyNone => True
  | Ok (PyFloat x) => plus_sign (Prim2SF x) = true
  | Ok _ => False
  | Raise e => e = ZeroDivisionError \/ e = OverflowError
  | OutOfFuel => False
  end.

(** The instance of the unit tests with every attribute a float. *)
Definition float_test_model : obj :=
  model_of (PyFloat 85) (PyFloat 0.7) (PyFloat 1) (PyFloat 1.2)
    (PyFloat 9.81).

(** The speed of a fall in vacuum after [n] passes: every pass adds the
    gain [c] of a pass, [g*0.01], in binary64. *)
Definition vacuum_speed (c : float) (n : nat) : float :=
  Nat.iter n (fun x => (x + c)%float) 0%float.

(** A lighter and wider object in vacuum. *)
Definition feather_model : obj :=
  model_of (PyFloat 0.001) (PyInt 1000) (PyFloat 1.5) (PyInt 0)
    default_gravity.

(** The speed of a frame is the int [0] of the start or a float. *)
Definition speed_is_read (s : frame) : Prop :=
  v s = PyInt 0 \/ exists x, v s = PyFloat x.

(** * Basic facts about the monad *)

Section MonadFacts.
Context {A B : Type}.

Lemma read_only_ret (a : A) : read_only (ret a).
Proof. intros self. reflexivity. Qed.

Lemma read_only_raise (e : exn) : read_only (@raise A e).
Proof. intros self. reflexivity. Qed.

Lemma read_only_out_of_fuel : read_only (@out_of_fuel A).
Proof. intros self. reflexivity. Qed.

Lemma read_only_lift (x : outcome A) : read_only (lift x).
Proof. intros self. reflexivity. Qed.

Lemma read_only_bind (m : M A) (k : A -> M B) :
  read_only m -> (forall a, read_only (k a)) -> read_only (bind m k).
Proof.
  intros Hm Hk self. unfold bind. specialize (Hm self).
  destruct (m self) as [[a | e |] self']; simpl in *; subst; auto.
  apply Hk.
Qed.

Lemma read_only_atomic (m : M A) : read_only m -> atomic m.
Proof. intros H self. rewrite H. destruct (result_of (m self)); auto. Qed.

(** Checks first, writes last: a read-only prefix followed by an atomic
    continuation is atomic. *)
Lemma atomic_bind (m : M A) (k : A -> M B) :
  read_only m -> (forall a, atomic (k a)) -> atomic (bind m k).
Proof.
  intros Hm Hk self. unfold bind, result_of, state_of.
  specialize (Hm self). unfold state_of in Hm.
  destruct (m self) as [[a | e |] self'] eqn:E; simpl in *; subst; auto.
  apply Hk.
Qed.
End MonadFacts.

Lemma read_only_getattr name : read_only (getattr name).
Proof. intros self. unfold getattr. destruct (self !! name); reflexivity. Qed.

Lemma atomic_setattr name v : atomic (setattr name v).
Proof. intros self. exact I. Qed.

Lemma read_only_if {A} (c : bool) (m1 m2 : M A) :
  read_only m1 -> read_only m2 -> read_only (if c then m1 else m2).
Proof. destruct c; auto. Qed.

Lemma atomic_if {A} (c : bool) (m1 m2 : M A) :
  atomic m1 -> atomic m2 -> atomic (if c then m1 else m2).
Proof. destruct c; auto. Qed.

Lemma read_only_for_each args body :
  (forall arg, read_only (body arg)) -> read_only (for_each args body).
Proof.
  intros Hb. induction args as [| arg rest IH]; simpl.
  - apply read_only_ret.
  - apply read_only_bind; auto.
Qed.

Create HintDb frame discriminated.
#[local] Hint Resolve read_only_ret read_only_raise read_only_out_of_fuel
  read_only_lift read_only_getattr read_only_if read_only_for_each
  read_only_atomic atomic_setattr atomic_if : frame.

Ltac frame_step :=
  first
    [ apply read_only_bind; [| intros ? ]
    | apply read_only_if
    | apply read_only_for_each; intros ?
    | solve [ auto with frame ] ].

Ltac frame := repeat frame_step.

(** * Read-only queries *)

Lemma read_only_properties : read_only properties.
Proof. unfold properties. frame. Qed.

Lemma read_only_terminal : read_only terminal.
Proof. unfold terminal. frame. Qed.

Lemma read_only_loop_body s : read_only (loop_body s).
Proof. unfold loop_body. frame. Qed.

Lemma read_only_while_loop fuel : forall s, read_only (while_loop fuel s).
Proof.
  induction fuel as [| fuel IH]; intros s; simpl.
  - frame.
  - apply read_only_bind; [ frame | intros c ].
    apply read_only_if; [| frame ].
    apply read_only_bind; [ apply read_only_loop_body | auto ].
Qed.

Lemma read_only__calculator fuel h : read_only (_calculator fuel h).
Proof.
  unfold _calculator. apply read_only_bind; [ apply read_only_while_loop |].
  intros s. frame.
Qed.

Lemma read_only_air_time fuel h : read_only (air_time fuel h).
Proof.
  unfold air_time. apply read_only_if; [ frame |].
  apply read_only_bind; [ frame | intros c ].
  apply read_only_if; [ frame |].
  apply read_only_bind; [ apply read_only__calculator | intros r; frame ].
Qed.

Lemma read_only_landing_speed fuel h : read_only (landing_speed fuel h).
Proof.
  unfold landing_speed. apply read_only_if; [ frame |].
  apply read_only_bind; [ frame | intros c ].
  apply read_only_if; [ frame |].
  apply read_only_bind; [ apply read_only__calculator | intros r; frame ].
Qed.

(** C9. The four queries [properties], [terminal], [air_time] and
    [landing_speed] are read-only: for every state of the instance and
    every argument, whether the call returns, raises or runs out of fuel, no
    attribute is changed; hence a second call with the same argument
    returns what the first one did. *)
Theorem queries_read_only (self : obj) (fuel : nat) (h : pyval) :
  (state_of (properties self) = self
   /\ state_of (terminal self) = self
   /\ state_of (air_time fuel h self) = self
   /\ state_of (landing_speed fuel h self) = self)
  /\ (twice properties self = (Ok (result_of (properties self), result_of (properties self)), self)
      /\ twice terminal self = (Ok (result_of (terminal self), result_of (terminal self)), self)
      /\ twice (air_time fuel h) self
         = (Ok (result_of (air_time fuel h self), result_of (air_time fuel h self)), self)
      /\ twice (landing_speed fuel h) self
         = (Ok (result_of (landing_speed fuel h self),
                result_of (landing_speed fuel h self)), self)).
Proof.
  pose proof (read_only_properties self) as Hp.
  pose proof (read_only_terminal self) as Ht.
  pose proof (read_only_air_time fuel h self) as Ha.
  pose proof (read_only_landing_speed fuel h self) as Hl.
  split; [ auto |].
  unfold twice. rewrite Hp, Ht, Ha, Hl. rewrite Hp, Ht, Ha, Hl. auto.
Qed.

(** * Construction and mutation *)

Lemma succeeds_setattr name v : succeeds (setattr name v).
Proof. intros self. exists tt. reflexivity. Qed.

Lemma succeeds_bind {A B} (m : M A) (k : A -> M B) :
  succeeds m -> (forall a, succeeds (k a)) -> succeeds (bind m k).
Proof.
  intros Hm Hk self. unfold bind, result_of. destruct (Hm self) as [a Ha].
  unfold result_of in Ha. destruct (m self) as [r self']; simpl in Ha; subst.
  apply Hk.
Qed.

Lemma succeeds_atomic {A} (m : M A) : succeeds m -> atomic m.
Proof. intros H self. destruct (H self) as [a ->]. exact I. Qed.

Ltac writes_last :=
  apply succeeds_atomic;
  repeat (apply succeeds_bind; [ apply succeeds_setattr | intros _ ]);
  apply succeeds_setattr.

Lemma atomic___init__ mass area drag_coef density gravity :
  atomic (__init__ mass area drag_coef density gravity).
Proof.
  unfold __init__.
  apply atomic_bind; [ frame | intros _ ].
  apply atomic_bind; [ frame | intros _ ].
  apply atomic_bind; [ frame | intros c1 ].
  apply atomic_bind; [ frame | intros c2 ].
  apply atomic_if; [ auto with frame | writes_last ].
Qed.

Lemma atomic_set_drag_coef drag_coef : atomic (set_drag_coef drag_coef).
Proof.
  unfold set_drag_coef. apply atomic_if; [ auto with frame |].
  apply atomic_bind; [ frame | intros c1 ].
  apply atomic_bind; [ frame | intros c2 ].
  apply atomic_if; [ auto with frame | writes_last ].
Qed.

Lemma atomic_set_density density : atomic (set_density density).
Proof.
  unfold set_density. apply atomic_if; [ auto with frame |].
  apply atomic_bind; [ frame | intros c ].
  apply atomic_if; [ auto with frame | writes_last ].
Qed.

Lemma atomic_set_gravity gravity : atomic (set_gravity gravity).
Proof.
  unfold set_gravity. apply atomic_if; [ auto with frame |].
  apply atomic_bind; [ frame | intros c ].
  apply atomic_if; [ auto with frame | writes_last ].
Qed.

Lemma atomic_set_size mass area : atomic (set_size mass area).
Proof.
  unfold set_size. apply atomic_if; [ auto with frame |].
  apply atomic_bind; [ frame | intros c1 ].
  apply atomic_bind; [ frame | intros c2 ].
  apply atomic_if; [ auto with frame | writes_last ].
Qed.

Lemma atomic_raise {A} (m : M A) self e :
  atomic m -> result_of (m self) = Raise e -> state_of (m self) = self.
Proof. intros H E. specialize (H self). rewrite E in H. exact H. Qed.

(** No mutator contains a loop. *)
Lemma mutators_terminate self mass area drag_coef density gravity :
  result_of (__init__ mass area drag_coef density gravity self) <> OutOfFuel
  /\ result_of (set_drag_coef drag_coef self) <> OutOfFuel
  /\ result_of (set_density density self) <> OutOfFuel
  /\ result_of (set_gravity gravity self) <> OutOfFuel
  /\ result_of (set_size mass area self) <> OutOfFuel.
Proof.
  unfold __init__, set_drag_coef, set_density, set_gravity, set_size,
    for_each, bind, lift, raise, ret, setattr, result_of,
    py_le, py_lt, py_ge, ordering.
  repeat split;
    repeat match goal with
    | |- context [as_num ?a] => destruct (as_num a); simpl
    | |- context [isinstance_int_float ?a] =>
        destruct (isinstance_int_float a); simpl
    | |- context [if ?c then _ else _] => destruct c; simpl
    end; discriminate.
Qed.

Lemma set_size_writes self mass area :
  result_of (set_size mass area self) = Ok tt ->
  state_of (set_size mass area self) = <["_A" := area]> (<["_m" := mass]> self).
Proof.
  unfold set_size, bind, lift, raise, ret, setattr, result_of, state_of,
    py_le, ordering.
  repeat match goal with
  | |- context [as_num ?a] => destruct (as_num a); simpl
  | |- context [isinstance_int_float ?a] =>
      destruct (isinstance_int_float a); simpl
  | |- context [if ?c then _ else _] => destruct c; simpl
  end; try discriminate; reflexivity.
Qed.

(** C7. Construction and every setter are atomic on failure: when a type or
    range check fails no attribute has changed; [set_size] writes both the
    mass and the area when it returns and neither when it raises; a failed
    construction leaves the fresh instance without any attribute. *)
Theorem mutators_atomic_on_failure
    (self : obj) (mass area drag_coef density gravity : pyval) (e : exn) :
  (result_of (__init__ mass area drag_coef density gravity self) = Raise e ->
   state_of (__init__ mass area drag_coef density gravity self) = self)
  /\ (result_of (set_drag_coef drag_coef self) = Raise e ->
      state_of (set_drag_coef drag_coef self) = self)
  /\ (result_of (set_density density self) = Raise e ->
      state_of (set_density density self) = self)
  /\ (result_of (set_gravity gravity self) = Raise e ->
      state_of (set_gravity gravity self) = self)
  /\ (result_of (set_size mass area self) = Raise e ->
      state_of (set_size mass area self) = self)
  /\ (result_of (set_size mass area self) = Ok tt ->
      state_of (set_size mass area self)
      = <["_A" := area]> (<["_m" := mass]> self))
  /\ (Freefall mass area drag_coef density gravity = Raise e ->
      __init__ mass area drag_coef density gravity ∅ = (Raise e, ∅)).
Proof.
  repeat split.
  - apply atomic_raise, atomic___init__.
  - apply atomic_raise, atomic_set_drag_coef.
  - apply atomic_raise, atomic_set_density.
  - apply atomic_raise, atomic_set_gravity.
  - apply atomic_raise, atomic_set_size.
  - apply set_size_writes.
  - unfold Freefall. intros H.
    pose proof (atomic___init__ mass area drag_coef density gravity ∅) as Ha.
    unfold result_of, state_of in Ha.
    destruct (__init__ mass area drag_coef density gravity ∅)
      as [[u | e' |] self'] eqn:E; simpl in *; try discriminate.
    injection H as ->. subst self'. reflexivity.
Qed.

Lemma mutators_atomic_on_failure_witness :
  state_of (set_size (PyInt 80) (PyInt (-1))
              (<["_A" := PyFloat 0.7]> (<["_m" := PyInt 85]> ∅)))
  = <["_A" := PyFloat 0.7]> (<["_m" := PyInt 85]> ∅)
  /\ __init__ (PyStr "85") (PyFloat 0.7) default_drag_coef default_density
        default_gravity ∅ = (Raise TypeError, ∅).
Proof.
  split.
  - apply (mutators_atomic_on_failure _ (PyInt 80) (PyInt (-1)) PyNone PyNone
             PyNone ValueError). reflexivity.
  - apply (mutators_atomic_on_failure ∅ (PyStr "85") (PyFloat 0.7)
             default_drag_coef default_density default_gravity TypeError).
    reflexivity.
Defined.

(** * The invariants of the data model *)

Lemma Prim2SF_nan f : Prim2SF f = S754_nan -> f = nan.
Proof. intros H. rewrite <- (SF2Prim_Prim2SF f), H. reflexivity. Qed.

Lemma comparable v k :
  is_number v -> ~ is_NaN v ->
  exists n c, as_num v = Some n /\ num_compare n (NInt k) = Some c.
Proof.
  unfold is_number, is_NaN. intros Hn Hnan.
  destruct v as [| b | z | f | | |]; try discriminate; simpl;
    [ eexists _, _; split; reflexivity .. |].
  exists (NFloat f). simpl. unfold float_compare_int.
  destruct (Prim2SF f) eqn:E; try (eexists; split; reflexivity).
  exfalso. apply Hnan. f_equal. apply Prim2SF_nan, E.
Qed.

Lemma not_le_gt v k :
  is_number v -> ~ is_NaN v ->
  py_le v (PyInt k) = Ok false -> py_gt v (PyInt k) = Ok true.
Proof.
  intros Hn Hnan. destruct (comparable v k Hn Hnan) as (n & c & E1 & E2).
  unfold py_le, py_gt, ordering. rewrite E1. simpl. rewrite E2.
  destruct c; simpl; intros; congruence.
Qed.

Lemma not_ge_lt v k :
  is_number v -> ~ is_NaN v ->
  py_ge v (PyInt k) = Ok false -> py_lt v (PyInt k) = Ok true.
Proof.
  intros Hn Hnan. destruct (comparable v k Hn Hnan) as (n & c & E1 & E2).
  unfold py_ge, py_lt, ordering. rewrite E1. simpl. rewrite E2.
  destruct c; simpl; intros; congruence.
Qed.

Lemma not_lt_ge v k :
  is_number v -> ~ is_NaN v ->
  py_lt v (PyInt k) = Ok false -> py_ge v (PyInt k) = Ok true.
Proof.
  intros Hn Hnan. destruct (comparable v k Hn Hnan) as (n & c & E1 & E2).
  unfold py_ge, py_lt, ordering. rewrite E1. simpl. rewrite E2.
  destruct c; simpl; intros; congruence.
Qed.

Lemma Freefall_inv mass area drag_coef density gravity self :
  Freefall mass area drag_coef density gravity = Ok self ->
  self = <["_g" := gravity]> (<["_p" := density]> (<["_C" := drag_coef]>
           (<["_A" := area]> (<["_m" := mass]> ∅))))
  /\ (is_number mass /\ is_number area /\ is_number drag_coef
      /\ is_number density /\ is_number gravity)
  /\ py_le mass (PyInt 0) = Ok false
  /\ py_le area (PyInt 0) = Ok false
  /\ py_le drag_coef (PyInt 0) = Ok false
  /\ py_le gravity (PyInt 0) = Ok false
  /\ py_ge drag_coef (PyInt 2) = Ok false
  /\ py_lt density (PyInt 0) = Ok false.
Proof.
  unfold Freefall, __init__, for_each, bind, lift, raise, ret, setattr, is_number.
  destruct (isinstance_int_float mass); simpl; try discriminate.
  destruct (isinstance_int_float area); simpl; try discriminate.
  destruct (isinstance_int_float drag_coef); simpl; try discriminate.
  destruct (isinstance_int_float density); simpl; try discriminate.
  destruct (isinstance_int_float gravity); simpl; try discriminate.
  destruct (py_le mass (PyInt 0)) as [[] | |]; simpl; try discriminate.
  destruct (py_le area (PyInt 0)) as [[] | |]; simpl; try discriminate.
  destruct (py_le drag_coef (PyInt 0)) as [[] | |]; simpl; try discriminate.
  destruct (py_le gravity (PyInt 0)) as [[] | |]; simpl; try discriminate.
  destruct (py_ge drag_coef (PyInt 2)) as [[] | |]; simpl; try discriminate.
  destruct (py_lt density (PyInt 0)) as [[] | |]; simpl; try discriminate.
  intros [= <-]. repeat split.
Qed.

Lemma has_fields_new m A C p g : has_fields (model_of m A C p g) m A C p g.
Proof. constructor; reflexivity. Qed.

Lemma has_fields_set_C self m A C p g C' :
  has_fields self m A C p g -> has_fields (<["_C" := C']> self) m A C' p g.
Proof. intros []. constructor; simplify_map_eq; done. Qed.

Lemma has_fields_set_p self m A C p g p' :
  has_fields self m A C p g -> has_fields (<["_p" := p']> self) m A C p' g.
Proof. intros []. constructor; simplify_map_eq; done. Qed.

Lemma has_fields_set_g self m A C p g g' :
  has_fields self m A C p g -> has_fields (<["_g" := g']> self) m A C p g'.
Proof. intros []. constructor; simplify_map_eq; done. Qed.

Lemma has_fields_set_mA self m A C p g m' A' :
  has_fields self m A C p g ->
  has_fields (<["_A" := A']> (<["_m" := m']> self)) m' A' C p g.
Proof. intros []. constructor; simplify_map_eq; done. Qed.

Lemma set_drag_coef_inv drag_coef self self' :
  set_drag_coef drag_coef self = (Ok tt, self') ->
  self' = <["_C" := drag_coef]> self /\ is_number drag_coef
  /\ py_le drag_coef (PyInt 0) = Ok false
  /\ py_ge drag_coef (PyInt 2) = Ok false.
Proof.
  unfold set_drag_coef, bind, lift, raise, ret, setattr, is_number.
  destruct (isinstance_int_float drag_coef); simpl; try discriminate.
  destruct (py_le drag_coef (PyInt 0)) as [[] | |]; simpl; try discriminate.
  destruct (py_ge drag_coef (PyInt 2)) as [[] | |]; simpl; try discriminate.
  intros [= <-]. auto.
Qed.

Lemma set_density_inv density self self' :
  set_density density self = (Ok tt, self') ->
  self' = <["_p" := density]> self /\ is_number density
  /\ py_lt density (PyInt 0) = Ok false.
Proof.
  unfold set_density, bind, lift, raise, ret, setattr, is_number.
  destruct (isinstance_int_float density); simpl; try discriminate.
  destruct (py_lt density (PyInt 0)) as [[] | |]; simpl; try discriminate.
  intros [= <-]. auto.
Qed.

Lemma set_gravity_inv gravity self self' :
  set_gravity gravity self = (Ok tt, self') ->
  self' = <["_g" := gravity]> self /\ is_number gravity
  /\ py_le gravity (PyInt 0) = Ok false.
Proof.
  unfold set_gravity, bind, lift, raise, ret, setattr, is_number.
  destruct (isinstance_int_float gravity); simpl; try discriminate.
  destruct (py_le gravity (PyInt 0)) as [[] | |]; simpl; try discriminate.
  intros [= <-]. auto.
Qed.

Lemma set_size_inv mass area self self' :
  set_size mass area self = (Ok tt, self') ->
  self' = <["_A" := area]> (<["_m" := mass]> self)
  /\ is_number mass /\ is_number area
  /\ py_le mass (PyInt 0) = Ok false
  /\ py_le area (PyInt 0) = Ok false.
Proof.
  unfold set_size, bind, lift, raise, ret, setattr, is_number.
  destruct (isinstance_int_float mass); simpl; try discriminate.
  destruct (isinstance_int_float area); simpl; try discriminate.
  destruct (py_le mass (PyInt 0)) as [[] | |]; simpl; try discriminate.
  destruct (py_le area (PyInt 0)) as [[] | |]; simpl; try discriminate.
  intros [= <-]. auto.
Qed.

(** Away from NaN, the checks of the constructor and of the setters
    establish the invariants of the data model. *)
Lemma Freefall_establishes_invariants mass area drag_coef density gravity self :
  Freefall mass area drag_coef density gravity = Ok self ->
  ~ is_NaN mass -> ~ is_NaN area -> ~ is_NaN drag_coef ->
  ~ is_NaN density -> ~ is_NaN gravity ->
  has_fields self mass area drag_coef density gravity
  /\ invariants mass area drag_coef density gravity.
Proof.
  intros H ? ? ? ? ?.
  apply Freefall_inv in H
    as (-> & (? & ? & ? & ? & ?) & ? & ? & ? & ? & ? & ?).
  split; [ apply has_fields_new |].
  constructor; auto using not_le_gt, not_ge_lt, not_lt_ge.
Qed.

Lemma setters_preserve_invariants self m A C p g :
  has_fields self m A C p g -> invariants m A C p g ->
  (forall C' self', ~ is_NaN C' -> set_drag_coef C' self = (Ok tt, self') ->
     has_fields self' m A C' p g /\ invariants m A C' p g)
  /\ (forall p' self', ~ is_NaN p' -> set_density p' self = (Ok tt, self') ->
     has_fields self' m A C p' g /\ invariants m A C p' g)
  /\ (forall g' self', ~ is_NaN g' -> set_gravity g' self = (Ok tt, self') ->
     has_fields self' m A C p g' /\ invariants m A C p g')
  /\ (forall m' A' self', ~ is_NaN m' -> ~ is_NaN A' ->
     set_size m' A' self = (Ok tt, self') ->
     has_fields self' m' A' C p g /\ invariants m' A' C p g).
Proof.
  intros Hf []. split; [| split; [| split ]].
  - intros C' self' ? (-> & ? & ? & ?)%set_drag_coef_inv.
    split; [ eauto using has_fields_set_C |].
    constructor; auto using not_le_gt, not_ge_lt.
  - intros p' self' ? (-> & ? & ?)%set_density_inv.
    split; [ eauto using has_fields_set_p |].
    constructor; auto using not_lt_ge.
  - intros g' self' ? (-> & ? & ?)%set_gravity_inv.
    split; [ eauto using has_fields_set_g |].
    constructor; auto using not_le_gt.
  - intros m' A' self' ? ? (-> & ? & ? & ? & ?)%set_size_inv.
    split; [ eauto using has_fields_set_mA |].
    constructor; auto using not_le_gt.
Qed.

(** C8. After a successful construction the invariants are meant to hold
    on the five fields.  The range checks are written [arg <= 0],
    [drag_coef >= 2] and [density < 0], which are all false on a NaN: the
    construction below returns an instance whose mass is NaN, and
    [mass > 0] does not hold on it. *)
Theorem nan_mass_is_accepted :
  exists self,
    Freefall (PyFloat nan) (PyFloat 0.7) default_drag_coef default_density
      default_gravity = Ok self
    /\ self !! "_m" = Some (PyFloat nan)
    /\ py_gt (PyFloat nan) (PyInt 0) = Ok false
    /\ ~ valid_model self.
Proof.
  eexists. split; [ vm_compute; reflexivity |].
  split; [ reflexivity |]. split; [ reflexivity |].
  intros (m & A & C & p & g & [Hm _ _ _ _] & [Hgt _ _ _ _ _]).
  vm_compute in Hm. injection Hm as <-. vm_compute in Hgt. discriminate.
Qed.

(** The same through a setter. *)
Lemma nan_gravity_is_accepted self :
  set_gravity (PyFloat nan) self = (Ok tt, <["_g" := PyFloat nan]> self).
Proof. reflexivity. Qed.

(** * Type checks *)

Lemma type_check_first_init mass area drag_coef density gravity self :
  not_a_number mass \/ not_a_number area \/ not_a_number drag_coef
  \/ not_a_number density \/ not_a_number gravity ->
  __init__ mass area drag_coef density gravity self = (Raise TypeError, self).
Proof.
  unfold not_a_number, __init__, for_each, bind, raise, ret.
  intros H.
  destruct (isinstance_int_float mass); simpl; [| reflexivity ].
  destruct (isinstance_int_float area); simpl; [| reflexivity ].
  destruct (isinstance_int_float drag_coef); simpl; [| reflexivity ].
  destruct (isinstance_int_float density); simpl; [| reflexivity ].
  destruct (isinstance_int_float gravity); simpl; [| reflexivity ].
  intuition discriminate.
Qed.

Lemma ordering_number test v k :
  is_number v -> exists c, ordering test v (PyInt k) = Ok c.
Proof.
  unfold is_number, ordering.
  destruct v; try discriminate; simpl; eauto.
Qed.


(** * The loop of [_calculator] *)

Lemma to_float_or_error n :
  match to_float n with
  | Ok _ => True
  | Raise e => arithmetic_error e
  | OutOfFuel => False
  end.
Proof.
  destruct n; simpl; [| exact I ]. unfold float_of_int.
  destruct (is_infinity _); [ left; reflexivity | exact I ].
Qed.

Lemma arith_number iop fop a b :
  is_number a -> is_number b -> number_or_error (arith iop fop a b).
Proof.
  unfold is_number, arith. intros Ha Hb.
  destruct a; try discriminate; destruct b; try discriminate; simpl;
    try reflexivity;
    repeat match goal with
    | |- context [float_of_int ?z] =>
        pose proof (to_float_or_error (NInt z)) as ?H; simpl in *;
        destruct (float_of_int z); simpl
    end; auto; try reflexivity; contradiction.
Qed.

Lemma py_truediv_number a b :
  is_number a -> is_number b -> number_or_error (py_truediv a b).
Proof.
  assert (Hi : forall x y, number_or_error
            (obind (int_true_divide x y) (fun q => Ok (PyFloat q)))).
  { intros x y. unfold int_true_divide.
    destruct (y =? 0); [ right; reflexivity |].
    destruct x; simpl; try reflexivity;
      destruct (is_infinity _); simpl; try reflexivity; left; reflexivity. }
  assert (Hf : forall x y, number_or_error
            (if is_zero y then Raise ZeroDivisionError
             else Ok (PyFloat (x / y)%float))).
  { intros x y. destruct (is_zero y); [ right |]; reflexivity. }
  unfold is_number, py_truediv. intros Ha Hb.
  destruct a; try discriminate; destruct b; try discriminate; simpl;
    try apply Hi; try apply Hf;
    repeat match goal with
    | |- context [float_of_int ?z] =>
        pose proof (to_float_or_error (NInt z)) as ?H; simpl in *;
        destruct (float_of_int z); simpl
    end; auto; try apply Hf; contradiction.
Qed.

Lemma py_pow_2_number a : is_number a -> number_or_error (py_pow_2 a).
Proof.
  unfold is_number, py_pow_2. intros Ha.
  destruct a; try discriminate; simpl; try reflexivity.
  unfold float_pow_2.
  destruct (is_nan f); [ reflexivity |].
  destruct (is_infinity f); [ reflexivity |].
  destruct (is_infinity _); [ left |]; reflexivity.
Qed.

Lemma py_round_2_number a :
  is_number a -> exists r, py_round_2 a = Ok r /\ is_number r.
Proof.
  unfold is_number. destruct a; try discriminate; simpl; eauto.
Qed.

Lemma getattr_field self name x :
  self !! name = Some x -> getattr name self = (Ok x, self).
Proof. intros H. unfold getattr. rewrite H. reflexivity. Qed.

Lemma bind_getattr {B} self name x (k : pyval -> M B) :
  self !! name = Some x -> bind (getattr name) k self = k x self.
Proof. intros H. unfold bind. rewrite (getattr_field _ _ _ H). reflexivity. Qed.

Lemma bind_lift {A B} (x : outcome A) (k : A -> M B) self :
  bind (lift x) k self
  = match x with
    | Ok a => k a self
    | Raise e => (Raise e, self)
    | OutOfFuel => (OutOfFuel, self)
    end.
Proof. reflexivity. Qed.

(** On an instance with its five attributes, the body of the loop is
    [body] and changes nothing. *)
Lemma loop_body_body self m A C p g s :
  has_fields self m A C p g ->
  loop_body s self = (body m A C p g s, self).
Proof.
  intros [Hm HA HC Hp Hg]. unfold loop_body, body.
  repeat first
    [ rewrite (bind_getattr _ _ _ _ Hm)
    | rewrite (bind_getattr _ _ _ _ HA)
    | rewrite (bind_getattr _ _ _ _ HC)
    | rewrite (bind_getattr _ _ _ _ Hp)
    | rewrite (bind_getattr _ _ _ _ Hg)
    | rewrite bind_lift;
      match goal with
      | |- context [obind ?x _] => destruct x; simpl; try reflexivity
      end ].
Qed.

Lemma lands_after_now m A C p g s :
  falling s = Ok false -> lands_after m A C p g s 0 s.
Proof. intros H. split; [ reflexivity |]. split; [ exact H |]. lia. Qed.

Lemma lands_after_later m A C p g s s1 n s' :
  falling s = Ok true -> body m A C p g s = Ok s1 ->
  lands_after m A C p g s1 n s' -> lands_after m A C p g s (S n) s'.
Proof.
  intros Hf Hb (Hs & Hl & Hk). split; [| split ]; auto.
  - simpl. rewrite Hb. exact Hs.
  - intros [| k] Hlt.
    + exists s. auto.
    + destruct (Hk k) as (sk & E & F); [ lia |].
      exists sk. simpl. rewrite Hb. auto.
Qed.

Lemma lands_after_inv m A C p g s n s' :
  lands_after m A C p g s (S n) s' ->
  falling s = Ok true
  /\ exists s1, body m A C p g s = Ok s1 /\ lands_after m A C p g s1 n s'.
Proof.
  intros (Hs & Hl & Hk).
  destruct (Hk O) as (s0 & E0 & F0); [ lia |]. injection E0 as <-.
  split; [ exact F0 |].
  simpl in Hs. destruct (body m A C p g s) as [s1 | |] eqn:Hb; try discriminate.
  exists s1. split; [ reflexivity |]. split; [ exact Hs |]. split; [ exact Hl |].
  intros k Hlt. destruct (Hk (S k)) as (sk & E & F); [ lia |].
  simpl in E. rewrite Hb in E. eauto.
Qed.

(** The step at which the loop leaves is unique. *)
Lemma lands_after_unique m A C p g s n1 s1 n2 s2 :
  lands_after m A C p g s n1 s1 -> lands_after m A C p g s n2 s2 ->
  n1 = n2 /\ s1 = s2.
Proof.
  revert s n2. induction n1 as [| n1 IH]; intros s n2 H1 H2.
  - destruct H1 as (E1 & F1 & _). injection E1 as <-.
    destruct n2 as [| n2].
    + destruct H2 as (E2 & _). injection E2 as <-. auto.
    + apply lands_after_inv in H2 as (F2 & _). congruence.
  - apply lands_after_inv in H1 as (F1 & s' & Hb1 & H1).
    destruct n2 as [| n2].
    + destruct H2 as (E2 & F2 & _). injection E2 as <-. congruence.
    + apply lands_after_inv in H2 as (_ & s'' & Hb2 & H2).
      assert (s' = s'') by congruence. subst s''.
      destruct (IH _ _ H1 H2) as [-> ->]. auto.
Qed.

(** What the loop returns, it returns at the step where it lands. *)
Lemma while_loop_lands self m A C p g fuel :
  has_fields self m A C p g ->
  forall s s' self',
    while_loop fuel s self = (Ok s', self') ->
    exists n, (n <= fuel)%nat /\ lands_after m A C p g s n s'.
Proof.
  intros Hf. induction fuel as [| fuel IH]; intros s s' self'; simpl;
    rewrite bind_lift; fold (falling s);
    destruct (falling s) as [[] | |] eqn:Ef; try discriminate.
  - intros [= <- <-]. exists O. auto using lands_after_now.
  - unfold bind at 1. rewrite (loop_body_body _ _ _ _ _ _ _ Hf).
    destruct (body m A C p g s) as [s1 | |] eqn:Hb; try discriminate.
    intros H. apply IH in H as (n & Hn & Hl).
    exists (S n). split; [ lia |]. eauto using lands_after_later.
  - intros [= <- <-]. exists O. split; [ lia |]. auto using lands_after_now.
Qed.

(** With enough fuel, the loop returns the frame it lands in. *)
Lemma lands_while_loop self m A C p g :
  has_fields self m A C p g ->
  forall n fuel s s',
    lands_after m A C p g s n s' -> (n <= fuel)%nat ->
    while_loop fuel s self = (Ok s', self).
Proof.
  intros Hf. induction n as [| n IH]; intros fuel s s' Hl Hle.
  - destruct Hl as (E & F & _). injection E as <-.
    destruct fuel; simpl; rewrite bind_lift; fold (falling s); rewrite F;
      reflexivity.
  - apply lands_after_inv in Hl as (F & s1 & Hb & Hl).
    destruct fuel as [| fuel]; [ lia |]. simpl.
    rewrite bind_lift. fold (falling s). rewrite F.
    unfold bind at 1. rewrite (loop_body_body _ _ _ _ _ _ _ Hf), Hb.
    apply IH; [ exact Hl | lia ].
Qed.

(** Each pass appends the new time and the new speed to the vectors. *)
Lemma body_records m A C p g s s' :
  body m A C p g s = Ok s' ->
  time_vector s' = time_vector s ++ [t s']
  /\ speed_vector s' = speed_vector s ++ [v s'].
Proof.
  unfold body. intros H.
  repeat match type of H with
  | obind ?x _ = Ok _ => destruct x; simpl in H; try discriminate
  end.
  injection H as <-. auto.
Qed.

Lemma steps_records m A C p g n : forall s s',
  steps m A C p g n s = Ok s' ->
  length (time_vector s') = (n + length (time_vector s))%nat
  /\ length (speed_vector s') = (n + length (speed_vector s))%nat
  /\ (last (time_vector s) = Some (t s) -> last (time_vector s') = Some (t s'))
  /\ (last (speed_vector s) = Some (v s) -> last (speed_vector s') = Some (v s')).
Proof.
  induction n as [| n IH]; intros s s'; simpl.
  - intros [= <-]. auto.
  - destruct (body m A C p g s) as [s1 | |] eqn:Hb; simpl; try discriminate.
    intros H. apply IH in H as (Ht & Hv & Lt & Lv).
    apply body_records in Hb as [Et Ev].
    rewrite Et, Ev, !length_app in *. simpl in *.
    repeat split; try lia.
    + intros _. apply Lt. rewrite <- Et. rewrite Et. apply last_snoc.
    + intros _. apply Lv. rewrite <- Ev. rewrite Ev. apply last_snoc.
Qed.

Lemma _calculator_lands self m A C p g fuel h tv sv :
  has_fields self m A C p g ->
  result_of (_calculator fuel h self) = Ok (tv, sv) ->
  exists n s, (n <= fuel)%nat /\ lands_after m A C p g (initial h) n s
    /\ tv = time_vector s /\ sv = speed_vector s.
Proof.
  intros Hf. unfold _calculator, result_of, bind. fold (initial h).
  destruct (while_loop fuel (initial h) self) as [[s | |] self'] eqn:E;
    simpl; try discriminate.
  intros [= <- <-].
  destruct (while_loop_lands _ _ _ _ _ _ fuel Hf _ _ _ E) as (n & Hn & Hl).
  eauto 10.
Qed.

Lemma query_unfold fuel h self (proj : list pyval * list pyval -> list pyval) :
  positive_number h ->
  result_of
    (bind (_calculator fuel h) (fun r =>
       bind (lift (last_item (proj r))) (fun x => lift (py_round_2 x))) self)
  = obind (result_of (_calculator fuel h self)) (fun r =>
      obind (last_item (proj r)) py_round_2).
Proof.
  intros _. unfold bind, result_of, lift.
  destruct (_calculator fuel h self) as [[r | |] self']; simpl; auto.
  destruct (last_item (proj r)); reflexivity.
Qed.

Lemma air_time_unfold fuel h self :
  positive_number h ->
  result_of (air_time fuel h self)
  = obind (result_of (_calculator fuel h self)) (fun r =>
      obind (last_item (fst r)) py_round_2).
Proof.
  intros Hh. rewrite <- (query_unfold _ _ _ fst Hh).
  destruct Hh as [Hn Hle]. unfold is_number in Hn.
  unfold air_time. rewrite Hn. simpl. rewrite bind_lift, Hle. reflexivity.
Qed.

Lemma landing_speed_unfold fuel h self :
  positive_number h ->
  result_of (landing_speed fuel h self)
  = obind (result_of (_calculator fuel h self)) (fun r =>
      obind (last_item (snd r)) py_round_2).
Proof.
  intros Hh. rewrite <- (query_unfold _ _ _ snd Hh).
  destruct Hh as [Hn Hle]. unfold is_number in Hn.
  unfold landing_speed. rewrite Hn. simpl. rewrite bind_lift, Hle. reflexivity.
Qed.

(** C4. [air_time] and [landing_speed] are two projections of one run of
    [_calculator]: when the simulation returns, there is one step [n] at
    which the remaining height is first not positive; both vectors have
    [n + 1] entries, [air_time] is the rounded time recorded at that step
    and [landing_speed] the rounded speed recorded at the same step. *)
Theorem air_time_and_landing_speed_share_the_run
    (self : obj) (m A C p g : pyval) (fuel : nat) (h : pyval)
    (tv sv : list pyval) :
  has_fields self m A C p g ->
  positive_number h ->
  result_of (_calculator fuel h self) = Ok (tv, sv) ->
  exists n s,
    lands_after m A C p g (initial h) n s
    /\ tv = time_vector s /\ sv = speed_vector s
    /\ length tv = S n /\ length sv = S n
    /\ last tv = Some (t s) /\ last sv = Some (v s)
    /\ result_of (air_time fuel h self) = py_round_2 (t s)
    /\ result_of (landing_speed fuel h self) = py_round_2 (v s).
Proof.
  intros Hf Hh Hc.
  destruct (_calculator_lands _ _ _ _ _ _ _ _ _ _ Hf Hc)
    as (n & s & Hn & Hl & -> & ->).
  destruct Hl as (Hs & Hl).
  destruct (steps_records _ _ _ _ _ _ _ _ Hs) as (Lt & Lv & Et & Ev).
  simpl in Lt, Lv. specialize (Et eq_refl). specialize (Ev eq_refl).
  exists n, s. repeat split; auto; try lia.
  - apply Hl.
  - apply Hl.
  - rewrite (air_time_unfold _ _ _ Hh), Hc. simpl.
    unfold last_item. rewrite Et. reflexivity.
  - rewrite (landing_speed_unfold _ _ _ Hh), Hc. simpl.
    unfold last_item. rewrite Ev. reflexivity.
Qed.

Lemma air_time_and_landing_speed_share_the_run_witness :
  exists n s,
    lands_after (PyInt 85) (PyFloat 0.7) default_drag_coef default_density
      default_gravity (initial (PyFloat 1e-10)) n s
    /\ [PyInt 0; PyFloat 0.01] = time_vector s
    /\ [PyInt 0; PyFloat (9.81 * 0.01)] = speed_vector s
    /\ length [PyInt 0; PyFloat 0.01] = S n
    /\ length [PyInt 0; PyFloat (9.81 * 0.01)] = S n
    /\ last [PyInt 0; PyFloat 0.01] = Some (t s)
    /\ last [PyInt 0; PyFloat (9.81 * 0.01)] = Some (v s)
    /\ result_of (air_time 10 (PyFloat 1e-10) test_model) = py_round_2 (t s)
    /\ result_of (landing_speed 10 (PyFloat 1e-10) test_model)
       = py_round_2 (v s).
Proof.
  apply (air_time_and_landing_speed_share_the_run test_model).
  - apply has_fields_new.
  - split; reflexivity.
  - vm_compute. reflexivity.
Defined.

(** Numbers in, numbers out: on an instance whose attributes are numbers
    the loop raises nothing but arithmetic errors. *)
Ltac number_step :=
  match goal with
  | |- context [obind ?x _] =>
      let H := fresh "H" in
      assert (H : number_or_error x)
        by (first [ apply arith_number | apply py_truediv_number
                  | apply py_pow_2_number ]; auto; reflexivity);
      destruct x; simpl in H |- *; [| exact H | contradiction ]
  end.

Lemma body_numeric m A C p g s :
  is_number m -> is_number A -> is_number C -> is_number p -> is_number g ->
  numeric_frame s ->
  match body m A C p g s with
  | Ok s' => numeric_frame s'
  | Raise e => arithmetic_error e
  | OutOfFuel => False
  end.
Proof.
  intros Hm HA HC Hp Hg [Hh Hv Ht Htv Hsv]. unfold body.
  do 12 number_step.
  constructor; simpl; auto; apply Forall_app; auto.
Qed.

Lemma while_loop_numeric self m A C p g fuel :
  has_fields self m A C p g ->
  is_number m -> is_number A -> is_number C -> is_number p -> is_number g ->
  forall s, numeric_frame s ->
    numeric_result numeric_frame (result_of (while_loop fuel s self)).
Proof.
  intros Hf Hm HA HC Hp Hg.
  induction fuel as [| fuel IH]; intros s Hs; simpl;
    rewrite bind_lift;
    destruct (ordering_number is_gt (height s) 0 (num_height _ Hs)) as [c Ec];
    fold py_gt in Ec; rewrite Ec; destruct c; simpl; auto.
  unfold bind. rewrite (loop_body_body _ _ _ _ _ _ _ Hf).
  pose proof (body_numeric m A C p g s Hm HA HC Hp Hg Hs) as Hb.
  destruct (body m A C p g s) as [s1 | |]; simpl; auto.
Qed.

Lemma initial_numeric h : is_number h -> numeric_frame (initial h).
Proof. intros H. constructor; simpl; auto; repeat constructor. Qed.

Lemma last_item_number l :
  Forall is_number l -> l <> [] ->
  exists x, last_item l = Ok x /\ is_number x.
Proof.
  intros Hl Hne. unfold last_item.
  destruct (last l) as [x |] eqn:E.
  - exists x. split; [ reflexivity |].
    rewrite Forall_forall in Hl. apply Hl.
    apply last_Some_elem_of, E.
  - apply last_None in E. contradiction.
Qed.

Lemma query_numeric self m A C p g fuel h :
  has_fields self m A C p g ->
  is_number m -> is_number A -> is_number C -> is_number p -> is_number g ->
  positive_number h ->
  numeric_result is_number (result_of (air_time fuel h self))
  /\ numeric_result is_number (result_of (landing_speed fuel h self)).
Proof.
  intros Hf Hm HA HC Hp Hg Hh.
  rewrite (air_time_unfold _ _ _ Hh), (landing_speed_unfold _ _ _ Hh).
  unfold _calculator, result_of, bind. fold (initial h).
  pose proof (while_loop_numeric _ _ _ _ _ _ fuel Hf Hm HA HC Hp Hg
                (initial h) (initial_numeric h (proj1 Hh))) as Hw.
  pose proof (read_only_while_loop fuel (initial h) self) as Hr.
  unfold result_of, state_of in Hw, Hr.
  destruct (while_loop fuel (initial h) self) as [[s | e |] self'] eqn:E;
    simpl in *; auto.
  subst self'.
  destruct (while_loop_lands _ _ _ _ _ _ fuel Hf _ _ _ E) as (n & _ & Hs & _).
  destruct (steps_records _ _ _ _ _ _ _ _ Hs) as (_ & _ & Et & Ev).
  specialize (Et eq_refl). specialize (Ev eq_refl).
  destruct Hw as [_ Hv Ht _ _].
  unfold last_item. rewrite Et, Ev. simpl.
  destruct (py_round_2_number _ Ht) as (r1 & -> & ?).
  destruct (py_round_2_number _ Hv) as (r2 & -> & ?).
  simpl. auto.
Qed.




(** * Facts on binary64 arithmetic *)

Local Open Scope float_scope.

Lemma SFcompare_finite_refl s m e :
  SFcompare (S754_finite s m e) (S754_finite s m e) = Some Eq.
Proof.
  simpl. rewrite Z.compare_refl, Pos.compare_cont_refl.
  destruct s; reflexivity.
Qed.

Lemma Prim2SF_eq x sf : Prim2SF x = sf -> x = SF2Prim sf.
Proof. intros <-. symmetry. apply SF2Prim_Prim2SF. Qed.

(** The tests on a float, read off its decoding. *)
Lemma float_tests x :
  match Prim2SF x with
  | S754_nan => x = nan
  | S754_zero s => x = if s then neg_zero else zero
  | S754_infinity s => x = if s then neg_infinity else infinity
  | S754_finite s m e =>
      is_nan x = false /\ is_infinity x = false /\ is_zero x = false
      /\ (x <? 0) = s /\ (0 <? x) = negb s
  end.
Proof.
  destruct (Prim2SF x) as [s | s | | s m e] eqn:E;
    try (apply Prim2SF_eq in E; subst x; destruct s; reflexivity).
  - apply Prim2SF_eq in E. exact E.
  - unfold is_nan, is_infinity, is_zero.
    rewrite !FloatAxioms.eqb_spec, !FloatAxioms.ltb_spec, abs_spec, E.
    change (Prim2SF 0) with (S754_zero false).
    change (Prim2SF infinity) with (S754_infinity false).
    unfold SFeqb, SFltb. rewrite SFcompare_finite_refl. simpl.
    destruct s; auto.
Qed.

Lemma binary_round_aux_sign s m e l :
  match binary_round_aux prec emax s m e l with
  | S754_zero s' | S754_infinity s' | S754_finite s' _ _ => s' = s
  | S754_nan => True
  end.
Proof.
  unfold binary_round_aux.
  destruct (shr_fexp prec emax m e l) as [mrs' e'].
  destruct (shr_fexp prec emax _ e' loc_Exact) as [mrs'' e''].
  destruct (shr_m mrs''); auto. destruct (_ <=? _)%Z; auto.
Qed.

Lemma binary_round_aux_plus m e l :
  plus_sign (binary_round_aux prec emax false m e l) = true.
Proof.
  pose proof (binary_round_aux_sign false m e l) as H.
  destruct (binary_round_aux prec emax false m e l); subst; reflexivity.
Qed.

Lemma SFmul_plus x y :
  plus_sign x = true -> plus_sign y = true ->
  plus_sign (SFmul prec emax x y) = true.
Proof.
  destruct x as [[] | [] | | [] mx ex]; try discriminate;
    destruct y as [[] | [] | | [] my ey]; try discriminate; intros _ _;
    try reflexivity.
  apply binary_round_aux_plus.
Qed.

Lemma SFdiv_plus x y :
  plus_sign x = true -> plus_sign y = true ->
  plus_sign (SFdiv prec emax x y) = true.
Proof.
  destruct x as [[] | [] | | [] mx ex]; try discriminate;
    destruct y as [[] | [] | | [] my ey]; try discriminate; intros _ _;
    try reflexivity.
  unfold SFdiv.
  destruct (SFdiv_core_binary prec emax (Z.pos mx) ex (Z.pos my) ey)
    as [[mz ez] lz].
  apply binary_round_aux_plus.
Qed.

Lemma mul_plus x y :
  plus_sign (Prim2SF x) = true -> plus_sign (Prim2SF y) = true ->
  plus_sign (Prim2SF (x * y)) = true.
Proof. rewrite mul_spec. apply SFmul_plus. Qed.

Lemma div_plus x y :
  plus_sign (Prim2SF x) = true -> plus_sign (Prim2SF y) = true ->
  plus_sign (Prim2SF (x / y)) = true.
Proof. rewrite div_spec. apply SFdiv_plus. Qed.

Lemma positive_plus x : pos_float x = true -> plus_sign x = true.
Proof. destruct x as [[] | [] | | [] m e]; auto. Qed.

(** On a float that is not negative, [x ** 0.5] is the square root. *)
Lemma float_pow_half_sqrt x :
  plus_sign (Prim2SF x) = true -> float_pow_half x = PyFloat (sqrt x).
Proof.
  intros H. pose proof (float_tests x) as T.
  destruct (Prim2SF x) as [[] | [] | | [] m e]; try discriminate;
    try (subst x; reflexivity).
  destruct T as (E1 & E2 & E3 & E4 & _).
  unfold float_pow_half. rewrite E1, E2, E3, E4. reflexivity.
Qed.

(** What the range checks say about a float. *)
Lemma py_gt_0_positive x :
  py_gt (PyFloat x) (PyInt 0) = Ok true -> pos_float (Prim2SF x) = true.
Proof.
  unfold py_gt, ordering. simpl. unfold float_compare_int.
  destruct (Prim2SF x) as [s | [] | | [] m e]; simpl; try discriminate; auto.
  destruct (0 <=? e)%Z eqn:He; [| discriminate ].
  assert ((- Z.pos m * 2 ^ e ?= 0)%Z = Lt) as ->; [| discriminate ].
  apply Z.compare_lt_iff, Z.mul_neg_pos; [ lia |].
  apply Z.pow_pos_nonneg; lia.
Qed.

Lemma py_ge_0_not_eq_positive x :
  py_ge (PyFloat x) (PyInt 0) = Ok true ->
  py_eq (PyFloat x) (PyInt 0) = false ->
  pos_float (Prim2SF x) = true.
Proof.
  intros H1 H2. apply py_gt_0_positive. revert H1 H2.
  unfold py_ge, py_gt, py_eq, ordering. simpl.
  destruct (float_compare_int x 0) as [[] |]; simpl; congruence.
Qed.

Lemma positive_not_zero x : pos_float (Prim2SF x) = true -> is_zero x = false.
Proof.
  intros H. pose proof (float_tests x) as T.
  destruct (Prim2SF x) as [[] | [] | | [] m e]; try discriminate.
  - subst x. reflexivity.
  - tauto.
Qed.



(** ** Mantissas and exponents *)

Local Open Scope Z_scope.

Lemma iter_xO_pow m d : Z.pos (Pos.iter xO m d) = Z.pos m * 2 ^ Z.pos d.
Proof.
  induction d as [| d IH] using Pos.peano_ind.
  - simpl. lia.
  - rewrite Pos.iter_succ, Pos2Z.inj_xO, IH, Pos2Z.inj_succ, Z.pow_succ_r by lia.
    ring.
Qed.

Lemma shl_align_value m e e' :
  e' <= e -> Z.pos (fst (shl_align m e e')) = Z.pos m * 2 ^ (e - e').
Proof.
  intros H. unfold shl_align.
  destruct (e' - e) as [| d | d] eqn:E; try lia; simpl.
  - replace (e - e') with 0 by lia. lia.
  - rewrite iter_xO_pow. f_equal. f_equal. lia.
Qed.

Lemma digits2_pos_bounds m :
  2 ^ (Z.pos (digits2_pos m) - 1) <= Z.pos m < 2 ^ Z.pos (digits2_pos m).
Proof.
  induction m as [m IH | m IH |]; simpl digits2_pos.
  - rewrite Pos2Z.inj_succ, Z.pow_succ_r by lia.
    replace (Z.succ (Z.pos (digits2_pos m)) - 1)
      with (Z.succ (Z.pos (digits2_pos m) - 1)) by lia.
    rewrite Z.pow_succ_r by lia. lia.
  - rewrite Pos2Z.inj_succ, Z.pow_succ_r by lia.
    replace (Z.succ (Z.pos (digits2_pos m)) - 1)
      with (Z.succ (Z.pos (digits2_pos m) - 1)) by lia.
    rewrite Z.pow_succ_r by lia. lia.
  - simpl. lia.
Qed.

(** What validity says of a finite binary64 number: at most 53 digits, an
    exponent between -1074 and 971, and 53 digits exactly above the least
    exponent. *)
Lemma bounded_inv m e :
  bounded prec emax m e = true ->
  -1074 <= e <= 971
  /\ Z.pos m < 2 ^ 53
  /\ (-1074 < e -> 2 ^ 52 <= Z.pos m).
Proof.
  unfold bounded, canonical_mantissa, fexp, SpecFloat.emin, prec, emax.
  intros H. apply andb_prop in H as [H1 H2].
  apply Z.eqb_eq in H1. apply Z.leb_le in H2.
  pose proof (digits2_pos_bounds m) as [B1 B2].
  assert (Hd : Z.pos (digits2_pos m) <= 53) by lia.
  repeat split; try lia.
  - eapply Z.lt_le_trans; [ exact B2 |]. apply Z.pow_le_mono_r; lia.
  - intros He. assert (Z.pos (digits2_pos m) = 53) as E by lia.
    rewrite E in B1. exact B1.
Qed.

(** On valid positive numbers the comparison is the comparison of the
    values. *)
Lemma SFcompare_le_aligned mx ex my ey :
  bounded prec emax mx ex = true -> bounded prec emax my ey = true ->
  SFleb (S754_finite false mx ex) (S754_finite false my ey) = true ->
  Z.pos (fst (shl_align mx ex (Z.min ex ey)))
  <= Z.pos (fst (shl_align my ey (Z.min ex ey))).
Proof.
  intros Bx By. apply bounded_inv in Bx as (Ex & Mx & _).
  apply bounded_inv in By as (Ey & _ & My).
  rewrite !shl_align_value by lia.
  unfold SFleb, SFcompare.
  destruct (ex ?= ey) eqn:E.
  - apply Z.compare_eq in E. subst ey. rewrite Z.min_id, Z.sub_diag.
    rewrite Pos.compare_cont_spec. simpl Pos.switch_Eq. rewrite !Z.mul_1_r.
    destruct (mx ?= my)%positive eqn:Em; try discriminate; intros _.
    + apply Pos.compare_eq in Em. subst. lia.
    + change (mx < my)%positive in Em. lia.
  - intros _. change (ex < ey) in E.
    rewrite Z.min_l, Z.sub_diag, Z.pow_0_r, Z.mul_1_r by lia.
    assert (2 ^ 1 <= 2 ^ (ey - ex)) by (apply Z.pow_le_mono_r; lia).
    specialize (My ltac:(lia)). nia.
  - discriminate.
Qed.

Lemma binary_round_sign s m e :
  match binary_round prec emax s m e with
  | S754_zero s' | S754_infinity s' | S754_finite s' _ _ => s' = s
  | S754_nan => True
  end.
Proof.
  unfold binary_round. destruct (shl_align _ _ _) as [mz ez].
  apply binary_round_aux_sign.
Qed.

Lemma binary_normalize_not_positive d e :
  d <= 0 ->
  SFltb (S754_zero false) (binary_normalize prec emax d e false) = false.
Proof.
  intros H. destruct d as [| d | d]; try lia; simpl; [ reflexivity |].
  pose proof (binary_round_sign true d e) as S.
  destruct (binary_round prec emax true d e); subst; reflexivity.
Qed.

Local Open Scope float_scope.

(** Taking away at least as much as there is leaves nothing positive. *)
Lemma sub_not_positive x y :
  (0 <? x) = true -> (x <=? y) = true -> (0 <? x - y) = false.
Proof.
  rewrite !FloatAxioms.ltb_spec, FloatAxioms.leb_spec, sub_spec.
  change (Prim2SF 0) with (S754_zero false).
  pose proof (Prim2SF_valid x) as Vx. pose proof (Prim2SF_valid y) as Vy.
  destruct (Prim2SF x) as [sx | [] | | [] mx ex]; try discriminate; intros _;
    destruct (Prim2SF y) as [sy | [] | | [] my ey]; try discriminate;
    intros Hle; try reflexivity.
  unfold SF64sub, SFsub. apply binary_normalize_not_positive.
  pose proof (SFcompare_le_aligned mx ex my ey Vx Vy Hle). simpl. lia.
Qed.

(** ** Arithmetic with zero *)

Lemma is_finite_cases x :
  is_finite x = true ->
  match Prim2SF x with
  | S754_zero _ | S754_finite _ _ _ => True
  | _ => False
  end.
Proof.
  pose proof (float_tests x) as T.
  destruct (Prim2SF x) as [s | [] | | s m e]; auto; subst x; discriminate.
Qed.

Lemma mul_finite_0 x :
  is_finite x = true -> is_zero_float (Prim2SF (x * 0)) = true.
Proof.
  intros H. apply is_finite_cases in H. rewrite mul_spec.
  change (Prim2SF 0) with (S754_zero false).
  destruct (Prim2SF x); try contradiction; reflexivity.
Qed.

Lemma div_0_positive z m :
  is_zero_float (Prim2SF z) = true -> pos_float (Prim2SF m) = true ->
  is_zero_float (Prim2SF (z / m)) = true.
Proof.
  rewrite div_spec.
  destruct (Prim2SF z); try discriminate;
    destruct (Prim2SF m) as [| [] | | [] ? ?]; try discriminate; reflexivity.
Qed.

Lemma sub_positive_0 g z :
  pos_float (Prim2SF g) = true -> is_zero_float (Prim2SF z) = true ->
  g - z = g.
Proof.
  intros Hg Hz. apply Prim2SF_inj. rewrite sub_spec.
  destruct (Prim2SF g) as [| [] | | [] ? ?]; try discriminate;
    destruct (Prim2SF z); try discriminate; reflexivity.
Qed.

Lemma add_0_plus y : plus_sign (Prim2SF y) = true -> 0 + y = y.
Proof.
  intros Hy. apply Prim2SF_inj. rewrite add_spec.
  change (Prim2SF 0) with (S754_zero false).
  destruct (Prim2SF y) as [[] | [] | | [] ? ?]; try discriminate; reflexivity.
Qed.

(** The loop condition on a float. *)
Lemma py_gt_0_ltb x : py_gt (PyFloat x) (PyInt 0) = Ok (0 <? x).
Proof.
  unfold py_gt, ordering. simpl. f_equal. unfold float_compare_int.
  rewrite FloatAxioms.ltb_spec. change (Prim2SF 0) with (S754_zero false).
  destruct (Prim2SF x) as [s | [] | | s m e]; try reflexivity.
  destruct (0 <=? e)%Z eqn:He; destruct s; simpl; try reflexivity.
  - assert ((- Z.pos m * 2 ^ e ?= 0)%Z = Lt) as ->; [| reflexivity ].
    apply Z.compare_lt_iff, Z.mul_neg_pos; [ lia |].
    apply Z.pow_pos_nonneg; lia.
  - assert ((Z.pos m * 2 ^ e ?= 0)%Z = Gt) as ->; [| reflexivity ].
    apply Z.compare_gt_iff, Z.mul_pos_pos; [ lia |].
    apply Z.pow_pos_nonneg; lia.
Qed.


(** * The first pass of the loop *)

(** The first pass on an instance whose fields are floats, when the drag
    factor [0.5*C*p*A] is finite: nothing is lost to drag at speed zero, the
    speed becomes [g*0.01] and the height drops by [g*0.01*0.01]. *)
Lemma first_pass m A C p g h :
  invariants (PyFloat m) (PyFloat A) (PyFloat C) (PyFloat p) (PyFloat g) ->
  is_finite (0.5 * C * p * A) = true ->
  body (PyFloat m) (PyFloat A) (PyFloat C) (PyFloat p) (PyFloat g)
    (initial (PyFloat h))
  = Ok {| height := PyFloat (h - g * 0.01 * 0.01);
          v := PyFloat (g * 0.01);
          t := PyFloat 0.01;
          time_vector := [PyInt 0; PyFloat 0.01];
          speed_vector := [PyInt 0; PyFloat (g * 0.01)] |}.
Proof.
  intros [Im _ Ig _ _ _] HK.
  apply py_gt_0_positive in Im, Ig.
  pose proof (mul_finite_0 _ HK) as Z1.
  pose proof (div_0_positive _ _ Z1 Im) as Z2.
  unfold body, initial, step. simpl.
  unfold py_truediv. simpl. rewrite (positive_not_zero _ Im). simpl.
  change zero with 0 in *.
  rewrite (sub_positive_0 _ _ Ig Z2).
  rewrite add_0_plus; [ reflexivity |].
  apply mul_plus; [ apply positive_plus, Ig | reflexivity ].
Qed.

(** One pass of the loop costs one unit of fuel. *)
Lemma while_loop_pass self m A C p g fuel s s1 :
  has_fields self m A C p g ->
  falling s = Ok true -> body m A C p g s = Ok s1 ->
  while_loop (S fuel) s self = while_loop fuel s1 self.
Proof.
  intros Hf F Hb. simpl. rewrite bind_lift. fold (falling s). rewrite F.
  unfold bind at 1. rewrite (loop_body_body _ _ _ _ _ _ _ Hf), Hb.
  reflexivity.
Qed.

(** With too little fuel the loop gives no answer. *)
Lemma while_loop_short self m A C p g :
  has_fields self m A C p g ->
  forall n fuel s s',
    lands_after m A C p g s n s' -> (fuel < n)%nat ->
    while_loop fuel s self = (OutOfFuel, self).
Proof.
  intros Hf. induction n as [| n IH]; intros fuel s s' Hl Hlt; [ lia |].
  apply lands_after_inv in Hl as (F & s1 & Hb & Hl).
  destruct fuel as [| fuel]; simpl; rewrite bind_lift; fold (falling s);
    rewrite F; [ reflexivity |].
  unfold bind at 1. rewrite (loop_body_body _ _ _ _ _ _ _ Hf), Hb.
  apply (IH _ _ _ Hl). lia.
Qed.

(** The two queries at the step where the loop lands. *)
Lemma queries_at_landing self m A C p g h n s fuel :
  has_fields self m A C p g ->
  positive_number h ->
  lands_after m A C p g (initial h) n s ->
  ((n <= fuel)%nat ->
   result_of (air_time fuel h self) = py_round_2 (t s)
   /\ result_of (landing_speed fuel h self) = py_round_2 (v s))
  /\ ((fuel < n)%nat ->
      result_of (air_time fuel h self) = OutOfFuel
      /\ result_of (landing_speed fuel h self) = OutOfFuel).
Proof.
  intros Hf Hh Hl.
  rewrite (air_time_unfold _ _ _ Hh), (landing_speed_unfold _ _ _ Hh).
  unfold _calculator, result_of. fold (initial h). unfold bind.
  split; intros Hn.
  - rewrite (lands_while_loop _ _ _ _ _ _ Hf _ _ _ _ Hl Hn). simpl.
    destruct Hl as (Hs & _).
    destruct (steps_records _ _ _ _ _ _ _ _ Hs) as (_ & _ & Et & Ev).
    unfold last_item. rewrite (Et eq_refl), (Ev eq_refl). auto.
  - rewrite (while_loop_short _ _ _ _ _ _ Hf _ _ _ _ Hl Hn). auto.
Qed.

(** * Terminal velocity *)

Lemma terminal_None self m A C p g :
  has_fields self m A C p g ->
  py_eq p (PyInt 0) = true ->
  terminal self = (Ok PyNone, self).
Proof.
  intros [_ _ _ Hp _] E. unfold terminal.
  rewrite (bind_getattr _ _ _ _ Hp), E. reflexivity.
Qed.


Lemma valid_model_of m A C p g :
  invariants m A C p g -> valid_model (model_of m A C p g).
Proof. intros H. exists m, A, C, p, g. split; [ apply has_fields_new | exact H ]. Qed.

Ltac by_evaluation := vm_compute; reflexivity.



(** * Falling in vacuum *)



Local Open Scope Z_scope.

(** * Rounding to binary64 *)

(** ** Shifting a mantissa to the right *)

Lemma iter_pos_nat {A} (f : A -> A) (p : positive) (x : A) :
  SpecFloat.iter_pos f p x = Nat.iter (Pos.to_nat p) f x.
Proof.
  revert x. induction p as [p IH | p IH |]; intros x; simpl SpecFloat.iter_pos.
  - rewrite !IH, Pos2Nat.inj_xI.
    replace (S (2 * Pos.to_nat p)) with (Pos.to_nat p + (Pos.to_nat p + 1))%nat
      by lia.
    rewrite !Nat.iter_add. reflexivity.
  - rewrite !IH, Pos2Nat.inj_xO.
    replace (2 * Pos.to_nat p)%nat with (Pos.to_nat p + Pos.to_nat p)%nat by lia.
    rewrite Nat.iter_add. reflexivity.
  - reflexivity.
Qed.

Lemma shr_1_spec m r s :
  0 <= m ->
  shr_1 {| shr_m := m; shr_r := r; shr_s := s |}
  = {| shr_m := m / 2; shr_r := Z.odd m; shr_s := r || s |}.
Proof.
  intros H. destruct m as [| [p | p |] | p]; try lia; simpl shr_1.
  - reflexivity.
  - f_equal. rewrite Pos2Z.inj_xI.
    apply Z.div_unique with (r := 1); lia.
  - f_equal. rewrite Pos2Z.inj_xO.
    apply Z.div_unique with (r := 0); lia.
  - reflexivity.
Qed.

Lemma iter_shr_1_bits m r0 s0 k :
  0 <= m ->
  Nat.iter (S k) shr_1 {| shr_m := m; shr_r := r0; shr_s := s0 |}
  = {| shr_m := m / 2 ^ Z.of_nat (S k);
       shr_r := Z.odd (m / 2 ^ Z.of_nat k);
       shr_s := negb (m mod 2 ^ Z.of_nat k =? 0) || (r0 || s0) |}.
Proof.
  intros Hm. induction k as [| k IH].
  - change (Nat.iter 1 shr_1 ?x) with (shr_1 x). rewrite shr_1_spec by lia.
    change (2 ^ Z.of_nat 1) with 2. change (2 ^ Z.of_nat 0) with 1.
    rewrite Z.div_1_r, Z.mod_1_r. reflexivity.
  - change (Nat.iter (S (S k)) shr_1 ?x) with (shr_1 (Nat.iter (S k) shr_1 x)).
    rewrite IH.
    assert (P : 0 < 2 ^ Z.of_nat k) by (apply Z.pow_pos_nonneg; lia).
    assert (E1 : 2 ^ Z.of_nat (S k) = 2 ^ Z.of_nat k * 2)
      by (rewrite Nat2Z.inj_succ, Z.pow_succ_r; lia).
    assert (E2 : 2 ^ Z.of_nat (S (S k)) = 2 ^ Z.of_nat (S k) * 2)
      by (rewrite (Nat2Z.inj_succ (S k)), Z.pow_succ_r; lia).
    rewrite shr_1_spec by (apply Z.div_pos; lia).
    f_equal.
    + rewrite E2, Z.div_div by lia. reflexivity.
    + rewrite E1, Z.rem_mul_r by lia.
      pose proof (Z.mod_pos_bound m (2 ^ Z.of_nat k) P) as B.
      rewrite (Zmod_odd (m / 2 ^ Z.of_nat k)).
      destruct (Z.odd (m / 2 ^ Z.of_nat k)); simpl orb.
      * symmetry. rewrite orb_true_iff. left.
        apply negb_true_iff, Z.eqb_neq. lia.
      * rewrite Z.mul_0_r, Z.add_0_r. reflexivity.
Qed.

(** ** Division with rounding to nearest, ties to even *)

Lemma div_half_even_bounds a b :
  0 < b -> a / b <= div_half_even a b <= a / b + 1.
Proof.
  intros Hb. unfold div_half_even.
  destruct (2 * (a mod b) ?= b); [ destruct (Z.even (a / b)) | |]; lia.
Qed.

Lemma div_half_even_exact a b : 0 < b -> div_half_even (a * b) b = a.
Proof.
  intros Hb. unfold div_half_even.
  rewrite Z.mod_mul, Z.div_mul by lia.
  change (2 * 0) with 0. 
  destruct (0 ?= b) eqn:E; try reflexivity.
  - apply Z.compare_eq in E. lia.
  - change (0 > b) in E. lia.
Qed.

Lemma div_half_even_scale a b c :
  0 < b -> 0 < c -> div_half_even (a * c) (b * c) = div_half_even a b.
Proof.
  intros Hb Hc. unfold div_half_even.
  rewrite Z.div_mul_cancel_r, Z.mul_mod_distr_r by lia.
  replace (2 * (a mod b * c)) with (2 * (a mod b) * c) by ring.
  rewrite <- Zmult_compare_compat_r by lia. reflexivity.
Qed.

Lemma div_half_even_mono a1 a2 b :
  0 < b -> a1 <= a2 -> div_half_even a1 b <= div_half_even a2 b.
Proof.
  intros Hb Ha.
  pose proof (Z.div_le_mono a1 a2 b Hb Ha) as Hq.
  destruct (Z.eq_dec (a1 / b) (a2 / b)) as [E | N].
  - unfold div_half_even. rewrite <- E.
    assert (a1 mod b <= a2 mod b).
    { rewrite !Z.mod_eq by lia. rewrite <- E. lia. }
    destruct (2 * (a1 mod b) ?= b) eqn:C1;
      destruct (2 * (a2 mod b) ?= b) eqn:C2;
      destruct (Z.even (a1 / b));
      try lia;
      try (apply Z.compare_eq in C1); try (apply Z.compare_eq in C2);
      try (change (2 * (a1 mod b) < b) in C1);
      try (change (2 * (a1 mod b) > b) in C1);
      try (change (2 * (a2 mod b) < b) in C2);
      try (change (2 * (a2 mod b) > b) in C2); lia.
  - pose proof (div_half_even_bounds a1 b Hb).
    pose proof (div_half_even_bounds a2 b Hb). lia.
Qed.

(** ** Rounding after a shift *)

Lemma Zdigits2_log2 x : 0 < x -> Zdigits2 x = Z.log2 x + 1.
Proof.
  intros H. destruct x as [| p | p]; try lia. simpl Zdigits2.
  pose proof (digits2_pos_bounds p) as [B1 B2].
  symmetry. apply Z.add_move_r, Z.log2_unique; [ lia |].
  replace (Z.succ (Z.pos (digits2_pos p) - 1)) with (Z.pos (digits2_pos p))
    by lia.
  lia.
Qed.

Lemma log2_bounds x : 0 < x -> 2 ^ Z.log2 x <= x < 2 ^ (Z.log2 x + 1).
Proof. intros H. apply Z.log2_spec in H. exact H. Qed.

Lemma fexp_64 x : fexp prec emax x = Z.max (x - 53) (-1074).
Proof. reflexivity. Qed.

Lemma shr_0 mrs e n : n <= 0 -> shr mrs e n = (mrs, e).
Proof. intros H. destruct n; try lia; reflexivity. Qed.

(** The record of a quotient [m] with remainder [r] out of [b]. *)
Lemma record_of_remainder m b r :
  0 <= r < b -> Z.even b = true ->
  exists r0 s0,
    shr_record_of_loc m (new_location b r)
    = {| shr_m := m; shr_r := r0; shr_s := s0 |}
    /\ r0 || s0 = negb (r =? 0)
    /\ round_nearest_even m (loc_of_shr_record
                               {| shr_m := m; shr_r := r0; shr_s := s0 |})
       = div_half_even (m * b + r) b.
Proof.
  intros Hr Hb. unfold new_location. rewrite Hb. unfold new_location_even.
  assert (Q : (m * b + r) / b = m)
    by (symmetry; apply Z.div_unique with (r := r); lia).
  assert (R : (m * b + r) mod b = r)
    by (symmetry; apply Z.mod_unique with (q := m); lia).
  unfold div_half_even. rewrite Q, R.
  destruct (Z.eqb_spec r 0) as [-> | N].
  - exists false, false. repeat split.
    change (2 * 0) with 0.
    assert (C0 : (0 ?= b) = Lt) by (apply Z.compare_lt_iff; lia).
    rewrite C0. reflexivity.
  - destruct (2 * r ?= b).
    + exists true, false. repeat split.
    + exists false, true. repeat split.
    + exists true, true. repeat split.
Qed.

(** The rounded mantissa after at least one shift. *)
Lemma round_shifted_remainder m b r k :
  0 <= m -> 0 <= r < b -> Z.even b = true ->
  let mrs := Nat.iter (S k) shr_1 (shr_record_of_loc m (new_location b r)) in
  round_nearest_even (shr_m mrs) (loc_of_shr_record mrs)
  = div_half_even (m * b + r) (b * 2 ^ Z.of_nat (S k)).
Proof.
  intros Hm Hr Hb mrs. subst mrs.
  destruct (record_of_remainder m b r Hr Hb) as (r0 & s0 & -> & Hbits & _).
  rewrite iter_shr_1_bits by lia. rewrite Hbits.
  assert (P : 0 < 2 ^ Z.of_nat k) by (apply Z.pow_pos_nonneg; lia).
  assert (E1 : 2 ^ Z.of_nat (S k) = 2 ^ Z.of_nat k * 2)
    by (rewrite Nat2Z.inj_succ, Z.pow_succ_r; lia).
  assert (Q : (m * b + r) / b = m)
    by (symmetry; apply Z.div_unique with (r := r); lia).
  assert (R : (m * b + r) mod b = r)
    by (symmetry; apply Z.mod_unique with (q := m); lia).
  unfold div_half_even.
  rewrite <- Z.div_div, Q by lia.
  rewrite Z.rem_mul_r, Q, R by lia.
  rewrite E1 at 2 3. rewrite Z.rem_mul_r by lia.
  pose proof (Z.mod_pos_bound m (2 ^ Z.of_nat k) P) as B.
  rewrite (Zmod_odd (m / 2 ^ Z.of_nat k)).
  set (l := m mod 2 ^ Z.of_nat k) in *. set (T := 2 ^ Z.of_nat k) in *.
  assert (B' : r + b * l < b * T) by nia.
  assert (B'' : 0 <= b * l) by nia.
  simpl shr_m. unfold loc_of_shr_record. cbn [shr_r shr_s].
  destruct (Z.odd (m / T));
    destruct (Z.eqb_spec l 0) as [L0 | L0];
    destruct (Z.eqb_spec r 0) as [R0 | R0]; simpl negb; simpl orb;
    simpl round_nearest_even;
    match goal with
    | |- context [?x ?= ?y] => destruct (Z.compare_spec x y)
    end; try reflexivity; try nia.
Qed.

Lemma shr_remainder m b r e n :
  0 <= m -> 0 <= r < b -> Z.even b = true -> 0 <= n ->
  exists mrs,
    shr (shr_record_of_loc m (new_location b r)) e n = (mrs, e + n)
    /\ round_nearest_even (shr_m mrs) (loc_of_shr_record mrs)
       = div_half_even (m * b + r) (b * 2 ^ n).
Proof.
  intros Hm Hr Hb Hn. destruct n as [| p | p]; try lia.
  - rewrite shr_0 by lia. eexists. split; [ f_equal; lia |].
    destruct (record_of_remainder m b r Hr Hb) as (r0 & s0 & -> & _ & E).
    simpl shr_m. rewrite E, Z.pow_0_r, Z.mul_1_r. reflexivity.
  - unfold shr. rewrite iter_pos_nat.
    destruct (Pos2Nat.is_succ p) as [k Ek]. rewrite Ek.
    assert (Z.pos p = Z.of_nat (S k)) as -> by lia.
    eexists. split; [ reflexivity |].
    apply round_shifted_remainder; assumption.
Qed.

(** ** The rounding function *)

Lemma round_q_scale s a b c :
  0 < b -> 0 < c -> round_q s (a * c) (b * c) = round_q s a b.
Proof.
  intros Hb Hc. unfold round_q.
  rewrite Z.div_mul_cancel_r by lia.
  set (n := Z.max (Z.log2 (a / b) + 1 - 53) 0).
  assert (P : 0 < 2 ^ n) by (apply Z.pow_pos_nonneg; unfold n; lia).
  replace (b * c * 2 ^ n) with (b * 2 ^ n * c) by ring.
  rewrite div_half_even_scale by lia. reflexivity.
Qed.

(** The exponent [round_q] chooses, from the number of digits of the
    quotient. *)
Lemma quotient_digits a b D :
  0 <= a -> 0 < b ->
  (1 <= D -> 2 ^ (D - 1) * b <= a) -> a < 2 ^ Z.max D 0 * b ->
  Z.max (Z.log2 (a / b) + 1 - 53) 0 = Z.max (D - 53) 0.
Proof.
  intros Ha Hb L U. destruct (Z_le_gt_dec 1 D) as [HD | HD].
  - specialize (L HD). rewrite Z.max_l in U by lia.
    assert (0 < 2 ^ (D - 1)) by (apply Z.pow_pos_nonneg; lia).
    assert (2 ^ (D - 1) <= a / b) by (apply Z.div_le_lower_bound; lia).
    assert (a / b < 2 ^ D) by (apply Z.div_lt_upper_bound; lia).
    rewrite (Z.log2_unique (a / b) (D - 1)); try lia.
    replace (Z.succ (D - 1)) with D by lia. lia.
  - rewrite Z.max_r in U by lia. change (2 ^ 0) with 1 in U.
    rewrite Z.div_small by lia. change (Z.log2 0) with 0. lia.
Qed.

(** Rounding the quotient [m + r / b] at exponent [e]; [k] only scales
    numerator and denominator so that both are integers. *)
Lemma binary_round_aux_q s m e b r k :
  0 < m -> 0 <= r < b -> Z.even b = true ->
  e <= fexp prec emax (Zdigits2 m + e) -> 1074 <= k -> 0 <= e + k ->
  binary_round_aux prec emax s m e (new_location b r)
  = round_q s ((m * b + r) * 2 ^ (e + k)) (b * 2 ^ (k - 1074)).
Proof.
  intros Hm Hr Hb Hfe Hk Hek. rewrite fexp_64 in Hfe.
  pose proof (Zdigits2_log2 m Hm) as Hd.
  pose proof (log2_bounds m Hm) as [D1 D2].
  pose proof (Z.log2_nonneg m) as D0.
  set (d := Zdigits2 m) in *.
  replace (Z.log2 m) with (d - 1) in D1, D2 by lia.
  replace (d - 1 + 1) with d in D2 by lia.
  set (fe := Z.max (d + e - 53) (-1074)) in *.
  set (M := m * b + r).
  assert (P : 0 < 2 ^ (e + k)) by (apply Z.pow_pos_nonneg; lia).
  assert (P' : 0 < 2 ^ (k - 1074)) by (apply Z.pow_pos_nonneg; lia).
  assert (Pj : 0 < 2 ^ (fe - e)) by (apply Z.pow_pos_nonneg; lia).
  assert (HM : m * b <= M < (m + 1) * b) by (unfold M; nia).
  assert (HM0 : 0 < M) by nia.
  (* the spec side *)
  assert (Hn : Z.max (Z.log2 (M * 2 ^ (e + k) / (b * 2 ^ (k - 1074))) + 1 - 53) 0
               = fe + 1074).
  { rewrite (quotient_digits _ _ (d + e + 1074));
      [ unfold fe; lia | apply Z.mul_nonneg_nonneg; lia
      | apply Z.mul_pos_pos; lia | |].
    - intros HD.
      replace (2 ^ (d + e + 1074 - 1) * (b * 2 ^ (k - 1074)))
        with (2 ^ (d - 1) * b * 2 ^ (e + k)).
      + apply Z.mul_le_mono_nonneg_r; [ lia |].
        transitivity (m * b); [ apply Z.mul_le_mono_nonneg_r; lia | lia ].
      + transitivity (b * 2 ^ ((d - 1) + (e + k))).
        * rewrite (Z.pow_add_r 2 (d - 1) (e + k)) by lia. ring.
        * replace (d - 1 + (e + k)) with ((d + e + 1074 - 1) + (k - 1074))
            by lia.
          rewrite (Z.pow_add_r 2 (d + e + 1074 - 1) (k - 1074)) by lia. ring.
    - destruct (Z_le_gt_dec 0 (d + e + 1074)) as [HD | HD].
      + rewrite Z.max_l by lia.
        replace (2 ^ (d + e + 1074) * (b * 2 ^ (k - 1074)))
          with (2 ^ d * b * 2 ^ (e + k)).
        * apply Z.mul_lt_mono_pos_r; [ lia |].
          apply Z.lt_le_trans with ((m + 1) * b);
            [ lia | apply Z.mul_le_mono_nonneg_r; lia ].
        * transitivity (b * 2 ^ (d + (e + k))).
          -- rewrite (Z.pow_add_r 2 d (e + k)) by lia. ring.
          -- replace (d + (e + k)) with ((d + e + 1074) + (k - 1074)) by lia.
             rewrite (Z.pow_add_r 2 (d + e + 1074) (k - 1074)) by lia. ring.
      + rewrite Z.max_r by lia. change (2 ^ 0) with 1.
        replace (k - 1074) with ((- (d + e + 1074)) + (d + (e + k))) by lia.
        rewrite (Z.pow_add_r 2 (- (d + e + 1074)) (d + (e + k))) by lia.
        rewrite (Z.pow_add_r 2 d (e + k)) by lia.
        assert (1 <= 2 ^ (- (d + e + 1074)))
          by (change 1 with (2 ^ 0); apply Z.pow_le_mono_r; lia).
        assert (M < 2 ^ d * b).
        { apply Z.lt_le_trans with ((m + 1) * b);
            [ lia | apply Z.mul_le_mono_nonneg_r; lia ]. }
        assert (M * 2 ^ (e + k) < 2 ^ d * b * 2 ^ (e + k))
          by (apply Z.mul_lt_mono_pos_r; lia).
        set (X := 2 ^ d * b * 2 ^ (e + k)) in *.
        replace (b * (2 ^ (- (d + e + 1074)) * (2 ^ d * 2 ^ (e + k))))
          with (2 ^ (- (d + e + 1074)) * X) by (unfold X; ring).
        nia. }
  unfold round_q. rewrite Hn.
  assert (Hq : div_half_even (M * 2 ^ (e + k))
                 (b * 2 ^ (k - 1074) * 2 ^ (fe + 1074))
               = div_half_even M (b * 2 ^ (fe - e))).
  { replace (b * 2 ^ (k - 1074) * 2 ^ (fe + 1074))
      with (b * 2 ^ (fe - e) * 2 ^ (e + k)).
    - apply div_half_even_scale; nia.
    - rewrite <- !Z.mul_assoc, <- !Z.pow_add_r by lia.
      f_equal. f_equal. lia. }
  rewrite Hq.
  (* the code side *)
  unfold binary_round_aux, shr_fexp. rewrite fexp_64. fold d. fold fe.
  destruct (shr_remainder m b r e (fe - e) ltac:(lia) Hr Hb ltac:(lia))
    as (mrs & -> & ->).
  fold M. replace (e + (fe - e)) with fe by lia.
  set (q := div_half_even M (b * 2 ^ (fe - e))) in *.
  assert (Q : 0 <= q <= 2 ^ 53).
  { pose proof (div_half_even_bounds M (b * 2 ^ (fe - e)) ltac:(nia)) as B.
    fold q in B.
    assert (0 <= M / (b * 2 ^ (fe - e))) by (apply Z.div_pos; nia).
    assert (M / (b * 2 ^ (fe - e)) < 2 ^ 53); [| lia ].
    apply Z.div_lt_upper_bound; [ nia |].
    assert (2 ^ d <= 2 ^ (fe - e) * 2 ^ 53).
    { rewrite <- Z.pow_add_r by lia. apply Z.pow_le_mono_r; lia. }
    nia. }
  rewrite fexp_64. cbn [shr_record_of_loc].
  destruct (Z.eqb_spec q (2 ^ 53)) as [Eq | Nq].
  - rewrite Eq. change (Zdigits2 (2 ^ 53)) with 54.
    replace (Z.max (54 + fe - 53) (-1074) - fe) with 1 by lia.
    change (shr {| shr_m := 2 ^ 53; shr_r := false; shr_s := false |} fe 1)
      with ({| shr_m := 2 ^ 52; shr_r := false; shr_s := false |}, fe + 1).
    simpl shr_m.
    replace (fe + 1074 + 1 - 1074) with (fe + 1) by lia. reflexivity.
  - assert (Dq : Zdigits2 q <= 53).
    { destruct (Z.eq_dec q 0) as [-> | N0]; [ simpl; lia |].
      rewrite Zdigits2_log2 by lia.
      assert (Z.log2 q < 53); [| lia ].
      apply Z.log2_lt_pow2; lia. }
    rewrite shr_0 by lia. simpl shr_m.
    replace (fe + 1074 - 1074) with fe by lia.
    destruct q as [| pq | pq]; try lia; reflexivity.
Qed.

(** Rounding a mantissa that sits at or below its target exponent. *)
Lemma binary_round_aux_spec s m e :
  -1074 <= e ->
  e <= fexp prec emax (Z.pos (digits2_pos m) + e) ->
  binary_round_aux prec emax s (Z.pos m) e loc_Exact
  = round_spec s (Z.pos m * 2 ^ (e + 1074)).
Proof.
  intros He Hfe.
  change loc_Exact with (new_location 2 0).
  rewrite (binary_round_aux_q s (Z.pos m) e 2 0 1074);
    try lia; try reflexivity; [| exact Hfe ].
  change (2 ^ (1074 - 1074)) with 1. rewrite Z.add_0_r.
  replace (Z.pos m * 2 * 2 ^ (e + 1074)) with (Z.pos m * 2 ^ (e + 1074) * 2)
    by ring.
  replace (2 * 1) with (1 * 2) by ring.
  apply round_q_scale; lia.
Qed.

Lemma shl_align_le m e e' :
  e' <= e ->
  exists mz, shl_align m e e' = (mz, e')
             /\ Z.pos mz = Z.pos m * 2 ^ (e - e').
Proof.
  intros H. pose proof (shl_align_value m e e' H) as V.
  unfold shl_align in *.
  destruct (e' - e) as [| d | d] eqn:E; try lia; simpl in V |- *.
  - assert (e = e') as -> by lia. eauto.
  - eauto.
Qed.

Lemma shl_align_ge m e e' : e <= e' -> shl_align m e e' = (m, e).
Proof.
  intros H. unfold shl_align. destruct (e' - e) eqn:E; try lia; reflexivity.
Qed.

Lemma digits2_pos_shift m mz k :
  0 <= k -> Z.pos mz = Z.pos m * 2 ^ k ->
  Z.pos (digits2_pos mz) = Z.pos (digits2_pos m) + k.
Proof.
  intros Hk E.
  pose proof (Zdigits2_log2 (Z.pos mz) ltac:(lia)) as L1.
  pose proof (Zdigits2_log2 (Z.pos m) ltac:(lia)) as L2.
  simpl Zdigits2 in L1, L2. rewrite L1, L2, E.
  rewrite Z.log2_mul_pow2 by lia. lia.
Qed.

(** Rounding a mantissa at any exponent from -1074 up. *)
Lemma binary_round_spec s m e :
  -1074 <= e ->
  binary_round prec emax s m e = round_spec s (Z.pos m * 2 ^ (e + 1074)).
Proof.
  intros He. unfold binary_round. rewrite fexp_64.
  set (fe := Z.max (Z.pos (digits2_pos m) + e - 53) (-1074)).
  destruct (Z_le_gt_dec e fe) as [L | G].
  - rewrite shl_align_ge by lia.
    apply binary_round_aux_spec; [ lia | rewrite fexp_64; fold fe; lia ].
  - destruct (shl_align_le m e fe ltac:(lia)) as (mz & -> & Emz).
    pose proof (digits2_pos_shift m mz (e - fe) ltac:(lia) Emz) as Dz.
    rewrite binary_round_aux_spec.
    + f_equal. rewrite Emz, <- Z.mul_assoc, <- Z.pow_add_r by lia.
      f_equal. f_equal. lia.
    + unfold fe. lia.
    + rewrite fexp_64, Dz. unfold fe. lia.
Qed.

Lemma binary_normalize_spec z e :
  -1074 <= e ->
  binary_normalize prec emax z e false = round_int (z * 2 ^ (e + 1074)).
Proof.
  intros He.
  assert (P : 0 < 2 ^ (e + 1074)) by (apply Z.pow_pos_nonneg; lia).
  destruct z as [| p | p]; simpl binary_normalize.
  - reflexivity.
  - rewrite binary_round_spec by lia.
    destruct (Z.pos p * 2 ^ (e + 1074)) eqn:E; try lia. reflexivity.
  - rewrite binary_round_spec by lia.
    destruct (Z.neg p * 2 ^ (e + 1074)) as [| q | q] eqn:E; try lia.
    simpl round_int. f_equal. lia.
Qed.

(** ** Values *)

(** On valid numbers, comparing exponents and then mantissas compares the
    values. *)
Lemma magnitude_compare mx ex my ey :
  bounded prec emax mx ex = true -> bounded prec emax my ey = true ->
  match ex ?= ey with
  | Lt => Lt
  | Gt => Gt
  | Eq => Pos.compare_cont Eq mx my
  end
  = (Z.pos mx * 2 ^ (ex + 1074) ?= Z.pos my * 2 ^ (ey + 1074)).
Proof.
  intros Bx By.
  apply bounded_inv in Bx as (Ex & Mx & Nx).
  apply bounded_inv in By as (Ey & My & Ny).
  assert (Px : 0 < 2 ^ (ex + 1074)) by (apply Z.pow_pos_nonneg; lia).
  assert (Py : 0 < 2 ^ (ey + 1074)) by (apply Z.pow_pos_nonneg; lia).
  destruct (Z.compare_spec ex ey) as [E | L | G].
  - subst ey. rewrite Pos.compare_cont_spec.
    rewrite <- Zmult_compare_compat_r by lia.
    change (Z.pos mx ?= Z.pos my) with (mx ?= my)%positive.
    destruct (mx ?= my)%positive; reflexivity.
  - symmetry. apply Z.compare_lt_iff.
    replace (ey + 1074) with ((ey - ex) + (ex + 1074)) by lia.
    rewrite (Z.pow_add_r 2 (ey - ex) (ex + 1074)) by lia.
    assert (2 ^ 1 <= 2 ^ (ey - ex)) by (apply Z.pow_le_mono_r; lia).
    specialize (Ny ltac:(lia)).
    change (2 ^ 53) with (2 * 2 ^ 52) in Mx. change (2 ^ 1) with 2 in *.
    assert (Z.pos mx < Z.pos my * 2 ^ (ey - ex)) by nia.
    rewrite Z.mul_assoc. apply Z.mul_lt_mono_pos_r; lia.
  - symmetry. apply Z.compare_gt_iff.
    replace (ex + 1074) with ((ex - ey) + (ey + 1074)) by lia.
    rewrite (Z.pow_add_r 2 (ex - ey) (ey + 1074)) by lia.
    assert (2 ^ 1 <= 2 ^ (ex - ey)) by (apply Z.pow_le_mono_r; lia).
    specialize (Nx ltac:(lia)).
    change (2 ^ 53) with (2 * 2 ^ 52) in My. change (2 ^ 1) with 2 in *.
    assert (Z.pos my < Z.pos mx * 2 ^ (ex - ey)) by nia.
    rewrite Z.mul_assoc. apply Z.mul_lt_mono_pos_r; lia.
Qed.

Lemma SFcompare_scaled x y :
  valid_binary x = true -> valid_binary y = true ->
  is_finite_SF x = true -> is_finite_SF y = true ->
  SFcompare x y = Some (scaled x ?= scaled y).
Proof.
  intros Vx Vy Fx Fy.
  destruct x as [sx | | | sx mx ex]; try discriminate;
    destruct y as [sy | | | sy my ey]; try discriminate;
    cbn [SFcompare scaled].
  - reflexivity.
  - assert (P : 0 < 2 ^ (ey + 1074)).
    { apply bounded_inv in Vy. apply Z.pow_pos_nonneg; lia. }
    f_equal. destruct sy; cbn [cond_Zopp]; symmetry.
    + apply Z.compare_gt_iff. nia.
    + apply Z.compare_lt_iff. nia.
  - assert (P : 0 < 2 ^ (ex + 1074)).
    { apply bounded_inv in Vx. apply Z.pow_pos_nonneg; lia. }
    f_equal. destruct sx; cbn [cond_Zopp]; symmetry.
    + apply Z.compare_lt_iff. nia.
    + apply Z.compare_gt_iff. nia.
  - pose proof (magnitude_compare mx ex my ey Vx Vy) as M.
    assert (Px : 0 < 2 ^ (ex + 1074)).
    { apply bounded_inv in Vx. apply Z.pow_pos_nonneg; lia. }
    assert (Py : 0 < 2 ^ (ey + 1074)).
    { apply bounded_inv in Vy. apply Z.pow_pos_nonneg; lia. }
    f_equal. destruct sx, sy; unfold cond_Zopp.
    + rewrite !Z.mul_opp_l, Z.compare_opp, <- (magnitude_compare my ey mx ex Vy Vx).
      rewrite (Z.compare_antisym ey ex).
      destruct (ey ?= ex); try reflexivity. simpl CompOpp.
      rewrite !Pos.compare_cont_spec, (Pos.compare_antisym my mx).
      destruct (my ?= mx)%positive; reflexivity.
    + symmetry. apply Z.compare_lt_iff. nia.
    + symmetry. apply Z.compare_gt_iff. nia.
    + exact M.
Qed.

(** ** Rounding is exact on binary64 numbers and monotone *)

Lemma round_spec_exact s m e :
  bounded prec emax m e = true ->
  round_spec s (Z.pos m * 2 ^ (e + 1074)) = S754_finite s m e.
Proof.
  intros B. pose proof B as B'. apply bounded_inv in B' as (He & Hm & _).
  rewrite <- binary_round_spec by lia.
  unfold bounded, canonical_mantissa in B.
  apply andb_prop in B as [B1 B2]. apply Z.eqb_eq in B1.
  unfold binary_round. rewrite B1, shl_align_ge by lia.
  unfold binary_round_aux, shr_fexp. cbn [shr_record_of_loc].
  change (Zdigits2 (Z.pos m)) with (Z.pos (digits2_pos m)).
  rewrite B1, Z.sub_diag, shr_0 by lia. simpl round_nearest_even.
  change (Zdigits2 (Z.pos m)) with (Z.pos (digits2_pos m)).
  rewrite B1, Z.sub_diag, shr_0 by lia. simpl shr_m.
  rewrite B2. reflexivity.
Qed.

(** The mantissa kept by [round_q]. *)
Lemma round_q_mantissa a b :
  0 <= a -> 0 < b ->
  let n := Z.max (Z.log2 (a / b) + 1 - 53) 0 in
  0 <= div_half_even a (b * 2 ^ n) <= 2 ^ 53
  /\ (0 < n -> 2 ^ 52 <= div_half_even a (b * 2 ^ n)).
Proof.
  intros Ha Hb n.
  assert (Hf : 0 <= a / b) by (apply Z.div_pos; lia).
  pose proof (Z.log2_nonneg (a / b)) as L0.
  assert (Hn : 0 <= n) by (unfold n; lia).
  assert (P : 0 < 2 ^ n) by (apply Z.pow_pos_nonneg; lia).
  pose proof (div_half_even_bounds a (b * 2 ^ n) ltac:(nia)) as [B1 B2].
  rewrite <- Z.div_div in B1, B2 by lia.
  assert (U : a / b / 2 ^ n < 2 ^ 53).
  { apply Z.div_lt_upper_bound; [ lia |].
    rewrite <- Z.pow_add_r by lia.
    destruct (Z.eq_dec (a / b) 0) as [-> | N].
    - apply Z.pow_pos_nonneg; lia.
    - pose proof (log2_bounds (a / b) ltac:(lia)) as [_ L2].
      eapply Z.lt_le_trans; [ exact L2 |].
      apply Z.pow_le_mono_r; unfold n; lia. }
  assert (L : 0 < n -> 2 ^ 52 <= a / b / 2 ^ n).
  { intros Hpos.
    assert (0 < a / b).
    { destruct (Z.eq_dec (a / b) 0) as [E | N]; [| lia ].
      unfold n in Hpos. rewrite E in Hpos. simpl in Hpos. lia. }
    pose proof (log2_bounds (a / b) ltac:(lia)) as [L1 _].
    apply Z.div_le_lower_bound; [ lia |].
    rewrite <- Z.pow_add_r by lia.
    eapply Z.le_trans; [| exact L1 ].
    apply Z.pow_le_mono_r; unfold n in *; lia. }
  assert (0 <= a / b / 2 ^ n) by (apply Z.div_pos; lia).
  split; [ lia |]. intros Hpos. specialize (L Hpos). lia.
Qed.

Lemma round_q_mono a1 a2 b :
  0 <= a1 <= a2 -> 0 < b ->
  SFleb (round_q false a1 b) (round_q false a2 b) = true.
Proof.
  intros [H1 H2] Hb.
  pose proof (round_q_mantissa a1 b H1 Hb) as (U1 & L1).
  pose proof (round_q_mantissa a2 b ltac:(lia) Hb) as (U2 & L2).
  assert (Hf : 0 <= a1 / b) by (apply Z.div_pos; lia).
  pose proof (Z.div_le_mono a1 a2 b Hb H2) as Hdiv.
  pose proof (Z.log2_le_mono _ _ Hdiv) as Hlog.
  unfold round_q.
  set (n1 := Z.max (Z.log2 (a1 / b) + 1 - 53) 0) in *.
  set (n2 := Z.max (Z.log2 (a2 / b) + 1 - 53) 0) in *.
  set (q1 := div_half_even a1 (b * 2 ^ n1)) in *.
  set (q2 := div_half_even a2 (b * 2 ^ n2)) in *.
  assert (Hn : n1 <= n2) by (unfold n1, n2; lia).
  assert (Hq : n1 = n2 -> q1 <= q2).
  { intros E. unfold q1, q2. rewrite E.
    apply div_half_even_mono; [| lia ].
    apply Z.mul_pos_pos; [ lia |]. apply Z.pow_pos_nonneg; unfold n2; lia. }
  assert (T : 0 < 2 ^ 52) by (apply Z.pow_pos_nonneg; lia).
  assert (T' : 2 ^ 53 = 2 * 2 ^ 52) by reflexivity.
  destruct (Z.eqb_spec q1 (2 ^ 53)) as [E1 | N1];
    destruct (Z.eqb_spec q2 (2 ^ 53)) as [E2 | N2];
    try change (2 ^ 52) with (Z.pos (Z.to_pos (2 ^ 52))); cbv iota;
    try (destruct q1 as [| p1 | p1] eqn:Q1; try lia);
    try (destruct q2 as [| p2 | p2] eqn:Q2; try lia);
    repeat match goal with
    | |- context [?a <=? 971] => destruct (Z.leb_spec a 971)
    end; try reflexivity; try lia;
    unfold SFleb, SFcompare;
    try (specialize (L2 ltac:(lia)); lia);
    match goal with
    | |- context [?a ?= ?b] => destruct (Z.compare_spec a b)
    end; try reflexivity; try lia;
    rewrite Pos.compare_cont_spec;
    match goal with
    | |- context [(?a ?= ?b)%positive] =>
        destruct (Pos.compare_spec a b) as [? | ? | G]
    end; try reflexivity;
    exfalso; apply Pos2Z.pos_lt_pos in G;
    try (specialize (L2 ltac:(lia))); lia.
Qed.

(** [round_q] returns binary64 numbers. *)
Lemma round_q_valid s a b :
  0 <= a -> 0 < b -> valid_binary (round_q s a b) = true.
Proof.
  intros Ha Hb. pose proof (round_q_mantissa a b Ha Hb) as (U & L).
  unfold round_q.
  set (n := Z.max (Z.log2 (a / b) + 1 - 53) 0) in *.
  set (q := div_half_even a (b * 2 ^ n)) in *.
  assert (Hn : 0 <= n) by (unfold n; lia).
  assert (V : forall p e, 0 <= e + 1074 -> e <= 971 -> Z.pos p < 2 ^ 53 ->
                (0 < e + 1074 -> 2 ^ 52 <= Z.pos p) ->
                valid_binary (S754_finite s p e) = true).
  { intros p e He He' Hp Hnorm. unfold valid_binary, bounded.
    apply andb_true_intro. split; [| apply Z.leb_le; exact He' ].
    unfold canonical_mantissa. apply Z.eqb_eq. rewrite fexp_64.
    pose proof (digits2_pos_bounds p) as [B1 B2].
    assert (D : Z.pos (digits2_pos p) <= 53).
    { destruct (Z_le_gt_dec (Z.pos (digits2_pos p)) 53); [ assumption |].
      assert (2 ^ 53 <= 2 ^ (Z.pos (digits2_pos p) - 1))
        by (apply Z.pow_le_mono_r; lia).
      lia. }
    destruct (Z.eq_dec (e + 1074) 0); [ lia |].
    specialize (Hnorm ltac:(lia)).
    assert (53 <= Z.pos (digits2_pos p)); [| lia ].
    destruct (Z_le_gt_dec 53 (Z.pos (digits2_pos p))); [ assumption |].
    assert (2 ^ Z.pos (digits2_pos p) <= 2 ^ 52)
      by (apply Z.pow_le_mono_r; lia).
    lia. }
  destruct (Z.eqb_spec q (2 ^ 53)) as [E | N].
  - change (2 ^ 52) with (Z.pos (Z.to_pos (2 ^ 52))). cbv iota.
    destruct (Z.leb_spec (n + 1 - 1074) 971); [| reflexivity ].
    apply V; try lia; reflexivity.
  - destruct q as [| p | p] eqn:Q; try lia; [ reflexivity |].
    destruct (Z.leb_spec (n - 1074) 971); [| reflexivity ].
    apply V; lia.
Qed.

Lemma round_spec_mono z1 z2 :
  0 < z1 <= z2 ->
  SFleb (round_spec false z1) (round_spec false z2) = true.
Proof. intros H. apply round_q_mono; lia. Qed.

Ltac round_q_cases :=
  unfold round_q;
  repeat match goal with
  | |- context [if ?c then _ else _] => destruct c
  | |- context [match ?q with 0 => _ | Z.pos _ => _ | Z.neg _ => _ end] =>
      destruct q
  end.

Lemma round_q_le_infinity a b :
  SFleb (round_q false a b) (S754_infinity false) = true.
Proof. round_q_cases; reflexivity. Qed.

Lemma zero_le_round_q s a b :
  SFleb (S754_zero s) (round_q false a b) = true.
Proof. round_q_cases; reflexivity. Qed.

Lemma round_q_not_positive a b :
  SFltb (S754_zero false) (round_q true a b) = false.
Proof. round_q_cases; reflexivity. Qed.

Lemma round_q_not_nan s a b : round_q s a b <> S754_nan.
Proof. round_q_cases; discriminate. Qed.

(** ** Addition and subtraction *)

Lemma round_int_exact x :
  valid_binary x = true -> is_finite_SF x = true -> scaled x <> 0 ->
  round_int (scaled x) = x.
Proof.
  intros V F N. destruct x as [| | | s m e]; try discriminate.
  - simpl in N. lia.
  - simpl in V. pose proof V as B. apply bounded_inv in B as (He & _).
    assert (P : 0 < 2 ^ (e + 1074)) by (apply Z.pow_pos_nonneg; lia).
    unfold scaled. destruct s; unfold cond_Zopp.
    + destruct (- Z.pos m * 2 ^ (e + 1074)) as [| q | q] eqn:E; try lia.
      simpl round_int. replace (Z.pos q) with (Z.pos m * 2 ^ (e + 1074)) by lia.
      apply round_spec_exact, V.
    + destruct (Z.pos m * 2 ^ (e + 1074)) as [| q | q] eqn:E; try lia.
      simpl round_int. rewrite <- E. apply round_spec_exact, V.
Qed.

Lemma aligned_sum sx mx ex sy my ey :
  -1074 <= ex -> -1074 <= ey ->
  (cond_Zopp sx (Z.pos (fst (shl_align mx ex (Z.min ex ey))))
   + cond_Zopp sy (Z.pos (fst (shl_align my ey (Z.min ex ey)))))
  * 2 ^ (Z.min ex ey + 1074)
  = scaled (S754_finite sx mx ex) + scaled (S754_finite sy my ey).
Proof.
  intros Hx Hy. rewrite !shl_align_value by lia. unfold scaled.
  set (k := Z.min ex ey).
  assert (Px : 2 ^ (ex + 1074) = 2 ^ (ex - k) * 2 ^ (k + 1074)).
  { rewrite <- Z.pow_add_r by (unfold k; lia). f_equal. lia. }
  assert (Py : 2 ^ (ey + 1074) = 2 ^ (ey - k) * 2 ^ (k + 1074)).
  { rewrite <- Z.pow_add_r by (unfold k; lia). f_equal. lia. }
  rewrite Px, Py. destruct sx, sy; unfold cond_Zopp; ring.
Qed.

Lemma scaled_opp s m e :
  scaled (S754_finite (negb s) m e) = - scaled (S754_finite s m e).
Proof. unfold scaled. destruct s; unfold cond_Zopp; simpl negb; ring. Qed.

Lemma SFadd_finite sx mx ex sy my ey :
  bounded prec emax mx ex = true -> bounded prec emax my ey = true ->
  SFadd prec emax (S754_finite sx mx ex) (S754_finite sy my ey)
  = round_int (scaled (S754_finite sx mx ex) + scaled (S754_finite sy my ey)).
Proof.
  intros Bx By.
  apply bounded_inv in Bx as (Ex & _). apply bounded_inv in By as (Ey & _).
  unfold SFadd. rewrite binary_normalize_spec by lia.
  rewrite aligned_sum by lia. reflexivity.
Qed.

Lemma SFsub_finite sx mx ex sy my ey :
  bounded prec emax mx ex = true -> bounded prec emax my ey = true ->
  SFsub prec emax (S754_finite sx mx ex) (S754_finite sy my ey)
  = round_int (scaled (S754_finite sx mx ex) - scaled (S754_finite sy my ey)).
Proof.
  intros Bx By.
  apply bounded_inv in Bx as (Ex & _). apply bounded_inv in By as (Ey & _).
  unfold SFsub. rewrite binary_normalize_spec by lia.
  pose proof (aligned_sum sx mx ex (negb sy) my ey ltac:(lia) ltac:(lia)) as S.
  rewrite scaled_opp in S. rewrite Z.add_opp_r in S. rewrite <- S.
  f_equal. f_equal. destruct sy; unfold cond_Zopp; simpl negb; lia.
Qed.

(** A subtraction of finite numbers rounds the exact difference, unless
    that difference is zero. *)
Lemma SFsub_round x y :
  valid_binary x = true -> valid_binary y = true ->
  is_finite_SF x = true -> is_finite_SF y = true ->
  if scaled x - scaled y =? 0 then is_zero_float (SFsub prec emax x y) = true
  else SFsub prec emax x y = round_int (scaled x - scaled y).
Proof.
  intros Vx Vy Fx Fy.
  destruct x as [sx | | | sx mx ex]; try discriminate;
    destruct y as [sy | | | sy my ey]; try discriminate.
  - simpl. destruct sx, sy; reflexivity.
  - assert (N : scaled (S754_finite sy my ey) <> 0).
    { simpl in Vy. apply bounded_inv in Vy as (He & _).
      assert (0 < 2 ^ (ey + 1074)) by (apply Z.pow_pos_nonneg; lia).
      unfold scaled. destruct sy; unfold cond_Zopp; nia. }
    change (scaled (S754_zero sx)) with 0. rewrite Z.sub_0_l.
    destruct (Z.eqb_spec (- scaled (S754_finite sy my ey)) 0); [ lia |].
    rewrite <- scaled_opp. simpl SFsub.
    symmetry. apply round_int_exact; auto. rewrite scaled_opp. lia.
  - assert (N : scaled (S754_finite sx mx ex) <> 0).
    { simpl in Vx. apply bounded_inv in Vx as (He & _).
      assert (0 < 2 ^ (ex + 1074)) by (apply Z.pow_pos_nonneg; lia).
      unfold scaled. destruct sx; unfold cond_Zopp; nia. }
    change (scaled (S754_zero sy)) with 0. rewrite Z.sub_0_r.
    destruct (Z.eqb_spec (scaled (S754_finite sx mx ex)) 0); [ lia |].
    simpl SFsub. symmetry. apply round_int_exact; auto.
  - rewrite SFsub_finite by assumption.
    destruct (Z.eqb_spec (scaled (S754_finite sx mx ex)
                          - scaled (S754_finite sy my ey)) 0) as [E | N].
    + rewrite E. reflexivity.
    + reflexivity.
Qed.

Lemma SFadd_round x y :
  valid_binary x = true -> valid_binary y = true ->
  is_finite_SF x = true -> is_finite_SF y = true ->
  if scaled x + scaled y =? 0 then is_zero_float (SFadd prec emax x y) = true
  else SFadd prec emax x y = round_int (scaled x + scaled y).
Proof.
  intros Vx Vy Fx Fy.
  destruct x as [sx | | | sx mx ex]; try discriminate;
    destruct y as [sy | | | sy my ey]; try discriminate.
  - simpl. destruct sx, sy; reflexivity.
  - assert (N : scaled (S754_finite sy my ey) <> 0).
    { simpl in Vy. apply bounded_inv in Vy as (He & _).
      assert (0 < 2 ^ (ey + 1074)) by (apply Z.pow_pos_nonneg; lia).
      unfold scaled. destruct sy; unfold cond_Zopp; nia. }
    change (scaled (S754_zero sx)) with 0. rewrite Z.add_0_l.
    destruct (Z.eqb_spec (scaled (S754_finite sy my ey)) 0); [ lia |].
    simpl SFadd. symmetry. apply round_int_exact; auto.
  - assert (N : scaled (S754_finite sx mx ex) <> 0).
    { simpl in Vx. apply bounded_inv in Vx as (He & _).
      assert (0 < 2 ^ (ex + 1074)) by (apply Z.pow_pos_nonneg; lia).
      unfold scaled. destruct sx; unfold cond_Zopp; nia. }
    change (scaled (S754_zero sy)) with 0. rewrite Z.add_0_r.
    destruct (Z.eqb_spec (scaled (S754_finite sx mx ex)) 0); [ lia |].
    simpl SFadd. symmetry. apply round_int_exact; auto.
  - rewrite SFadd_finite by assumption.
    destruct (Z.eqb_spec (scaled (S754_finite sx mx ex)
                          + scaled (S754_finite sy my ey)) 0) as [E | N].
    + rewrite E. reflexivity.
    + reflexivity.
Qed.

Lemma round_int_positive z :
  SFltb (S754_zero false) (round_int z) = true -> 0 < z.
Proof.
  destruct z as [| p | p]; simpl round_int; try discriminate; [ lia |].
  unfold round_spec. rewrite round_q_not_positive. discriminate.
Qed.

Lemma round_int_mono z1 z2 :
  0 < z1 <= z2 -> SFleb (round_int z1) (round_int z2) = true.
Proof.
  intros H. destruct z1 as [| p1 | p1]; try lia.
  destruct z2 as [| p2 | p2]; try lia. simpl round_int.
  apply round_spec_mono. exact H.
Qed.

Lemma SFleb_scaled x y :
  valid_binary x = true -> valid_binary y = true ->
  is_finite_SF x = true -> is_finite_SF y = true ->
  SFleb x y = true -> scaled x <= scaled y.
Proof.
  intros Vx Vy Fx Fy. unfold SFleb.
  rewrite (SFcompare_scaled x y Vx Vy Fx Fy).
  destruct (Z.compare_spec (scaled x) (scaled y)); try discriminate; lia.
Qed.



(** ** The order on binary64 numbers *)

Lemma SFleb_trans x y z :
  valid_binary x = true -> valid_binary y = true -> valid_binary z = true ->
  SFleb x y = true -> SFleb y z = true -> SFleb x z = true.
Proof.
  intros Vx Vy Vz Hxy Hyz.
  destruct (is_finite_SF x && is_finite_SF y && is_finite_SF z) eqn:F.
  - apply andb_prop in F as [F Fz]. apply andb_prop in F as [Fx Fy].
    pose proof (SFleb_scaled x y Vx Vy Fx Fy Hxy).
    pose proof (SFleb_scaled y z Vy Vz Fy Fz Hyz).
    unfold SFleb. rewrite (SFcompare_scaled x z Vx Vz Fx Fz).
    destruct (Z.compare_spec (scaled x) (scaled z)); try reflexivity; lia.
  - destruct x as [sx | [] | | sx mx ex];
      destruct y as [sy | [] | | sy my ey]; try discriminate;
      destruct z as [sz | [] | | sz mz ez]; try discriminate;
      try reflexivity;
      try (destruct sx; discriminate);
      try (destruct sy; discriminate);
      try (destruct sz; discriminate).
Qed.

Lemma SFltb_leb_trans x y z :
  valid_binary x = true -> valid_binary y = true -> valid_binary z = true ->
  SFltb x y = true -> SFleb y z = true -> SFltb x z = true.
Proof.
  intros Vx Vy Vz Hxy Hyz.
  destruct (is_finite_SF x && is_finite_SF y && is_finite_SF z) eqn:F.
  - apply andb_prop in F as [F Fz]. apply andb_prop in F as [Fx Fy].
    pose proof (SFleb_scaled y z Vy Vz Fy Fz Hyz).
    unfold SFltb in *. rewrite (SFcompare_scaled x y Vx Vy Fx Fy) in Hxy.
    rewrite (SFcompare_scaled x z Vx Vz Fx Fz).
    destruct (Z.compare_spec (scaled x) (scaled y)); try discriminate.
    destruct (Z.compare_spec (scaled x) (scaled z)); try reflexivity; lia.
  - destruct x as [sx | [] | | sx mx ex];
      destruct y as [sy | [] | | sy my ey]; try discriminate;
      destruct z as [sz | [] | | sz mz ez]; try discriminate;
      try reflexivity;
      try (destruct sx; discriminate);
      try (destruct sy; discriminate);
      try (destruct sz; discriminate).
Qed.

Lemma SFleb_refl x : SFleb x x = true \/ x = S754_nan.
Proof.
  destruct x as [s | [] | | s m e]; auto; left; try reflexivity.
  unfold SFleb. rewrite SFcompare_finite_refl. reflexivity.
Qed.

Lemma SFltb_leb x y : SFltb x y = true -> SFleb x y = true.
Proof. unfold SFltb, SFleb. destruct (SFcompare x y) as [[] |]; auto. Qed.

(** Adding a number that is not negative does not lower a number that is
    not negative. *)
Lemma SFadd_le x c :
  valid_binary x = true -> valid_binary c = true ->
  SFleb (S754_zero false) x = true -> SFleb (S754_zero false) c = true ->
  SFleb x (SFadd prec emax x c) = true.
Proof.
  intros Vx Vc Hx Hc.
  destruct (is_finite_SF x && is_finite_SF c) eqn:F.
  - apply andb_prop in F as [Fx Fc].
    pose proof (SFleb_scaled (S754_zero false) x eq_refl Vx eq_refl Fx Hx)
      as Px.
    pose proof (SFleb_scaled (S754_zero false) c eq_refl Vc eq_refl Fc Hc)
      as Pc.
    change (scaled (S754_zero false)) with 0 in Px, Pc.
    pose proof (SFadd_round x c Vx Vc Fx Fc) as R.
    destruct (Z.eqb_spec (scaled x + scaled c) 0) as [E | N].
    + assert (E0 : scaled x = 0) by lia.
      destruct x as [sx | | | sx mx ex]; try discriminate.
      * destruct (SFadd prec emax (S754_zero sx) c); try discriminate.
        reflexivity.
      * exfalso. simpl in Vx. apply bounded_inv in Vx as (He & _).
        assert (0 < 2 ^ (ex + 1074)) by (apply Z.pow_pos_nonneg; lia).
        unfold scaled in E0. destruct sx; unfold cond_Zopp in E0; nia.
    + rewrite R. destruct (Z.eq_dec (scaled x) 0) as [E0 | N0].
      * destruct x as [sx | | | sx mx ex]; try discriminate.
        -- destruct (scaled (S754_zero sx) + scaled c) as [| q | q] eqn:Eq;
             try lia. simpl round_int. apply zero_le_round_q.
        -- exfalso. simpl in Vx. apply bounded_inv in Vx as (He & _).
           assert (0 < 2 ^ (ex + 1074)) by (apply Z.pow_pos_nonneg; lia).
           unfold scaled in E0. destruct sx; unfold cond_Zopp in E0; nia.
      * rewrite <- (round_int_exact x Vx Fx N0) at 1.
        apply round_int_mono. lia.
  - destruct x as [sx | [] | | [] mx ex]; try discriminate;
      destruct c as [sc | [] | | [] mc ec]; try discriminate; reflexivity.
Qed.

(** ** Division by 100 and rounding to two decimals *)

Lemma SFdiv_100 s n :
  SFdiv prec emax (S754_finite s n 0) (S754_finite false 100 0)
  = round_q s (Z.pos n * 2 ^ 1074) 100.
Proof.
  unfold SFdiv, SFdiv_core_binary. rewrite xorb_false_r.
  change (Zdigits2 100) with 7. rewrite fexp_64.
  pose proof (Zdigits2_log2 (Z.pos n) ltac:(lia)) as Hd.
  pose proof (log2_bounds (Z.pos n) ltac:(lia)) as [D1 D2].
  pose proof (Z.log2_nonneg (Z.pos n)) as D0.
  set (d := Zdigits2 (Z.pos n)) in *.
  replace (Z.log2 (Z.pos n)) with (d - 1) in D1, D2 by lia.
  replace (d - 1 + 1) with d in D2 by lia.
  replace (d + 0 - (7 + 0)) with (d - 7) by lia.
  replace (0 - 0) with 0 by lia.
  set (e' := Z.min (Z.max (d - 7 - 53) (-1074)) 0).
  assert (He' : -1074 <= e' <= 0) by (unfold e'; lia).
  assert (Hm' : match 0 - e' with
                | Z.pos _ => Z.shiftl (Z.pos n) (0 - e')
                | 0 => Z.pos n
                | Z.neg _ => 0
                end = Z.pos n * 2 ^ (- e')).
  { destruct (0 - e') as [| p | p] eqn:E; try lia.
    - replace (- e') with 0 by lia. lia.
    - rewrite <- E, Z.shiftl_mul_pow2 by lia. f_equal. }
  rewrite Hm'.
  set (m' := Z.pos n * 2 ^ (- e')).
  assert (P : 0 < 2 ^ (- e')) by (apply Z.pow_pos_nonneg; lia).
  assert (Big : 2 ^ 59 <= m').
  { unfold m'. destruct (Z_le_gt_dec d 60).
    - assert (- e' = 60 - d) as -> by (unfold e'; lia).
      replace 59 with ((d - 1) + (60 - d)) by lia.
      rewrite (Z.pow_add_r 2 (d - 1) (60 - d)) by lia.
      apply Z.mul_le_mono_nonneg_r; lia.
    - assert (2 ^ 59 <= 2 ^ (d - 1)) by (apply Z.pow_le_mono_r; lia).
      nia. }
  pose proof (Z_div_mod m' 100 eq_refl) as DM.
  destruct (Z.div_eucl m' 100) as [q r]. destruct DM as [Em Hr].
  assert (Hq : 2 ^ 52 <= q).
  { change (2 ^ 59) with (2 ^ 52 * 128) in Big. lia. }
  assert (T : 0 < 2 ^ 52) by (apply Z.pow_pos_nonneg; lia).
  rewrite (binary_round_aux_q s q e' 100 r 1074); try lia; try reflexivity.
  - change (2 ^ (1074 - 1074)) with 1. rewrite Z.mul_1_r.
    f_equal. replace (q * 100 + r) with m' by lia. unfold m'.
    rewrite <- Z.mul_assoc, <- Z.pow_add_r by lia. f_equal. f_equal. lia.
  - rewrite fexp_64.
    assert (53 <= Zdigits2 q); [| lia ].
    rewrite Zdigits2_log2 by lia.
    assert (52 <= Z.log2 q); [| lia ].
    apply Z.log2_le_pow2; lia.
Qed.

(** [round(x, 2)] of a positive float: the nearest float to the nearest
    hundredth. *)
Lemma float_round_2_spec x m e :
  Prim2SF x = S754_finite false m e ->
  Prim2SF (float_round_2 x)
  = round_q false
      (div_half_even (Z.pos m * 2 ^ (e + 1074) * 100) (2 ^ 1074) * 2 ^ 1074)
      100.
Proof.
  intros H. pose proof (Prim2SF_valid x) as V. rewrite H in V.
  pose proof V as V'. apply bounded_inv in V' as (He & Hm & _).
  assert (P : 0 < 2 ^ (e + 1074)) by (apply Z.pow_pos_nonneg; lia).
  assert (P' : 0 < 2 ^ 1074) by (apply Z.pow_pos_nonneg; lia).
  unfold float_round_2. rewrite H.
  destruct (Z.leb_spec 0 e) as [L | L].
  - rewrite H.
    replace (Z.pos m * 2 ^ (e + 1074) * 100)
      with (Z.pos m * 2 ^ e * 100 * 2 ^ 1074)
      by (rewrite (Z.pow_add_r 2 e 1074) by lia; ring).
    rewrite div_half_even_exact by lia.
    replace (Z.pos m * 2 ^ e * 100 * 2 ^ 1074)
      with (Z.pos m * 2 ^ (e + 1074) * 100)
      by (rewrite (Z.pow_add_r 2 e 1074) by lia; ring).
    rewrite <- (Z.mul_1_l 100) at 2.
    rewrite round_q_scale by lia.
    fold (round_spec false (Z.pos m * 2 ^ (e + 1074))).
    rewrite round_spec_exact by exact V. reflexivity.
  - assert (E : div_half_even (Z.pos m * 100) (2 ^ (- e))
                = div_half_even (Z.pos m * 2 ^ (e + 1074) * 100) (2 ^ 1074)).
    { replace (Z.pos m * 2 ^ (e + 1074) * 100)
        with (Z.pos m * 100 * 2 ^ (e + 1074)) by ring.
      replace 1074 with (- e + (e + 1074)) at 2 by lia.
      rewrite (Z.pow_add_r 2 (- e) (e + 1074)) by lia.
      rewrite div_half_even_scale; [ reflexivity | | lia ].
      apply Z.pow_pos_nonneg; lia. }
    rewrite E.
    pose proof (div_half_even_bounds (Z.pos m * 2 ^ (e + 1074) * 100)
                  (2 ^ 1074) P') as [B _].
    assert (0 <= Z.pos m * 2 ^ (e + 1074) * 100 / 2 ^ 1074)
      by (apply Z.div_pos; lia).
    destruct (div_half_even (Z.pos m * 2 ^ (e + 1074) * 100) (2 ^ 1074))
      as [| n | n]; try lia.
    + reflexivity.
    + rewrite Prim2SF_SF2Prim; rewrite SFdiv_100; [ reflexivity |].
      apply round_q_valid; lia.
Qed.

(** Rounding to two decimals keeps the order of positive floats. *)
Lemma float_round_2_mono x y :
  (0 <? x)%float = true -> (x <=? y)%float = true ->
  (float_round_2 x <=? float_round_2 y)%float = true.
Proof.
  rewrite ltb_spec, !leb_spec. intros Hx Hxy.
  pose proof (Prim2SF_valid x) as Vx. pose proof (Prim2SF_valid y) as Vy.
  change (Prim2SF 0) with (S754_zero false) in Hx.
  destruct (Prim2SF x) as [sx | [] | | [] mx ex] eqn:Ex; try discriminate.
  - (* an infinite x *)
    destruct (Prim2SF y) as [sy | [] | | sy my ey] eqn:Ey; try discriminate;
      try (destruct sy; discriminate).
    unfold float_round_2. rewrite Ex, Ey, Ex, Ey. reflexivity.
  - rewrite (float_round_2_spec x mx ex Ex).
    destruct (Prim2SF y) as [sy | [] | | [] my ey] eqn:Ey; try discriminate.
    + unfold float_round_2 at 1. rewrite Ey, Ey. apply round_q_le_infinity.
    + rewrite (float_round_2_spec y my ey Ey).
      pose proof (SFleb_scaled _ _ Vx Vy eq_refl eq_refl Hxy) as L.
      cbn [scaled cond_Zopp] in L.
      assert (P' : 0 < 2 ^ 1074) by (apply Z.pow_pos_nonneg; lia).
      pose proof (div_half_even_bounds (Z.pos mx * 2 ^ (ex + 1074) * 100)
                    (2 ^ 1074) P') as [B _].
      assert (0 <= Z.pos mx * 2 ^ (ex + 1074) * 100 / 2 ^ 1074).
      { apply bounded_inv in Vx as (He & _).
        apply Z.div_pos; [| lia ].
        assert (0 < 2 ^ (ex + 1074)) by (apply Z.pow_pos_nonneg; lia). lia. }
      apply round_q_mono; [| lia ]. split; [ lia |].
      apply Z.mul_le_mono_nonneg_r; [ lia |].
      apply div_half_even_mono; lia.
Qed.

(** ** The same facts on floats *)

Local Open Scope float_scope.


Lemma leb_trans x y z :
  (x <=? y) = true -> (y <=? z) = true -> (x <=? z) = true.
Proof.
  rewrite !FloatAxioms.leb_spec. apply SFleb_trans; apply Prim2SF_valid.
Qed.

Lemma ltb_leb_trans x y z :
  (x <? y) = true -> (y <=? z) = true -> (x <? z) = true.
Proof.
  rewrite !FloatAxioms.ltb_spec, FloatAxioms.leb_spec.
  apply SFltb_leb_trans; apply Prim2SF_valid.
Qed.

Lemma ltb_leb x y : (x <? y) = true -> (x <=? y) = true.
Proof.
  rewrite FloatAxioms.ltb_spec, FloatAxioms.leb_spec. apply SFltb_leb.
Qed.

Lemma add_le x c :
  (0 <=? x) = true -> (0 <=? c) = true -> (x <=? x + c) = true.
Proof.
  rewrite !FloatAxioms.leb_spec, add_spec.
  change (Prim2SF 0) with (S754_zero false).
  apply SFadd_le; apply Prim2SF_valid.
Qed.

Lemma leb_refl x : (x <=? x) = true \/ x = nan.
Proof.
  rewrite FloatAxioms.leb_spec.
  destruct (SFleb_refl (Prim2SF x)) as [H | H]; auto.
  right. apply Prim2SF_nan, H.
Qed.

Local Open Scope Z_scope.

(** ** Numbers that need no rounding *)

Lemma round_spec_representable Q j :
  0 < Q < 2 ^ 53 -> 0 <= j <= 2045 ->
  exists p e,
    round_spec false (Q * 2 ^ j) = S754_finite false p e
    /\ Z.pos p * 2 ^ (e + 1074) = Q * 2 ^ j.
Proof.
  intros HQ Hj. unfold round_spec, round_q. cbv zeta.
  rewrite Z.div_1_r, !Z.mul_1_l, Z.log2_mul_pow2 by lia.
  pose proof (log2_bounds Q ltac:(lia)) as [L1 L2].
  pose proof (Z.log2_nonneg Q) as L0.
  assert (L : Z.log2 Q < 53) by (apply Z.log2_lt_pow2; lia).
  set (n := Z.max (j + Z.log2 Q + 1 - 53) 0).
  assert (Hn : 0 <= n <= j) by (unfold n; lia).
  assert (Pn : 0 < 2 ^ n) by (apply Z.pow_pos_nonneg; lia).
  assert (Pj : 0 < 2 ^ (j - n)) by (apply Z.pow_pos_nonneg; lia).
  assert (E : Q * 2 ^ j = Q * 2 ^ (j - n) * 2 ^ n).
  { rewrite <- Z.mul_assoc, <- Z.pow_add_r by lia. do 2 f_equal. lia. }
  assert (Hq : div_half_even (Q * 2 ^ j) (2 ^ n) = Q * 2 ^ (j - n))
    by (rewrite E; apply div_half_even_exact; lia).
  rewrite !Hq.
  assert (U : Q * 2 ^ (j - n) < 2 ^ 53).
  { apply Z.lt_le_trans with (2 ^ (Z.log2 Q + 1) * 2 ^ (j - n)).
    - apply Z.mul_lt_mono_pos_r; lia.
    - rewrite <- Z.pow_add_r by lia. apply Z.pow_le_mono_r; unfold n; lia. }
  assert (P : 0 < Q * 2 ^ (j - n)) by (apply Z.mul_pos_pos; lia).
  destruct (Z.eqb_spec (Q * 2 ^ (j - n)) (2 ^ 53)) as [E' | _]; [ lia |].
  destruct (Q * 2 ^ (j - n)) as [| p | p] eqn:Ep; try lia.
  destruct (Z.leb_spec (n - 1074) 971) as [_ | G]; [| lia ].
  exists p, (n - 1074). split; [ reflexivity |].
  replace (n - 1074 + 1074) with n by lia. lia.
Qed.

(** A smaller valid number has no larger exponent. *)
Lemma exponent_le m1 e1 m2 e2 :
  bounded prec emax m1 e1 = true -> bounded prec emax m2 e2 = true ->
  Z.pos m1 * 2 ^ (e1 + 1074) <= Z.pos m2 * 2 ^ (e2 + 1074) -> e1 <= e2.
Proof.
  intros B1 B2 H.
  apply bounded_inv in B1 as (E1 & M1 & N1).
  apply bounded_inv in B2 as (E2 & M2 & N2).
  destruct (Z_le_gt_dec e1 e2) as [L | G]; [ exact L | exfalso ].
  specialize (N1 ltac:(lia)).
  assert (P2 : 0 < 2 ^ (e2 + 1074)) by (apply Z.pow_pos_nonneg; lia).
  assert (2 * 2 ^ (e2 + 1074) <= 2 ^ (e1 + 1074)).
  { rewrite <- Z.pow_succ_r by lia. apply Z.pow_le_mono_r; lia. }
  change (2 ^ 53) with (2 * 2 ^ 52) in M2.
  assert (0 < 2 ^ 52) by (apply Z.pow_pos_nonneg; lia).
  nia.
Qed.

(** ** Multiplication *)

Lemma SFmul_finite sx mx ex sy my ey :
  bounded prec emax mx ex = true -> bounded prec emax my ey = true ->
  SFmul prec emax (S754_finite sx mx ex) (S754_finite sy my ey)
  = round_q (xorb sx sy)
      (Z.pos mx * 2 ^ (ex + 1074) * (Z.pos my * 2 ^ (ey + 1074)))
      (2 ^ 1074).
Proof.
  intros Bx By.
  apply bounded_inv in Bx as (Ex & Mx & Nx).
  apply bounded_inv in By as (Ey & My & Ny).
  assert (P : 0 < 2 ^ 1074) by (apply Z.pow_pos_nonneg; lia).
  unfold SFmul. change loc_Exact with (new_location 2 0).
  rewrite Pos2Z.inj_mul.
  assert (Pm : 0 < Z.pos mx * Z.pos my) by lia.
  rewrite (binary_round_aux_q _ (Z.pos mx * Z.pos my) (ex + ey) 2 0 2148);
    try lia; try reflexivity.
  - change (2148 - 1074) with 1074. rewrite Z.add_0_r.
    replace (ex + ey + 2148) with ((ex + 1074) + (ey + 1074)) by lia.
    rewrite (Z.pow_add_r 2 (ex + 1074) (ey + 1074)) by lia.
    replace (Z.pos mx * Z.pos my * 2 * (2 ^ (ex + 1074) * 2 ^ (ey + 1074)))
      with (Z.pos mx * 2 ^ (ex + 1074) * (Z.pos my * 2 ^ (ey + 1074)) * 2)
      by ring.
    replace (2 * 2 ^ 1074) with (2 ^ 1074 * 2) by ring.
    apply round_q_scale; lia.
  - rewrite fexp_64, Zdigits2_log2 by lia.
    assert (T : 0 < 2 ^ 52) by (apply Z.pow_pos_nonneg; lia).
    assert (D1 : -1074 < ex -> -1074 < ey ->
                 104 <= Z.log2 (Z.pos mx * Z.pos my)).
    { intros Hx Hy. specialize (Nx Hx). specialize (Ny Hy).
      apply Z.log2_le_pow2; [ lia |].
      change (2 ^ 104) with (2 ^ 52 * 2 ^ 52). nia. }
    assert (D2 : -1074 < ey -> 52 <= Z.log2 (Z.pos mx * Z.pos my)).
    { intros Hy. specialize (Ny Hy). apply Z.log2_le_pow2; [ lia |]. nia. }
    assert (D3 : -1074 < ex -> 52 <= Z.log2 (Z.pos mx * Z.pos my)).
    { intros Hx. specialize (Nx Hx). apply Z.log2_le_pow2; [ lia |]. nia. }
    lia.
Qed.

(** Multiplying by a positive finite number keeps the order of positive
    numbers. *)
Lemma SFmul_le_mono x1 x2 mc ec :
  valid_binary x1 = true -> valid_binary x2 = true ->
  bounded prec emax mc ec = true ->
  SFltb (S754_zero false) x1 = true -> SFleb x1 x2 = true ->
  SFleb (SFmul prec emax x1 (S754_finite false mc ec))
        (SFmul prec emax x2 (S754_finite false mc ec)) = true.
Proof.
  intros V1 V2 Bc H1 H12.
  destruct x1 as [s1 | [] | | [] m1 e1]; try discriminate;
    destruct x2 as [s2 | [] | | [] m2 e2]; try discriminate.
  - reflexivity.
  - rewrite (SFmul_finite false m1 e1 false mc ec V1 Bc).
    apply round_q_le_infinity.
  - pose proof (SFleb_scaled _ _ V1 V2 eq_refl eq_refl H12) as L.
    cbn [scaled cond_Zopp] in L.
    rewrite !SFmul_finite by assumption.
    apply bounded_inv in Bc as (Ec & _). apply bounded_inv in V1 as (E1 & _).
    assert (0 < 2 ^ (ec + 1074)) by (apply Z.pow_pos_nonneg; lia).
    assert (0 < 2 ^ (e1 + 1074)) by (apply Z.pow_pos_nonneg; lia).
    apply round_q_mono; [| apply Z.pow_pos_nonneg; lia ].
    split; [ apply Z.mul_nonneg_nonneg; lia |].
    apply Z.mul_le_mono_nonneg_r; lia.
Qed.

(** A positive product with a positive finite number has a positive other
    factor. *)
Lemma SFmul_positive_inv a mc ec :
  SFltb (S754_zero false)
    (SFmul prec emax a (S754_finite false mc ec)) = true ->
  pos_float a = true.
Proof.
  destruct a as [[] | [] | | [] ma ea]; try discriminate; try reflexivity.
  unfold SFmul. simpl xorb.
  pose proof (binary_round_aux_sign true (Z.pos (ma * mc)) (ea + ec) loc_Exact)
    as S.
  destruct (binary_round_aux _ _ _ _ _ _); subst; discriminate.
Qed.

(** ** Subtraction makes progress *)

(** Taking at least one unit in the last place from a positive finite
    number leaves, if anything positive, a smaller finite number. *)
Lemma SFsub_progress my ey d :
  bounded prec emax my ey = true -> valid_binary d = true ->
  pos_float d = true ->
  (is_finite_SF d = true -> 2 ^ (ey + 1074) <= scaled d) ->
  SFltb (S754_zero false) (SFsub prec emax (S754_finite false my ey) d) = true ->
  exists m' e',
    SFsub prec emax (S754_finite false my ey) d = S754_finite false m' e'
    /\ bounded prec emax m' e' = true
    /\ Z.pos m' * 2 ^ (e' + 1074) < Z.pos my * 2 ^ (ey + 1074).
Proof.
  intros By Vd Pd Hq Hpos.
  destruct d as [sd | [] | | [] md ed]; try discriminate.
  specialize (Hq eq_refl).
  pose proof (SFsub_round (S754_finite false my ey) (S754_finite false md ed)
                By Vd eq_refl eq_refl) as R.
  set (r := SFsub prec emax (S754_finite false my ey) (S754_finite false md ed))
    in *.
  cbn [scaled cond_Zopp] in R, Hq.
  pose proof By as By'. apply bounded_inv in By' as (Ey & My & _).
  assert (Py : 0 < 2 ^ (ey + 1074)) by (apply Z.pow_pos_nonneg; lia).
  set (Y := Z.pos my * 2 ^ (ey + 1074)) in *.
  set (D := Z.pos md * 2 ^ (ed + 1074)) in *.
  destruct (Z.eqb_spec (Y - D) 0) as [E | N].
  { destruct r; discriminate. }
  rewrite R in Hpos. pose proof (round_int_positive _ Hpos) as Pos.
  assert (Hm : 1 < Z.pos my) by (unfold Y in *; nia).
  destruct (round_spec_representable (Z.pos my - 1) (ey + 1074)
              ltac:(lia) ltac:(lia)) as (p & e & Rp & Vp).
  assert (Vr : valid_binary (S754_finite false p e) = true).
  { rewrite <- Rp. apply round_q_valid; [| lia ].
    apply Z.mul_nonneg_nonneg; lia. }
  assert (Le : SFleb (round_int (Y - D)) (S754_finite false p e) = true).
  { rewrite <- Rp.
    replace (round_spec false ((Z.pos my - 1) * 2 ^ (ey + 1074)))
      with (round_int ((Z.pos my - 1) * 2 ^ (ey + 1074))).
    - apply round_int_mono. unfold Y in *. nia.
    - destruct ((Z.pos my - 1) * 2 ^ (ey + 1074)) eqn:Ez; try nia.
      reflexivity. }
  assert (Vq : valid_binary (round_int (Y - D)) = true).
  { destruct (Y - D) as [| z | z] eqn:Ez; try lia.
    apply round_q_valid; lia. }
  rewrite R.
  destruct (round_int (Y - D)) as [s' | [] | | [] m' e'] eqn:Er;
    try discriminate.
  exists m', e'. split; [ reflexivity |]. split; [ exact Vq |].
  pose proof (SFleb_scaled _ _ Vq Vr eq_refl eq_refl Le) as L.
  cbn [scaled cond_Zopp] in L. unfold Y in *. nia.
Qed.

(** ** The same facts on floats *)

Local Open Scope float_scope.

Lemma finite_is_finite x s m e :
  Prim2SF x = S754_finite s m e -> is_finite x = true.
Proof.
  intros H. pose proof (float_tests x) as T. rewrite H in T.
  destruct T as (N & I & _). unfold is_finite. rewrite N, I. reflexivity.
Qed.

Lemma is_finite_decoded x :
  is_finite x = true -> is_finite_SF (Prim2SF x) = true.
Proof.
  intros H. apply is_finite_cases in H.
  destruct (Prim2SF x); try contradiction; reflexivity.
Qed.

Lemma pos_float_ltb x : pos_float (Prim2SF x) = (0 <? x).
Proof.
  rewrite FloatAxioms.ltb_spec. change (Prim2SF 0) with (S754_zero false).
  destruct (Prim2SF x) as [[] | [] | | [] ? ?]; reflexivity.
Qed.

Lemma step_decoded : Prim2SF 0.01 = S754_finite false 5764607523034235 (-59).
Proof. reflexivity. Qed.

Lemma mul_step_mono x1 x2 :
  (0 <? x1) = true -> (x1 <=? x2) = true -> (x1 * 0.01 <=? x2 * 0.01) = true.
Proof.
  rewrite FloatAxioms.ltb_spec, !FloatAxioms.leb_spec, !mul_spec, step_decoded.
  change (Prim2SF 0) with (S754_zero false).
  apply SFmul_le_mono; try apply Prim2SF_valid. reflexivity.
Qed.

Lemma mul_positive_inv a c mc ec :
  Prim2SF c = S754_finite false mc ec -> (0 <? a * c) = true -> (0 <? a) = true.
Proof.
  intros Hc. rewrite <- !pos_float_ltb, mul_spec, Hc. intros H.
  apply (SFmul_positive_inv _ mc ec). unfold SF64mul in H.
  destruct (SFmul _ _ _ _) as [[] | [] | | [] ? ?]; try discriminate;
    reflexivity.
Qed.

(** A product with 0.01 is finite only if the other factor is. *)
Lemma mul_step_finite a :
  is_finite_SF (Prim2SF (a * 0.01)) = true -> is_finite a = true.
Proof.
  rewrite mul_spec, step_decoded. pose proof (float_tests a) as T.
  destruct (Prim2SF a) as [[] | [] | | s m e]; try discriminate; intros _;
    subst; try reflexivity.
  unfold is_finite. destruct T as (-> & -> & _). reflexivity.
Qed.

(** Taking [d] from a positive finite height [y], where [d] is at least one
    unit in the last place of [y]: what is left, if positive, is a smaller
    finite height, and [d] was finite. *)
Lemma sub_progress y my ey d :
  Prim2SF y = S754_finite false my ey ->
  pos_float (Prim2SF d) = true ->
  (is_finite_SF (Prim2SF d) = true -> (2 ^ (ey + 1074) <= scaled (Prim2SF d))%Z) ->
  (0 <? y - d) = true ->
  is_finite_SF (Prim2SF d) = true
  /\ exists m' e',
       Prim2SF (y - d) = S754_finite false m' e'
       /\ (e' <= ey)%Z
       /\ (Z.pos m' * 2 ^ (e' + 1074) < Z.pos my * 2 ^ (ey + 1074))%Z.
Proof.
  intros Hy Pd Hq. rewrite FloatAxioms.ltb_spec, sub_spec, Hy.
  change (Prim2SF 0) with (S754_zero false). intros Hpos.
  pose proof (Prim2SF_valid y) as Vy. rewrite Hy in Vy.
  pose proof (Prim2SF_valid d) as Vd.
  destruct (SFsub_progress my ey (Prim2SF d) Vy Vd Pd Hq Hpos)
    as (m' & e' & E & B & L).
  split.
  - destruct (Prim2SF d) as [? | [] | | ? ? ?]; try discriminate; reflexivity.
  - exists m', e'. split; [ exact E |]. split; [| exact L ].
    apply (exponent_le m' e' my ey B Vy). lia.
Qed.

(** A height of at most [2^52] times a displacement [d1] has a unit in the
    last place of at most [d1]. *)
Lemma resolution h m0 e0 d1 :
  Prim2SF h = S754_finite false m0 e0 ->
  (h <=? d1 * 4503599627370496) = true ->
  forall d, (d1 <=? d) = true ->
    pos_float (Prim2SF d) = true
    /\ (is_finite_SF (Prim2SF d) = true ->
        (2 ^ (e0 + 1074) <= scaled (Prim2SF d))%Z).
Proof.
  intros Hh Hle d Hd.
  assert (P1 : (0 <? d1) = true).
  { apply (mul_positive_inv d1 4503599627370496 4503599627370496 0);
      [ reflexivity |].
    apply ltb_leb_trans with h; [| exact Hle ].
    rewrite <- pos_float_ltb, Hh. reflexivity. }
  pose proof (ltb_leb_trans _ _ _ P1 Hd) as Pd.
  rewrite <- pos_float_ltb in P1, Pd. split; [ exact Pd |]. intros Fd.
  pose proof (Prim2SF_valid h) as Vh. rewrite Hh in Vh.
  pose proof (Prim2SF_valid d1) as V1. pose proof (Prim2SF_valid d) as Vd.
  rewrite FloatAxioms.leb_spec in Hd. rewrite FloatAxioms.leb_spec, mul_spec, Hh in Hle.
  change (Prim2SF 4503599627370496)
    with (S754_finite false 4503599627370496 0) in Hle.
  destruct (Prim2SF d1) as [? | [] | | [] m1 e1] eqn:E1; try discriminate;
    [ destruct (Prim2SF d) as [? | [] | | [] ? ?]; discriminate |].
  pose proof (SFleb_scaled _ _ V1 Vd eq_refl Fd Hd) as L1.
  eapply Z.le_trans; [| exact L1 ]. cbn [scaled cond_Zopp]. clear L1 Hd Pd Fd Vd.
  unfold SF64mul in Hle.
  rewrite (SFmul_finite false m1 e1 false 4503599627370496 0 V1 eq_refl) in Hle.
  pose proof V1 as V1'. apply bounded_inv in V1' as (Ee1 & M1 & N1).
  pose proof Vh as Vh'. apply bounded_inv in Vh' as (Ee0 & M0 & N0).
  assert (P1' : (0 < 2 ^ (e1 + 1074))%Z) by (apply Z.pow_pos_nonneg; lia).
  assert (P0 : (0 < 2 ^ (e0 + 1074))%Z) by (apply Z.pow_pos_nonneg; lia).
  assert (T : (0 < 2 ^ 52)%Z) by (apply Z.pow_pos_nonneg; lia).
  destruct (Z_le_gt_dec (e1 + 52) 971) as [Small | Big].
  - change (Z.pos 4503599627370496 * 2 ^ (0 + 1074))%Z
      with (2 ^ 52 * 2 ^ 1074)%Z in Hle.
    replace (Z.pos m1 * 2 ^ (e1 + 1074) * (2 ^ 52 * 2 ^ 1074))%Z
      with (Z.pos m1 * 2 ^ (e1 + 1074 + 52) * 2 ^ 1074)%Z in Hle
      by (rewrite (Z.pow_add_r 2 (e1 + 1074) 52) by lia; ring).
    rewrite <- (Z.mul_1_l (2 ^ 1074)) in Hle at 2.
    rewrite round_q_scale in Hle by (try apply Z.pow_pos_nonneg; lia).
    change (round_q (xorb false false) ?a 1) with (round_spec false a) in Hle.
    destruct (round_spec_representable (Z.pos m1) (e1 + 1074 + 52)
                ltac:(lia) ltac:(lia)) as (pp & ee & Rp & Vp).
    assert (Vr : valid_binary (S754_finite false pp ee) = true).
    { rewrite <- Rp. apply round_q_valid; [| lia ].
      apply Z.mul_nonneg_nonneg; [ lia |]. apply Z.pow_nonneg. lia. }
    rewrite Rp in Hle.
    pose proof (SFleb_scaled _ _ Vh Vr eq_refl eq_refl Hle) as L.
    cbn [scaled cond_Zopp] in L. rewrite Vp in L.
    rewrite (Z.pow_add_r 2 (e1 + 1074) 52) in L by lia.
    destruct (Z.eq_dec e0 (-1074)%Z) as [-> | N].
    + change (2 ^ (-1074 + 1074))%Z with 1%Z. lia.
    + specialize (N0 ltac:(lia)). nia.
  - specialize (N1 ltac:(lia)).
    assert ((2 ^ (e0 + 1074) <= 2 ^ (e1 + 1074 + 52))%Z)
      by (apply Z.pow_le_mono_r; lia).
    rewrite (Z.pow_add_r 2 (e1 + 1074) 52) in H by lia.
    change (2 ^ 52)%Z with 4503599627370496%Z in *. nia.
Qed.

Local Open Scope Z_scope.

(** * Ints among the operands *)

Lemma arith_float_l iop fop x v :
  arith iop fop (PyFloat x) v
  = obind (as_float v) (fun f => Ok (PyFloat (fop x f))).
Proof. unfold arith, as_float. simpl. destruct (as_num v); reflexivity. Qed.

Lemma arith_float_r iop fop v y :
  arith iop fop v (PyFloat y)
  = obind (as_float v) (fun f => Ok (PyFloat (fop f y))).
Proof.
  unfold arith, as_float. simpl.
  destruct (as_num v) as [[z | f] |]; simpl; try reflexivity.
Qed.

Lemma py_truediv_float_l x v :
  py_truediv (PyFloat x) v
  = obind (as_float v) (fun f =>
      if is_zero f then Raise ZeroDivisionError
      else Ok (PyFloat (x / f)%float)).
Proof.
  unfold py_truediv, as_float. simpl. destruct (as_num v); reflexivity.
Qed.

Lemma py_mul_field x v f :
  as_float v = Ok f -> py_mul (PyFloat x) v = Ok (PyFloat (x * f)%float).
Proof. intros H. unfold py_mul. rewrite arith_float_l, H. reflexivity. Qed.

Lemma py_truediv_field x v f :
  as_float v = Ok f ->
  py_truediv (PyFloat x) v = py_truediv (PyFloat x) (PyFloat f).
Proof. intros H. rewrite !py_truediv_float_l, H. reflexivity. Qed.

Lemma py_sub_field v f y :
  as_float v = Ok f -> py_sub v (PyFloat y) = Ok (PyFloat (f - y)%float).
Proof. intros H. unfold py_sub. rewrite arith_float_r, H. reflexivity. Qed.

Lemma py_mul_float_result x v r :
  py_mul (PyFloat x) v = Ok r -> exists d, r = PyFloat d.
Proof.
  unfold py_mul. rewrite arith_float_l.
  destruct (as_float v); simpl; try discriminate. intros [= <-]. eauto.
Qed.

Lemma py_truediv_float_result x v r :
  py_truediv (PyFloat x) v = Ok r -> exists d, r = PyFloat d.
Proof.
  rewrite py_truediv_float_l.
  destruct (as_float v) as [f | |]; simpl; try discriminate.
  destruct (is_zero f); try discriminate. intros [= <-]. eauto.
Qed.

(** The loop body reads each attribute next to a float: ints among the
    attributes act as their conversions. *)
Lemma body_floats m A C p g fm fA fC fp fg s :
  floats_of m A C p g fm fA fC fp fg ->
  body m A C p g s
  = body (PyFloat fm) (PyFloat fA) (PyFloat fC) (PyFloat fp) (PyFloat fg) s.
Proof.
  intros [Hm HA HC Hp Hg]. unfold body.
  rewrite (py_mul_field _ C fC HC), (py_mul_field _ (PyFloat fC) fC eq_refl).
  cbn [obind].
  rewrite (py_mul_field _ p fp Hp), (py_mul_field _ (PyFloat fp) fp eq_refl).
  cbn [obind].
  rewrite (py_mul_field _ A fA HA), (py_mul_field _ (PyFloat fA) fA eq_refl).
  cbn [obind].
  destruct (py_pow_2 (v s)) as [v2 | |]; cbn [obind]; try reflexivity.
  destruct (py_mul _ v2) as [drag | |] eqn:Ed; cbn [obind]; try reflexivity.
  destruct (py_mul_float_result _ _ _ Ed) as [d ->].
  rewrite (py_truediv_field d m fm Hm).
  destruct (py_truediv _ _) as [dm | |] eqn:Em; cbn [obind]; try reflexivity.
  destruct (py_truediv_float_result _ _ _ Em) as [q ->].
  rewrite (py_sub_field g fg q Hg), (py_sub_field (PyFloat fg) fg q eq_refl).
  reflexivity.
Qed.

(** * The conversion of an int *)

Lemma round_q_positive a b :
  0 < b <= a -> SFltb (S754_zero false) (round_q false a b) = true.
Proof.
  intros [Hb Ha].
  pose proof (round_q_mantissa a b ltac:(lia) Hb) as (U & _).
  unfold round_q.
  set (n := Z.max (Z.log2 (a / b) + 1 - 53) 0) in *.
  set (q := div_half_even a (b * 2 ^ n)) in *.
  assert (Hf : 1 <= a / b) by (apply Z.div_le_lower_bound; lia).
  pose proof (log2_bounds (a / b) ltac:(lia)) as [L1 _].
  pose proof (Z.log2_nonneg (a / b)) as L0.
  assert (Hn : 0 <= n) by (unfold n; lia).
  assert (Pn : 0 < 2 ^ n) by (apply Z.pow_pos_nonneg; lia).
  assert (Hq : 1 <= q).
  { pose proof (div_half_even_bounds a (b * 2 ^ n) ltac:(nia)) as [B _].
    fold q in B. rewrite <- Z.div_div in B by lia.
    assert (1 <= a / b / 2 ^ n); [| lia ].
    apply Z.div_le_lower_bound; [ lia |]. rewrite Z.mul_1_r.
    eapply Z.le_trans; [| exact L1 ].
    apply Z.pow_le_mono_r; unfold n; lia. }
  destruct (Z.eqb_spec q (2 ^ 53)) as [E | N].
  - change (2 ^ 52) with (Z.pos (Z.to_pos (2 ^ 52))). cbv iota.
    destruct (_ <=? 971); reflexivity.
  - destruct q as [| pq | pq]; try lia. destruct (_ <=? 971); reflexivity.
Qed.

Lemma round_int_valid z : valid_binary (round_int z) = true.
Proof.
  destruct z as [| z | z]; [ reflexivity | |]; apply round_q_valid; lia.
Qed.

Lemma round_int_not_nan z : round_int z <> S754_nan.
Proof.
  destruct z as [| z | z]; [ discriminate | |]; apply round_q_not_nan.
Qed.

Lemma round_int_pos z :
  0 < z -> SFltb (S754_zero false) (round_int z) = true.
Proof.
  intros H. destruct z as [| z | z]; try lia. apply round_q_positive. lia.
Qed.

(** A converted int is the nearest float, and finite. *)
Lemma float_of_int_decoded z y :
  float_of_int z = Ok y ->
  Prim2SF y = round_int (z * 2 ^ 1074) /\ is_finite_SF (Prim2SF y) = true.
Proof.
  unfold float_of_int. rewrite (binary_normalize_spec z 0) by lia.
  change (0 + 1074) with 1074.
  pose proof (round_int_valid (z * 2 ^ 1074)) as V.
  pose proof (round_int_not_nan (z * 2 ^ 1074)) as NN.
  remember (round_int (z * 2 ^ 1074)) as r eqn:Er. clear Er.
  pose proof (Prim2SF_SF2Prim r V) as E.
  pose proof (float_tests (SF2Prim r)) as T. rewrite E in T.
  destruct (is_infinity (SF2Prim r)) eqn:I; [ discriminate |].
  intros [= <-]. split; [ exact E |]. rewrite E.
  destruct r as [? | [] | | ? ? ?]; try reflexivity; try contradiction;
    rewrite T in I; discriminate.
Qed.

Local Open Scope float_scope.

Lemma float_of_int_positive z y :
  float_of_int z = Ok y -> (0 <? y) = (0 <? z)%Z.
Proof.
  intros H. apply float_of_int_decoded in H as [E _].
  rewrite FloatAxioms.ltb_spec, E. change (Prim2SF 0) with (S754_zero false).
  assert (P : (0 < 2 ^ 1074)%Z) by (apply Z.pow_pos_nonneg; lia).
  destruct (Z.ltb_spec 0 z) as [L | L].
  - apply round_int_pos. lia.
  - destruct (SFltb _ _) eqn:F; [| reflexivity ].
    apply round_int_positive in F. lia.
Qed.

(** The loop condition and the range check on a height, through its
    conversion. *)
Lemma py_gt_0_as_float h y :
  as_float h = Ok y -> py_gt h (PyInt 0) = Ok (0 <? y).
Proof.
  unfold as_float. destruct h as [| b | z | x | | |]; simpl; try discriminate.
  - intros H. rewrite (float_of_int_positive _ _ H).
    unfold py_gt, ordering. simpl. f_equal.
    destruct b; reflexivity.
  - intros H. rewrite (float_of_int_positive _ _ H).
    unfold py_gt, ordering. simpl. f_equal.
    destruct (Z.ltb_spec 0 z); destruct (Z.compare_spec z 0); try lia;
      reflexivity.
  - intros [= <-]. apply py_gt_0_ltb.
Qed.

Lemma py_gt_not_le a b : py_gt a b = Ok true -> py_le a b = Ok false.
Proof.
  unfold py_gt, py_le, ordering.
  destruct (as_num a), (as_num b); try discriminate.
  destruct (num_compare _ _) as [[] |]; simpl; congruence.
Qed.

Lemma positive_height h y :
  as_float h = Ok y -> (0 <? y) = true ->
  positive_number h /\ falling (initial h) = Ok true.
Proof.
  intros Hy Pos. pose proof (py_gt_0_as_float h y Hy) as G.
  rewrite Pos in G. split; [| exact G ]. split.
  - unfold as_float in Hy. unfold is_number.
    destruct h; try discriminate; reflexivity.
  - apply py_gt_not_le, G.
Qed.

(** * The order of two heights, through their conversions *)





(** * Valid attributes, converted *)

Lemma py_gt_0_float v f :
  as_float v = Ok f -> py_gt v (PyInt 0) = Ok true ->
  py_gt (PyFloat f) (PyInt 0) = Ok true.
Proof.
  intros H G. rewrite (py_gt_0_as_float v f H) in G. rewrite py_gt_0_ltb.
  exact G.
Qed.

Lemma py_gt_ge a b : py_gt a b = Ok true -> py_ge a b = Ok true.
Proof.
  unfold py_gt, py_ge, ordering.
  destruct (as_num a), (as_num b); try discriminate.
  destruct (num_compare _ _) as [[] |]; simpl; congruence.
Qed.

Lemma float_of_int_0 f : float_of_int 0 = Ok f -> f = 0.
Proof. intros H. vm_compute in H. congruence. Qed.

Lemma float_of_int_1 f : float_of_int 1 = Ok f -> f = 1.
Proof. intros H. vm_compute in H. congruence. Qed.

Lemma int_ge_0_float z f :
  float_of_int z = Ok f -> (0 <= z)%Z ->
  py_ge (PyFloat f) (PyInt 0) = Ok true.
Proof.
  intros H Hz. destruct (Z.eq_dec z 0%Z) as [-> | N].
  - apply float_of_int_0 in H. subst f. reflexivity.
  - apply py_gt_ge. rewrite py_gt_0_ltb, (float_of_int_positive _ _ H).
    f_equal. apply Z.ltb_lt. lia.
Qed.

Lemma py_ge_0_float v f :
  as_float v = Ok f -> py_ge v (PyInt 0) = Ok true ->
  py_ge (PyFloat f) (PyInt 0) = Ok true.
Proof.
  unfold as_float. destruct v as [| b | z | x | | |]; simpl; try discriminate.
  - intros H _. apply (int_ge_0_float _ _ H). destruct b; simpl; lia.
  - intros H G. apply (int_ge_0_float _ _ H).
    unfold py_ge, ordering in G. simpl in G.
    destruct (Z.compare_spec z 0); try discriminate; lia.
  - intros [= <-]. auto.
Qed.

Lemma int_lt_2_float z f :
  float_of_int z = Ok f -> (0 < z < 2)%Z ->
  py_lt (PyFloat f) (PyInt 2) = Ok true.
Proof.
  intros H Hz. assert (z = 1%Z) as -> by lia.
  apply float_of_int_1 in H. subst f. reflexivity.
Qed.

Lemma py_lt_2_float v f :
  as_float v = Ok f -> py_gt v (PyInt 0) = Ok true ->
  py_lt v (PyInt 2) = Ok true -> py_lt (PyFloat f) (PyInt 2) = Ok true.
Proof.
  unfold as_float. destruct v as [| b | z | x | | |]; simpl; try discriminate.
  - intros H G _. apply (int_lt_2_float _ _ H). destruct b; simpl; try lia.
    discriminate.
  - intros H G L. apply (int_lt_2_float _ _ H).
    unfold py_gt, py_lt, ordering in G, L. simpl in G, L.
    destruct (Z.compare_spec z 0); try discriminate.
    destruct (Z.compare_spec z 2); try discriminate. lia.
  - intros [= <-]. auto.
Qed.

Lemma invariants_floats m A C p g fm fA fC fp fg :
  floats_of m A C p g fm fA fC fp fg -> invariants m A C p g ->
  invariants (PyFloat fm) (PyFloat fA) (PyFloat fC) (PyFloat fp) (PyFloat fg).
Proof.
  intros [Hm HA HC Hp Hg] [Im IA Ig IC IC2 Ip].
  constructor; eauto using py_gt_0_float, py_ge_0_float, py_lt_2_float.
Qed.

(** * Monotonicity *)

(** ** Falls from two heights *)

Lemma py_mul_step a r : py_mul a step = Ok r -> exists d, r = PyFloat d.
Proof.
  unfold py_mul, arith, step.
  destruct (as_num a) as [[z | f] |]; simpl; try discriminate.
  - destruct (float_of_int z); simpl; try discriminate.
    intros [= <-]. eauto.
  - intros [= <-]. eauto.
Qed.





(** ** The clock *)

Lemma body_t m A C p g s s' :
  body m A C p g s = Ok s' -> py_add (t s) step = Ok (t s').
Proof.
  unfold body. intros H.
  repeat match type of H with
  | obind ?e _ = Ok _ =>
      match e with
      | py_add (t s) step => fail 1
      | _ => destruct e; simpl in H; try discriminate
      end
  end.
  destruct (py_add (t s) step); simpl in H; try discriminate.
  injection H as <-. reflexivity.
Qed.

Lemma zero_le_step : (0 <=? 0.01) = true.
Proof. reflexivity. Qed.



Lemma steps_S m A C p g n s s' :
  steps m A C p g (S n) s = Ok s' ->
  exists s1, body m A C p g s = Ok s1 /\ steps m A C p g n s1 = Ok s'.
Proof.
  simpl. destruct (body m A C p g s) as [s1 | |]; try discriminate. eauto.
Qed.



(** ** The queries *)



Lemma air_time_lands self m A C p g fuel h r :
  has_fields self m A C p g -> positive_number h ->
  result_of (air_time fuel h self) = Ok r ->
  exists n s, (n <= fuel)%nat /\ lands_after m A C p g (initial h) n s
    /\ py_round_2 (t s) = Ok r.
Proof.
  intros Hf Hh Hr. rewrite (air_time_unfold _ _ _ Hh) in Hr.
  destruct (result_of (_calculator fuel h self)) as [[tv sv] | |] eqn:Hc;
    try discriminate.
  destruct (_calculator_lands _ _ _ _ _ _ _ _ _ _ Hf Hc)
    as (n & s & Hn & Hl & -> & ->).
  exists n, s. split; [ exact Hn |]. split; [ exact Hl |].
  destruct (queries_at_landing _ _ _ _ _ _ _ _ _ fuel Hf Hh Hl) as [Q _].
  destruct (Q Hn) as [Q1 _].
  rewrite (air_time_unfold _ _ _ Hh), Hc in Q1. rewrite <- Q1. exact Hr.
Qed.



(** ** Runs from an int height, on int attributes *)

(** A pass reads the height next to a float as well. *)
Lemma body_as_float_height m A C p g s y :
  as_float (height s) = Ok y ->
  body m A C p g s
  = body m A C p g
      {| height := PyFloat y; v := v s; t := t s;
         time_vector := time_vector s; speed_vector := speed_vector s |}.
Proof.
  intros Hy. unfold body. cbn [height v t time_vector speed_vector].
  repeat match goal with
  | |- obind ?e _ = obind ?e _ =>
      match e with
      | py_mul _ step => fail 1
      | _ => destruct e; cbn [obind]; try reflexivity
      end
  end.
  match goal with
  | |- obind (py_mul ?acc step) _ = _ =>
      destruct (py_mul acc step) as [dv | |]; cbn [obind]; try reflexivity
  end.
  destruct (py_add (v s) dv) as [v' | |]; cbn [obind]; try reflexivity.
  destruct (py_mul v' step) as [dh | |] eqn:E; cbn [obind]; try reflexivity.
  destruct (py_mul_step _ _ E) as [d ->].
  rewrite (py_sub_field _ y d Hy), (py_sub_field (PyFloat y) y d eq_refl).
  reflexivity.
Qed.

Lemma read_only_run {X} (f : M X) self :
  read_only f -> f self = (result_of (f self), self).
Proof.
  intros H. specialize (H self). unfold state_of, result_of in *.
  destruct (f self) as [r self']. simpl in *. subst. reflexivity.
Qed.

(** The first pass, whatever the types of the attributes and the height. *)
Lemma first_pass_numbers m A C p g fm fA fC fp fg h y :
  floats_of m A C p g fm fA fC fp fg -> invariants m A C p g ->
  is_finite (0.5 * fC * fp * fA) = true ->
  as_float h = Ok y ->
  body m A C p g (initial h)
  = Ok {| height := PyFloat (y - fg * 0.01 * 0.01);
          v := PyFloat (fg * 0.01);
          t := PyFloat 0.01;
          time_vector := [PyInt 0; PyFloat 0.01];
          speed_vector := [PyInt 0; PyFloat (fg * 0.01)] |}.
Proof.
  intros F I K Hy.
  rewrite (body_as_float_height _ _ _ _ _ (initial h) y Hy).
  change {| height := PyFloat y; v := v (initial h); t := t (initial h);
            time_vector := time_vector (initial h);
            speed_vector := speed_vector (initial h) |}
    with (initial (PyFloat y)).
  rewrite (body_floats _ _ _ _ _ _ _ _ _ _ _ F).
  apply first_pass; [ exact (invariants_floats _ _ _ _ _ _ _ _ _ _ F I) | exact K ].
Qed.

Lemma while_loop_as_float_height self m A C p g fuel h y :
  has_fields self m A C p g ->
  as_float h = Ok y -> (0 <? y) = true ->
  while_loop fuel (initial h) self = while_loop fuel (initial (PyFloat y)) self.
Proof.
  intros Hf Hy P.
  destruct (positive_height h y Hy P) as [_ F].
  destruct (positive_height (PyFloat y) y eq_refl P) as [_ F'].
  destruct fuel as [| fuel]; cbn [while_loop]; rewrite !bind_lift;
    fold (falling (initial h)) (falling (initial (PyFloat y)));
    rewrite F, F'; [ reflexivity |].
  unfold bind. rewrite !(loop_body_body _ _ _ _ _ _ _ Hf).
  rewrite (body_as_float_height _ _ _ _ _ (initial h) y Hy). reflexivity.
Qed.

(** The queries on a number are the queries on its conversion. *)
Lemma queries_as_float_height self m A C p g fuel h y :
  has_fields self m A C p g ->
  as_float h = Ok y -> (0 <? y) = true ->
  air_time fuel h self = air_time fuel (PyFloat y) self
  /\ landing_speed fuel h self = landing_speed fuel (PyFloat y) self.
Proof.
  intros Hf Hy P.
  destruct (positive_height h y Hy P) as [[Hn Hle] _].
  destruct (positive_height (PyFloat y) y eq_refl P) as [[_ Hle'] _].
  unfold is_number in Hn. unfold air_time, landing_speed. rewrite Hn.
  cbn [negb isinstance_int_float]. rewrite !bind_lift, Hle, Hle'.
  unfold _calculator. fold (initial h) (initial (PyFloat y)). unfold bind.
  rewrite (while_loop_as_float_height _ _ _ _ _ _ _ _ _ Hf Hy P).
  split; reflexivity.
Qed.




(** ** The landing speed is not monotone *)


(** * The single-step regime *)

(** C5, as the code has it.  On an instance whose drag factor [0.5*C*p*A],
    as the loop computes it in binary64, is finite, a height, int or float,
    with [0 < height <= (gravity*0.01)*0.01], the product being the one the
    loop computes, is covered in exactly one pass: the loop lands after one
    step, and with any fuel [air_time] returns [0.01] and [landing_speed]
    returns [gravity*0.01] rounded to two decimals. *)
Theorem single_step_fall
    (self : obj) (m A C p g h : pyval) (fm fA fC fp fg y : float)
    (fuel : nat) :
  has_fields self m A C p g ->
  invariants m A C p g ->
  floats_of m A C p g fm fA fC fp fg ->
  is_finite (0.5 * fC * fp * fA) = true ->
  as_float h = Ok y ->
  (0 <? y) = true ->
  (y <=? fg * 0.01 * 0.01) = true ->
  (exists s,
     lands_after m A C p g (initial h) 1 s
     /\ t s = PyFloat 0.01 /\ v s = PyFloat (fg * 0.01))
  /\ air_time (S fuel) h self = (Ok (PyFloat 0.01), self)
  /\ landing_speed (S fuel) h self
     = (Ok (PyFloat (float_round_2 (fg * 0.01))), self).
Proof.
  intros Hf Hi F HK Hy Hpos Hle.
  pose proof (first_pass_numbers _ _ _ _ _ _ _ _ _ _ h y F Hi HK Hy) as Hb.
  destruct (positive_height h y Hy Hpos) as [Ph Fh].
  set (s1 := {| height := PyFloat (y - fg * 0.01 * 0.01);
                v := PyFloat (fg * 0.01); t := PyFloat 0.01;
                time_vector := [PyInt 0; PyFloat 0.01];
                speed_vector := [PyInt 0; PyFloat (fg * 0.01)] |}) in *.
  assert (Hl : lands_after m A C p g (initial h) 1 s1).
  { apply lands_after_later with (s1 := s1); [ exact Fh | exact Hb |].
    apply lands_after_now. unfold falling. simpl.
    rewrite py_gt_0_ltb, (sub_not_positive _ _ Hpos Hle). reflexivity. }
  split; [ exists s1; auto |].
  destruct (queries_at_landing _ _ _ _ _ _ _ _ _ (S fuel) Hf Ph Hl) as [Q _].
  destruct (Q ltac:(lia)) as [Q1 Q2].
  rewrite (read_only_run _ _ (read_only_air_time (S fuel) h)), Q1.
  rewrite (read_only_run _ _ (read_only_landing_speed (S fuel) h)), Q2.
  split; reflexivity.
Qed.

Lemma single_step_fall_witness :
  air_time 1 (PyFloat 1e-10) test_model = (Ok (PyFloat 0.01), test_model).
Proof.
  apply (single_step_fall test_model (PyInt 85) (PyFloat 0.7)
           default_drag_coef default_density default_gravity
           (PyFloat 1e-10) 85 0.7 1 1.2 9.81 1e-10 0
           (has_fields_new _ _ _ _ _)); try reflexivity.
  - constructor; reflexivity.
  - constructor; vm_compute; reflexivity.
Defined.

(** ** Outside the regime *)

(** When the drag factor overflows, the drag at speed zero is
    [inf * 0 = nan]: the loop still leaves after one pass, but with a NaN
    speed. *)
Lemma single_step_with_overflowing_drag :
  valid_model dense_model
  /\ positive_number (PyFloat 1e-10)
  /\ py_le (PyFloat 1e-10) (PyFloat (9.81 * 0.01 * 0.01)) = Ok true
  /\ result_of (air_time 10 (PyFloat 1e-10) dense_model) = Ok (PyFloat 0.01)
  /\ result_of (landing_speed 10 (PyFloat 1e-10) dense_model)
     = Ok (PyFloat nan)
  /\ py_round_2 (PyFloat (9.81 * 0.01)) = Ok (PyFloat 0.1).
Proof.
  split; [ apply valid_model_of; constructor; reflexivity |].
  split; [ split; reflexivity |].
  repeat split; by_evaluation.
Qed.

(** The bound is the product the loop computes: with gravity 3 the height
    [3 * 0.01**2] is above [(3*0.01)*0.01], and the fall from it takes two
    steps. *)
Lemma single_step_bound_is_as_computed :
  py_le (PyFloat (3 * (0.01 * 0.01))) (PyFloat (3 * 0.01 * 0.01)) = Ok false
  /\ result_of (air_time 10 (PyFloat (3 * (0.01 * 0.01)))
                  (model_of (PyInt 85) (PyFloat 0.7) default_drag_coef
                     default_density (PyInt 3))) = Ok (PyFloat 0.02).
Proof. repeat split; by_evaluation. Qed.

(** * Termination *)

(** ** A fall that never ends *)

(** Once the speed and its increment are both zero, a pass changes neither
    the height nor the speed. *)
Lemma stuck_pass x tv sv :
  body (PyInt 1) (PyInt 1) (PyInt 1) (PyInt 0) (PyFloat 5e-324)
    {| height := PyFloat 1; v := PyFloat 0; t := PyFloat x;
       time_vector := tv; speed_vector := sv |}
  = Ok {| height := PyFloat 1; v := PyFloat 0; t := PyFloat (x + 0.01);
          time_vector := tv ++ [PyFloat (x + 0.01)];
          speed_vector := sv ++ [PyFloat 0] |}.
Proof. reflexivity. Qed.

Lemma stuck_fields :
  has_fields stuck_model (PyInt 1) (PyInt 1) (PyInt 1) (PyInt 0)
    (PyFloat 5e-324).
Proof. apply has_fields_new. Qed.

Lemma stuck_loop fuel : forall x tv sv,
  while_loop fuel
    {| height := PyFloat 1; v := PyFloat 0; t := PyFloat x;
       time_vector := tv; speed_vector := sv |} stuck_model
  = (OutOfFuel, stuck_model).
Proof.
  induction fuel as [| fuel IH]; intros x tv sv; [ reflexivity |].
  erewrite while_loop_pass;
    [ apply IH | apply stuck_fields | reflexivity | apply stuck_pass ].
Qed.

(** In vacuum with gravity [5e-324] the speed stays zero and the loop never
    leaves: [air_time(1)] and [landing_speed(1)] give no answer, whatever
    the fuel. *)
Lemma vacuum_fall_may_not_terminate :
  valid_model stuck_model
  /\ py_eq (PyInt 0) (PyInt 0) = true
  /\ positive_number (PyInt 1)
  /\ (forall fuel,
        result_of (air_time fuel (PyInt 1) stuck_model) = OutOfFuel
        /\ result_of (landing_speed fuel (PyInt 1) stuck_model) = OutOfFuel).
Proof.
  split; [ apply valid_model_of; constructor; reflexivity |].
  split; [ reflexivity |]. split; [ split; reflexivity |].
  intros fuel.
  rewrite air_time_unfold, landing_speed_unfold by (split; reflexivity).
  assert (H : result_of (_calculator fuel (PyInt 1) stuck_model) = OutOfFuel).
  { unfold _calculator, result_of, bind. fold (initial (PyInt 1)).
    destruct fuel as [| fuel]; [ reflexivity |].
    erewrite while_loop_pass;
      [| apply stuck_fields | reflexivity | by_evaluation ].
    rewrite stuck_loop. reflexivity. }
  rewrite H. auto.
Qed.

(** ** Termination in vacuum *)

Lemma float_pow_2_finite x :
  is_finite x = true ->
  float_pow_2 x = Raise OverflowError
  \/ exists r, float_pow_2 x = Ok r /\ is_finite_SF (Prim2SF r) = true.
Proof.
  intros H. pose proof (is_finite_cases x H) as Cx.
  unfold is_finite in H. apply negb_true_iff, orb_false_iff in H as [N I].
  unfold float_pow_2. rewrite N, I.
  destruct (is_infinity (x * x)) eqn:I2; [ left; reflexivity | right ].
  exists (x * x). split; [ reflexivity |].
  pose proof (float_tests (x * x)) as T. pose proof (Prim2SF_valid x) as V.
  rewrite mul_spec in *. unfold SF64mul in *.
  destruct (Prim2SF x) as [s | ? | | s m e]; try contradiction;
    [ reflexivity |].
  rewrite (SFmul_finite s m e s m e V V) in *.
  pose proof (round_q_not_nan (xorb s s)
                (Z.pos m * 2 ^ (e + 1074) * (Z.pos m * 2 ^ (e + 1074)))
                (2 ^ 1074)) as NN.
  destruct (round_q _ _ _) as [? | [] | | ? ? ?]; try reflexivity;
    try contradiction; rewrite T in I2; discriminate.
Qed.

Lemma zero_mul_finite k r :
  is_zero_float (Prim2SF k) = true -> is_finite_SF (Prim2SF r) = true ->
  is_zero_float (Prim2SF (k * r)) = true.
Proof.
  rewrite mul_spec.
  destruct (Prim2SF k); try discriminate;
    destruct (Prim2SF r); try discriminate; reflexivity.
Qed.

Lemma py_eq_0_zero p :
  py_eq (PyFloat p) (PyInt 0) = true -> is_zero_float (Prim2SF p) = true.
Proof.
  unfold py_eq. simpl. unfold float_compare_int.
  destruct (Prim2SF p) as [s | [] | | s m e]; try discriminate;
    [ reflexivity |].
  destruct (0 <=? e)%Z eqn:He; destruct s; simpl; try discriminate.
  - assert ((- Z.pos m * 2 ^ e ?= 0)%Z = Lt) as ->; [| discriminate ].
    apply Z.compare_lt_iff, Z.mul_neg_pos; [ lia |].
    apply Z.pow_pos_nonneg; lia.
  - assert ((Z.pos m * 2 ^ e ?= 0)%Z = Gt) as ->; [| discriminate ].
    apply Z.compare_gt_iff, Z.mul_pos_pos; [ lia |].
    apply Z.pow_pos_nonneg; lia.
Qed.

(** An air density that equals zero converts to a zero. *)
Lemma py_eq_0_as_float p fp :
  as_float p = Ok fp -> py_eq p (PyInt 0) = true ->
  is_zero_float (Prim2SF fp) = true.
Proof.
  unfold as_float. destruct p as [| b | z | x | | |]; simpl; try discriminate.
  - destruct b; [ discriminate |]. intros H _.
    apply float_of_int_0 in H. subst fp. reflexivity.
  - intros H E. unfold py_eq in E. simpl in E.
    destruct (Z.compare_spec z 0); try discriminate. subst z.
    apply float_of_int_0 in H. subst fp. reflexivity.
  - intros [= <-]. apply py_eq_0_zero.
Qed.

(** Without air the drag factor is zero. *)
Lemma vacuum_factor C p A :
  is_zero_float (Prim2SF p) = true -> is_finite (0.5 * C * p * A) = true ->
  is_zero_float (Prim2SF (0.5 * C * p * A)) = true.
Proof.
  intros Hp HK. apply is_finite_cases in HK. revert HK.
  rewrite !(mul_spec _ A), !(mul_spec _ p).
  destruct (Prim2SF p) as [sp | | |]; try discriminate.
  destruct (Prim2SF (0.5 * C)) as [? | ? | | ? ? ?];
    destruct (Prim2SF A) as [? | ? | | ? ? ?]; simpl; auto.
Qed.

(** A pass in vacuum: the speed gains [g*0.01], the height loses the new
    speed times [0.01]; the square of the speed may overflow. *)
Lemma vacuum_body m A C p g fm fA fC fp fg s x y tau :
  floats_of m A C p g fm fA fC fp fg -> invariants m A C p g ->
  is_zero_float (Prim2SF (0.5 * fC * fp * fA)) = true ->
  v s = PyFloat x -> height s = PyFloat y -> t s = PyFloat tau ->
  is_finite x = true ->
  body m A C p g s = Raise OverflowError
  \/ body m A C p g s
     = Ok {| height := PyFloat (y - (x + fg * 0.01) * 0.01);
             v := PyFloat (x + fg * 0.01);
             t := PyFloat (tau + 0.01);
             time_vector := time_vector s ++ [PyFloat (tau + 0.01)];
             speed_vector := speed_vector s ++ [PyFloat (x + fg * 0.01)] |}.
Proof.
  intros F Hi HK Hv Hh Ht Fx.
  rewrite (body_floats _ _ _ _ _ _ _ _ _ _ s F).
  pose proof (invariants_floats _ _ _ _ _ _ _ _ _ _ F Hi) as [Im _ Ig _ _ _].
  apply py_gt_0_positive in Im, Ig.
  unfold body. rewrite Hv, Hh, Ht. unfold step, py_pow_2. cbn [as_num].
  destruct (float_pow_2_finite x Fx) as [-> | (r & -> & Fr)];
    [ left; reflexivity | right ].
  simpl. unfold py_truediv. simpl. rewrite (positive_not_zero _ Im). simpl.
  pose proof (zero_mul_finite _ _ HK Fr) as Z1.
  pose proof (div_0_positive _ _ Z1 Im) as Z2.
  rewrite (sub_positive_0 _ _ Ig Z2). reflexivity.
Qed.

Lemma vacuum_pass m A C p g fm fA fC fp fg q n s :
  floats_of m A C p g fm fA fC fp fg -> invariants m A C p g ->
  is_zero_float (Prim2SF (0.5 * fC * fp * fA)) = true ->
  (0 <? fg * 0.01) = true ->
  (forall d, (fg * 0.01 * 0.01 <=? d) = true ->
     pos_float (Prim2SF d) = true
     /\ (is_finite_SF (Prim2SF d) = true -> (q <= scaled (Prim2SF d))%Z)) ->
  vacuum_frame (fg * 0.01) q (S n) s -> falling s = Ok true ->
  body m A C p g s = Raise OverflowError
  \/ exists s',
       body m A C p g s = Ok s' /\ vacuum_frame (fg * 0.01) q n s'.
Proof.
  intros Ff Hi HK Pc Hq (x & y & tau & Hv & Hh & Ht & Lt & Lv & Hcx & Hfall) F.
  unfold falling in F. rewrite Hh, py_gt_0_ltb in F. injection F as F.
  destruct (Hfall F) as (Fx & my & ey & Ey & Qy & My).
  destruct (vacuum_body _ _ _ _ _ _ _ _ _ _ _ _ _ _ Ff Hi HK Hv Hh Ht Fx)
    as [-> | ->]; [ left; reflexivity | right ].
  eexists. split; [ reflexivity |].
  exists (x + fg * 0.01), (y - (x + fg * 0.01) * 0.01), (tau + 0.01).
  cbn [v height t time_vector speed_vector].
  split; [ reflexivity |]. split; [ reflexivity |]. split; [ reflexivity |].
  split; [ apply last_snoc |]. split; [ apply last_snoc |].
  assert (Hx' : (fg * 0.01 <=? x + fg * 0.01) = true).
  { apply leb_trans with x; [ exact Hcx |].
    apply add_le; apply ltb_leb; [| exact Pc ].
    exact (ltb_leb_trans _ _ _ Pc Hcx). }
  split; [ exact Hx' |]. intros Pos.
  destruct (Hq _ (mul_step_mono _ _ Pc Hx')) as [Pd Qd].
  destruct (sub_progress y my ey _ Ey Pd
              (fun Fd => Z.le_trans _ _ _ Qy (Qd Fd)) Pos)
    as (Fd & m' & e' & E' & Le & Lt').
  split; [ apply mul_step_finite; exact Fd |].
  exists m', e'. split; [ exact E' |].
  assert ((2 ^ (e' + 1074) <= 2 ^ (ey + 1074))%Z).
  { apply Z.pow_le_mono_r; [ lia |]. lia. }
  split; lia.
Qed.

Lemma while_loop_raise self m A C p g fuel s e :
  has_fields self m A C p g ->
  falling s = Ok true -> body m A C p g s = Raise e ->
  while_loop (S fuel) s self = (Raise e, self).
Proof.
  intros Hf F Hb. simpl. rewrite bind_lift. fold (falling s). rewrite F.
  unfold bind at 1. rewrite (loop_body_body _ _ _ _ _ _ _ Hf), Hb.
  reflexivity.
Qed.

(** In vacuum the loop ends within as many passes as the height counts
    units of [2^-1074]. *)
Lemma vacuum_loop self m A C p g fm fA fC fp fg q :
  has_fields self m A C p g ->
  floats_of m A C p g fm fA fC fp fg -> invariants m A C p g ->
  is_zero_float (Prim2SF (0.5 * fC * fp * fA)) = true ->
  (0 <? fg * 0.01) = true ->
  (forall d, (fg * 0.01 * 0.01 <=? d) = true ->
     pos_float (Prim2SF d) = true
     /\ (is_finite_SF (Prim2SF d) = true -> (q <= scaled (Prim2SF d))%Z)) ->
  forall n s fuel,
    vacuum_frame (fg * 0.01) q n s -> (n < fuel)%nat ->
    match result_of (while_loop fuel s self) with
    | Ok s' =>
        exists x tau,
          last (time_vector s') = Some (PyFloat tau)
          /\ last (speed_vector s') = Some (PyFloat x)
    | Raise e => e = OverflowError
    | OutOfFuel => False
    end.
Proof.
  intros Hf Ff Hi HK Pc Hq. induction n as [| n IH]; intros s fuel Hs Hfuel;
    (destruct fuel as [| fuel]; [ lia |]);
    pose proof Hs as (x & y & tau & Hv & Hh & Ht & Lt & Lv & Hcx & Hfall);
    (assert (F : falling s = Ok (0 <? y))
       by (unfold falling; rewrite Hh; apply py_gt_0_ltb));
    destruct (0 <? y) eqn:Pos;
    try (rewrite (lands_while_loop _ _ _ _ _ _ Hf 0 (S fuel) s s
                    (lands_after_now _ _ _ _ _ _ F) ltac:(lia));
         exists x, tau; rewrite Lt, Lv, Ht, Hv; auto).
  - destruct (Hfall eq_refl) as (_ & my & ey & Ey & _ & My).
    pose proof (Prim2SF_valid y) as Vy. rewrite Ey in Vy.
    apply bounded_inv in Vy as (Be & _).
    assert ((0 < 2 ^ (ey + 1074))%Z) by (apply Z.pow_pos_nonneg; lia).
    nia.
  - destruct (vacuum_pass _ _ _ _ _ _ _ _ _ _ _ _ _ Ff Hi HK Pc Hq Hs F)
      as [Hb | (s' & Hb & Hs')].
    + rewrite (while_loop_raise _ _ _ _ _ _ _ _ _ Hf F Hb). reflexivity.
    + rewrite (while_loop_pass _ _ _ _ _ _ _ _ _ Hf F Hb).
      apply IH; [ exact Hs' | lia ].
Qed.

Lemma positive_bound h d1 :
  (0 <? h) = true -> (h <=? d1 * 4503599627370496) = true ->
  (0 <? d1) = true.
Proof.
  intros Hh Hle.
  apply (mul_positive_inv d1 4503599627370496 4503599627370496 0);
    [ reflexivity |].
  exact (ltb_leb_trans _ _ _ Hh Hle).
Qed.

Lemma positive_leb_refl x : (0 <? x) = true -> (x <=? x) = true.
Proof.
  intros H. destruct (leb_refl x) as [E | ->]; [ exact E | discriminate ].
Qed.

(** C10, as the code has it.  On a valid instance without air whose drag
    factor [0.5*C*p*A], as the loop computes it in binary64, is finite, a
    height, int or float, whose conversion is finite with
    [0 < height <= 2^52 * ((gravity*0.01)*0.01)], the product being the
    first displacement as the loop computes it, is covered in finitely many
    passes: with enough fuel [air_time] and [landing_speed] return a float,
    or raise [OverflowError] when the square of the speed overflows. *)
Theorem vacuum_fall_terminates
    (self : obj) (m A C p g h : pyval) (fm fA fC fp fg y : float) :
  has_fields self m A C p g ->
  invariants m A C p g ->
  floats_of m A C p g fm fA fC fp fg ->
  py_eq p (PyInt 0) = true ->
  is_finite (0.5 * fC * fp * fA) = true ->
  as_float h = Ok y ->
  (0 <? y) = true -> is_finite y = true ->
  (y <=? fg * 0.01 * 0.01 * 4503599627370496) = true ->
  exists N, forall fuel, (N <= fuel)%nat ->
    returns_float_or_overflows (result_of (air_time fuel h self))
    /\ returns_float_or_overflows (result_of (landing_speed fuel h self)).
Proof.
  intros Hf Hi Ff Hp HK Hy Hpos Hfin Hle.
  pose proof (vacuum_factor _ _ _
                (py_eq_0_as_float _ _ (float_p _ _ _ _ _ _ _ _ _ _ Ff) Hp) HK)
    as HK0.
  pose proof (positive_bound _ _ Hpos Hle) as Pd1.
  pose proof (mul_positive_inv _ _ _ _ step_decoded Pd1) as Pc.
  destruct (positive_height h y Hy Hpos) as [Ph F].
  assert (Eh : exists m0 e0, Prim2SF y = S754_finite false m0 e0).
  { apply is_finite_cases in Hfin. rewrite <- pos_float_ltb in Hpos.
    destruct (Prim2SF y) as [? | ? | | [] m0 e0]; try discriminate;
      try contradiction. eauto. }
  destruct Eh as (m0 & e0 & Eh).
  pose proof (resolution y m0 e0 _ Eh Hle) as Hq.
  set (H0 := (Z.pos m0 * 2 ^ (e0 + 1074))%Z).
  exists (S (S (Z.to_nat H0))). intros fuel Hfuel.
  destruct fuel as [| fuel]; [ lia |].
  rewrite (air_time_unfold _ _ _ Ph), (landing_speed_unfold _ _ _ Ph).
  unfold _calculator, result_of. fold (initial h). unfold bind.
  pose proof (first_pass_numbers _ _ _ _ _ _ _ _ _ _ h y Ff Hi HK Hy) as Hb.
  set (s1 := {| height := PyFloat (y - fg * 0.01 * 0.01);
                v := PyFloat (fg * 0.01); t := PyFloat 0.01;
                time_vector := [PyInt 0; PyFloat 0.01];
                speed_vector := [PyInt 0; PyFloat (fg * 0.01)] |}) in *.
  rewrite (while_loop_pass _ _ _ _ _ _ _ _ _ Hf F Hb).
  assert (Hs : vacuum_frame (fg * 0.01) (2 ^ (e0 + 1074)) (Z.to_nat H0) s1).
  { exists (fg * 0.01), (y - fg * 0.01 * 0.01), 0.01.
    split; [ reflexivity |]. split; [ reflexivity |]. split; [ reflexivity |].
    split; [ reflexivity |]. split; [ reflexivity |].
    split; [ apply positive_leb_refl, Pc |]. intros Pos.
    destruct (Hq _ (positive_leb_refl _ Pd1)) as [Pd Qd].
    destruct (sub_progress y m0 e0 _ Eh Pd Qd Pos)
      as (Fd & m' & e' & E' & Le & Lt').
    split; [ apply mul_step_finite; exact Fd |].
    exists m', e'. split; [ exact E' |].
    split; [ apply Z.pow_le_mono_r; lia |].
    rewrite Z2Nat.id by (unfold H0; lia). unfold H0. lia. }
  pose proof (vacuum_loop _ _ _ _ _ _ _ _ _ _ _ _ Hf Ff Hi HK0 Pc Hq _ _ fuel
                Hs ltac:(lia)) as L.
  unfold result_of in L.
  destruct (while_loop fuel s1 self) as [[s' | e |] self']; simpl in L |- *.
  - destruct L as (x & tau & Et & Ev). unfold last_item.
    rewrite Et, Ev. simpl. auto.
  - subst e. simpl. auto.
  - contradiction.
Qed.

Lemma vacuum_fall_terminates_witness :
  exists N, forall fuel, (N <= fuel)%nat ->
    returns_float_or_overflows
      (result_of (air_time fuel (PyInt 100) vacuum_model))
    /\ returns_float_or_overflows
         (result_of (landing_speed fuel (PyInt 100) vacuum_model)).
Proof.
  apply (vacuum_fall_terminates vacuum_model (PyInt 85) (PyFloat 0.7)
           default_drag_coef (PyInt 0) default_gravity (PyInt 100)
           85 0.7 1 0 9.81 100).
  - apply has_fields_new.
  - constructor; reflexivity.
  - constructor; vm_compute; reflexivity.
  - reflexivity.
  - reflexivity.
  - vm_compute. reflexivity.
  - reflexivity.
  - reflexivity.
  - reflexivity.
Defined.

(** The overflow does happen: under gravity [1e160] the fall from [1e170]
    is within the bound, and its second pass squares the speed [1e158]. *)
Lemma vacuum_fall_may_overflow :
  valid_model violent_model
  /\ (1e170 <=? 1e160 * 0.01 * 0.01 * 4503599627370496) = true
  /\ result_of (air_time 10 (PyFloat 1e170) violent_model)
     = Raise OverflowError
  /\ result_of (landing_speed 10 (PyFloat 1e170) violent_model)
     = Raise OverflowError.
Proof.
  split; [ apply valid_model_of; constructor; reflexivity |].
  repeat split; by_evaluation.
Qed.

Local Open Scope Z_scope.

(** * Construction, mutation and [properties] together *)

Lemma properties_of_fields self m A C p g :
  has_fields self m A C p g ->
  properties self = (Ok (property_dict m A C p g), self).
Proof.
  intros []. unfold properties.
  repeat (erewrite bind_getattr by eassumption). reflexivity.
Qed.

(** X1. Construction and [properties] round-trip.  An instance returned by
    [Freefall(mass, area, drag_coef, density, gravity)] has exactly the five
    attributes [_m], [_A], [_C], [_p] and [_g], and [properties()] on it
    returns, without changing it, a dictionary with exactly the five
    documented keys, holding the five arguments as they were passed. *)
Theorem construction_round_trip
    (mass area drag_coef density gravity : pyval) (self : obj) :
  Freefall mass area drag_coef density gravity = Ok self ->
  dom self = ({["_m"; "_A"; "_C"; "_p"; "_g"]} : gset string)
  /\ exists d,
       properties self = (Ok d, self)
       /\ d !! "m (kg)" = Some mass
       /\ d !! "A (m^2)" = Some area
       /\ d !! "C" = Some drag_coef
       /\ d !! "p (kg/(m^3))" = Some density
       /\ d !! "g (m/(s^2))" = Some gravity
       /\ dom d = ({["m (kg)"; "A (m^2)"; "C"; "p (kg/(m^3))"; "g (m/(s^2))"]}
                   : gset string).
Proof.
  intros (-> & _)%Freefall_inv. split.
  - rewrite !dom_insert_L, dom_empty_L. set_solver.
  - eexists. split; [ apply properties_of_fields, has_fields_new |].
    repeat split; reflexivity.
Qed.

Lemma construction_round_trip_witness :
  dom test_model = ({["_m"; "_A"; "_C"; "_p"; "_g"]} : gset string)
  /\ exists d,
       properties test_model = (Ok d, test_model)
       /\ d !! "m (kg)" = Some (PyInt 85)
       /\ d !! "A (m^2)" = Some (PyFloat 0.7)
       /\ d !! "C" = Some (PyInt 1)
       /\ d !! "p (kg/(m^3))" = Some (PyFloat 1.2)
       /\ d !! "g (m/(s^2))" = Some (PyFloat 9.81)
       /\ dom d = ({["m (kg)"; "A (m^2)"; "C"; "p (kg/(m^3))"; "g (m/(s^2))"]}
                   : gset string).
Proof.
  apply (construction_round_trip (PyInt 85) (PyFloat 0.7) default_drag_coef
           default_density default_gravity).
  vm_compute. reflexivity.
Defined.

(** ** What the checks decide *)

Lemma number_or_not v : {is_number v} + {not_a_number v}.
Proof.
  unfold is_number, not_a_number.
  destruct (isinstance_int_float v); [ left | right ]; reflexivity.
Qed.

Lemma not_both v : is_number v -> not_a_number v -> False.
Proof. unfold is_number, not_a_number. congruence. Qed.

Lemma ordering_total test v k :
  is_number v ->
  ordering test v (PyInt k) = Ok true \/ ordering test v (PyInt k) = Ok false.
Proof.
  intros [[] E]%(ordering_number test v k); rewrite E; auto.
Qed.

(** The constructor on numbers, by the outcome of its six comparisons. *)
Lemma Freefall_on_numbers m A C p g cm cA cC cg cC2 cp :
  is_number m -> is_number A -> is_number C -> is_number p -> is_number g ->
  py_le m (PyInt 0) = Ok cm -> py_le A (PyInt 0) = Ok cA ->
  py_le C (PyInt 0) = Ok cC -> py_le g (PyInt 0) = Ok cg ->
  py_ge C (PyInt 2) = Ok cC2 -> py_lt p (PyInt 0) = Ok cp ->
  Freefall m A C p g
  = if cm || cA || cC || cg || cC2 || cp then Raise ValueError
    else Ok (model_of m A C p g).
Proof.
  unfold is_number, Freefall, __init__, for_each, bind, lift, raise, ret,
    setattr, model_of.
  intros -> -> -> -> -> -> -> -> -> -> ->.
  destruct cm, cA, cC, cg, cC2, cp; reflexivity.
Qed.

Lemma set_drag_coef_on_numbers C c1 c2 self :
  is_number C -> py_le C (PyInt 0) = Ok c1 -> py_ge C (PyInt 2) = Ok c2 ->
  set_drag_coef C self
  = if c1 || c2 then (Raise ValueError, self) else (Ok tt, <["_C" := C]> self).
Proof.
  unfold is_number, set_drag_coef, bind, lift, raise, ret, setattr.
  intros -> -> ->. destruct c1, c2; reflexivity.
Qed.

Lemma set_density_on_numbers p c self :
  is_number p -> py_lt p (PyInt 0) = Ok c ->
  set_density p self
  = if c then (Raise ValueError, self) else (Ok tt, <["_p" := p]> self).
Proof.
  unfold is_number, set_density, bind, lift, raise, ret, setattr.
  intros -> ->. destruct c; reflexivity.
Qed.

Lemma set_gravity_on_numbers g c self :
  is_number g -> py_le g (PyInt 0) = Ok c ->
  set_gravity g self
  = if c then (Raise ValueError, self) else (Ok tt, <["_g" := g]> self).
Proof.
  unfold is_number, set_gravity, bind, lift, raise, ret, setattr.
  intros -> ->. destruct c; reflexivity.
Qed.

Lemma set_size_on_numbers m A c1 c2 self :
  is_number m -> is_number A ->
  py_le m (PyInt 0) = Ok c1 -> py_le A (PyInt 0) = Ok c2 ->
  set_size m A self
  = if c1 || c2 then (Raise ValueError, self)
    else (Ok tt, <["_A" := A]> (<["_m" := m]> self)).
Proof.
  unfold is_number, set_size, bind, lift, raise, ret, setattr.
  intros -> -> -> ->. destruct c1, c2; reflexivity.
Qed.

Lemma set_drag_coef_not_number C self :
  not_a_number C -> set_drag_coef C self = (Raise TypeError, self).
Proof. unfold not_a_number, set_drag_coef. intros ->. reflexivity. Qed.

Lemma set_density_not_number p self :
  not_a_number p -> set_density p self = (Raise TypeError, self).
Proof. unfold not_a_number, set_density. intros ->. reflexivity. Qed.

Lemma set_gravity_not_number g self :
  not_a_number g -> set_gravity g self = (Raise TypeError, self).
Proof. unfold not_a_number, set_gravity. intros ->. reflexivity. Qed.

Lemma set_size_not_number m A self :
  not_a_number m \/ not_a_number A ->
  set_size m A self = (Raise TypeError, self).
Proof.
  unfold not_a_number, set_size.
  intros [-> | ->]; [| rewrite orb_true_r ]; reflexivity.
Qed.

Lemma Freefall_not_number m A C p g :
  not_a_number m \/ not_a_number A \/ not_a_number C \/ not_a_number p
  \/ not_a_number g ->
  Freefall m A C p g = Raise TypeError.
Proof.
  intros H. unfold Freefall.
  rewrite (type_check_first_init m A C p g ∅ H). reflexivity.
Qed.

(** X3. The outcome of the constructor, by its arguments alone.  It raises
    [TypeError] exactly when some argument is not an int, a bool or a float;
    it raises [ValueError] exactly when all five are numbers and one of
    [mass <= 0], [area <= 0], [drag_coef <= 0], [gravity <= 0],
    [drag_coef >= 2], [density < 0] holds; otherwise it returns the instance
    whose attributes are the five arguments.  There is no other outcome. *)
Theorem constructor_outcome (mass area drag_coef density gravity : pyval) :
  (Freefall mass area drag_coef density gravity = Raise TypeError
   <-> not_a_number mass \/ not_a_number area \/ not_a_number drag_coef
       \/ not_a_number density \/ not_a_number gravity)
  /\ (Freefall mass area drag_coef density gravity = Raise ValueError
      <-> (is_number mass /\ is_number area /\ is_number drag_coef
           /\ is_number density /\ is_number gravity)
          /\ (py_le mass (PyInt 0) = Ok true
              \/ py_le area (PyInt 0) = Ok true
              \/ py_le drag_coef (PyInt 0) = Ok true
              \/ py_le gravity (PyInt 0) = Ok true
              \/ py_ge drag_coef (PyInt 2) = Ok true
              \/ py_lt density (PyInt 0) = Ok true))
  /\ (Freefall mass area drag_coef density gravity
      = Ok (model_of mass area drag_coef density gravity)
      \/ Freefall mass area drag_coef density gravity = Raise TypeError
      \/ Freefall mass area drag_coef density gravity = Raise ValueError).
Proof.
  destruct (number_or_not mass) as [Hm | Hm];
    [ destruct (number_or_not area) as [HA | HA];
      [ destruct (number_or_not drag_coef) as [HC | HC];
        [ destruct (number_or_not density) as [Hp | Hp];
          [ destruct (number_or_not gravity) as [Hg | Hg] |] |] |] |].
  2-6: rewrite Freefall_not_number by auto 6;
    (split; [| split ]; [ split; auto 6 | split; [ discriminate |] | auto ]);
    intros [(? & ? & ? & ? & ?) _]; exfalso; eauto using not_both.
  destruct (ordering_number is_le mass 0 Hm) as [cm Em].
  destruct (ordering_number is_le area 0 HA) as [cA EA].
  destruct (ordering_number is_le drag_coef 0 HC) as [cC EC].
  destruct (ordering_number is_le gravity 0 Hg) as [cg Eg].
  destruct (ordering_number is_ge drag_coef 2 HC) as [cC2 EC2].
  destruct (ordering_number is_lt density 0 Hp) as [cp Ep].
  fold py_le in Em, EA, EC, Eg. fold py_ge in EC2. fold py_lt in Ep.
  rewrite (Freefall_on_numbers _ _ _ _ _ _ _ _ _ _ _ Hm HA HC Hp Hg
             Em EA EC Eg EC2 Ep).
  rewrite Em, EA, EC, Eg, EC2, Ep.
  split; [| split ].
  - split.
    + destruct (_ || _); discriminate.
    + intros [? | [? | [? | [? | ?]]]]; exfalso; eauto using not_both.
  - split.
    + intros H. split; [ auto |].
      destruct cm; [ auto |]. destruct cA; [ auto |].
      destruct cC; [ auto |]. destruct cg; [ auto 6 |].
      destruct cC2; [ auto 6 |]. destruct cp; [ auto 7 |].
      discriminate.
    + intros [_ H].
      destruct cm, cA, cC, cg, cC2, cp; try reflexivity; simpl in *;
        exfalso; intuition discriminate.
  - destruct (_ || _); auto.
Qed.

Ltac settle :=
  repeat match goal with
  | |- _ /\ _ => split
  | |- _ <-> _ => split
  end;
  intros;
  repeat match goal with
  | H : _ /\ _ |- _ => destruct H
  | H : _ \/ _ |- _ => destruct H
  end;
  try discriminate; try (exfalso; eauto using not_both; fail);
  auto.

(** X4. The outcome of every setter, by its arguments alone and on every
    instance.  A setter raises [TypeError], leaving the instance as it was,
    exactly when an argument is not a number; it raises [ValueError],
    leaving the instance as it was, exactly when the arguments are numbers
    and its range check fires ([drag_coef <= 0 or drag_coef >= 2],
    [density < 0], [gravity <= 0], [mass <= 0 or area <= 0]); and it returns
    after writing its attributes exactly when the arguments are numbers and
    the check does not fire. *)
Theorem setters_outcome
    (self : obj) (mass area drag_coef density gravity : pyval) :
  ((set_drag_coef drag_coef self = (Raise TypeError, self)
    <-> not_a_number drag_coef)
   /\ (set_drag_coef drag_coef self = (Raise ValueError, self)
       <-> is_number drag_coef
           /\ (py_le drag_coef (PyInt 0) = Ok true
               \/ py_ge drag_coef (PyInt 2) = Ok true))
   /\ (set_drag_coef drag_coef self = (Ok tt, <["_C" := drag_coef]> self)
       <-> is_number drag_coef
           /\ py_le drag_coef (PyInt 0) = Ok false
           /\ py_ge drag_coef (PyInt 2) = Ok false))
  /\ ((set_density density self = (Raise TypeError, self)
       <-> not_a_number density)
      /\ (set_density density self = (Raise ValueError, self)
          <-> is_number density /\ py_lt density (PyInt 0) = Ok true)
      /\ (set_density density self = (Ok tt, <["_p" := density]> self)
          <-> is_number density /\ py_lt density (PyInt 0) = Ok false))
  /\ ((set_gravity gravity self = (Raise TypeError, self)
       <-> not_a_number gravity)
      /\ (set_gravity gravity self = (Raise ValueError, self)
          <-> is_number gravity /\ py_le gravity (PyInt 0) = Ok true)
      /\ (set_gravity gravity self = (Ok tt, <["_g" := gravity]> self)
          <-> is_number gravity /\ py_le gravity (PyInt 0) = Ok false))
  /\ ((set_size mass area self = (Raise TypeError, self)
       <-> not_a_number mass \/ not_a_number area)
      /\ (set_size mass area self = (Raise ValueError, self)
          <-> (is_number mass /\ is_number area)
              /\ (py_le mass (PyInt 0) = Ok true
                  \/ py_le area (PyInt 0) = Ok true))
      /\ (set_size mass area self
          = (Ok tt, <["_A" := area]> (<["_m" := mass]> self))
          <-> (is_number mass /\ is_number area)
              /\ py_le mass (PyInt 0) = Ok false
              /\ py_le area (PyInt 0) = Ok false)).
Proof.
  split; [| split; [| split ]].
  - destruct (number_or_not drag_coef) as [H | H].
    + destruct (ordering_number is_le drag_coef 0 H) as [c1 E1].
      destruct (ordering_number is_ge drag_coef 2 H) as [c2 E2].
      fold py_le in E1. fold py_ge in E2.
      rewrite (set_drag_coef_on_numbers _ _ _ _ H E1 E2), E1, E2.
      destruct c1, c2; simpl; settle.
    + rewrite set_drag_coef_not_number by assumption. settle.
  - destruct (number_or_not density) as [H | H].
    + destruct (ordering_number is_lt density 0 H) as [c E].
      fold py_lt in E.
      rewrite (set_density_on_numbers _ _ _ H E), E.
      destruct c; simpl; settle.
    + rewrite set_density_not_number by assumption. settle.
  - destruct (number_or_not gravity) as [H | H].
    + destruct (ordering_number is_le gravity 0 H) as [c E].
      fold py_le in E.
      rewrite (set_gravity_on_numbers _ _ _ H E), E.
      destruct c; simpl; settle.
    + rewrite set_gravity_not_number by assumption. settle.
  - destruct (number_or_not mass) as [Hm | Hm];
      [ destruct (number_or_not area) as [HA | HA] |].
    + destruct (ordering_number is_le mass 0 Hm) as [c1 E1].
      destruct (ordering_number is_le area 0 HA) as [c2 E2].
      fold py_le in E1, E2.
      rewrite (set_size_on_numbers _ _ _ _ _ Hm HA E1 E2), E1, E2.
      destruct c1, c2; simpl; settle.
    + rewrite set_size_not_number by auto. settle.
    + rewrite set_size_not_number by auto. settle.
Qed.

(** A setter that returns on one instance returns on every instance, and
    writes its argument. *)
Lemma set_drag_coef_anywhere C self :
  result_of (set_drag_coef C self) = Ok tt ->
  forall self', set_drag_coef C self' = (Ok tt, <["_C" := C]> self').
Proof.
  destruct (set_drag_coef C self) as [r s] eqn:E. simpl. intros ->.
  apply set_drag_coef_inv in E as (_ & H & E1 & E2). intros self'.
  rewrite (set_drag_coef_on_numbers _ _ _ _ H E1 E2). reflexivity.
Qed.

Lemma set_density_anywhere p self :
  result_of (set_density p self) = Ok tt ->
  forall self', set_density p self' = (Ok tt, <["_p" := p]> self').
Proof.
  destruct (set_density p self) as [r s] eqn:E. simpl. intros ->.
  apply set_density_inv in E as (_ & H & E1). intros self'.
  rewrite (set_density_on_numbers _ _ _ H E1). reflexivity.
Qed.

Lemma set_gravity_anywhere g self :
  result_of (set_gravity g self) = Ok tt ->
  forall self', set_gravity g self' = (Ok tt, <["_g" := g]> self').
Proof.
  destruct (set_gravity g self) as [r s] eqn:E. simpl. intros ->.
  apply set_gravity_inv in E as (_ & H & E1). intros self'.
  rewrite (set_gravity_on_numbers _ _ _ H E1). reflexivity.
Qed.

Lemma set_size_anywhere m A self :
  result_of (set_size m A self) = Ok tt ->
  forall self',
    set_size m A self' = (Ok tt, <["_A" := A]> (<["_m" := m]> self')).
Proof.
  destruct (set_size m A self) as [r s] eqn:E. simpl. intros ->.
  apply set_size_inv in E as (_ & Hm & HA & E1 & E2). intros self'.
  rewrite (set_size_on_numbers _ _ _ _ _ Hm HA E1 E2). reflexivity.
Qed.

Ltac by_key :=
  apply map_eq; intros k;
  (destruct (decide (k = "_g")) as [-> |]; [ by simplify_map_eq |]);
  (destruct (decide (k = "_p")) as [-> |]; [ by simplify_map_eq |]);
  (destruct (decide (k = "_C")) as [-> |]; [ by simplify_map_eq |]);
  (destruct (decide (k = "_A")) as [-> |]; [ by simplify_map_eq |]);
  (destruct (decide (k = "_m")) as [-> |]; by simplify_map_eq).

Lemma overwrite_model a b c d e m A C p g :
  <["_g" := g]> (<["_p" := p]> (<["_C" := C]> (<["_A" := A]>
    (<["_m" := m]> (model_of a b c d e)))))
  = model_of m A C p g.
Proof. unfold model_of. by_key. Qed.

(** X5. The constructor and the setters accept the same values.
    [Freefall(mass, area, drag_coef, density, gravity)] returns an instance
    exactly when [set_size(mass, area)], [set_drag_coef(drag_coef)],
    [set_density(density)] and [set_gravity(gravity)] each return, on
    whatever instance; and the four setters, called in a row on any
    constructed instance, leave exactly the instance the constructor builds
    from these values. *)
Theorem constructor_agrees_with_setters
    (mass area drag_coef density gravity : pyval) :
  (forall self0,
     (exists self, Freefall mass area drag_coef density gravity = Ok self)
     <-> result_of (set_size mass area self0) = Ok tt
         /\ result_of (set_drag_coef drag_coef self0) = Ok tt
         /\ result_of (set_density density self0) = Ok tt
         /\ result_of (set_gravity gravity self0) = Ok tt)
  /\ (forall a b c d e self0 self,
        Freefall a b c d e = Ok self0 ->
        Freefall mass area drag_coef density gravity = Ok self ->
        (set_size mass area ;;; set_drag_coef drag_coef ;;;
         set_density density ;;; set_gravity gravity) self0
        = (Ok tt, self)).
Proof.
  split.
  - intros self0. split.
    + intros [self H].
      apply Freefall_inv in H
        as (_ & (Hm & HA & HC & Hp & Hg) & Em & EA & EC & Eg & EC2 & Ep).
      rewrite (set_size_on_numbers _ _ _ _ _ Hm HA Em EA),
        (set_drag_coef_on_numbers _ _ _ _ HC EC EC2),
        (set_density_on_numbers _ _ _ Hp Ep),
        (set_gravity_on_numbers _ _ _ Hg Eg).
      repeat split.
    + intros (H1 & H2 & H3 & H4).
      destruct (set_size mass area self0) as [r1 s1] eqn:E1.
      destruct (set_drag_coef drag_coef self0) as [r2 s2] eqn:E2.
      destruct (set_density density self0) as [r3 s3] eqn:E3.
      destruct (set_gravity gravity self0) as [r4 s4] eqn:E4.
      simpl in *. subst.
      apply set_size_inv in E1 as (_ & Hm & HA & Em & EA).
      apply set_drag_coef_inv in E2 as (_ & HC & EC & EC2).
      apply set_density_inv in E3 as (_ & Hp & Ep).
      apply set_gravity_inv in E4 as (_ & Hg & Eg).
      eexists.
      rewrite (Freefall_on_numbers _ _ _ _ _ _ _ _ _ _ _ Hm HA HC Hp Hg
                 Em EA EC Eg EC2 Ep).
      reflexivity.
  - intros a b c d e self0 self (-> & _)%Freefall_inv H.
    apply Freefall_inv in H
      as (-> & (Hm & HA & HC & Hp & Hg) & Em & EA & EC & Eg & EC2 & Ep).
    unfold bind.
    rewrite (set_size_on_numbers _ _ _ _ _ Hm HA Em EA). simpl.
    rewrite (set_drag_coef_on_numbers _ _ _ _ HC EC EC2). simpl.
    rewrite (set_density_on_numbers _ _ _ Hp Ep). simpl.
    rewrite (set_gravity_on_numbers _ _ _ Hg Eg). simpl.
    f_equal.
Qed.

(** X6. How setters compose, when each of them returns.  Calling a setter
    twice leaves what the second call alone leaves (the last write wins),
    and two different setters commute: either order leaves the same
    instance. *)
Theorem setters_compose (self : obj) :
  (forall C1 C2,
     result_of (set_drag_coef C1 self) = Ok tt ->
     result_of (set_drag_coef C2 self) = Ok tt ->
     (set_drag_coef C1 ;;; set_drag_coef C2) self = set_drag_coef C2 self)
  /\ (forall p1 p2,
        result_of (set_density p1 self) = Ok tt ->
        result_of (set_density p2 self) = Ok tt ->
        (set_density p1 ;;; set_density p2) self = set_density p2 self)
  /\ (forall g1 g2,
        result_of (set_gravity g1 self) = Ok tt ->
        result_of (set_gravity g2 self) = Ok tt ->
        (set_gravity g1 ;;; set_gravity g2) self = set_gravity g2 self)
  /\ (forall m1 A1 m2 A2,
        result_of (set_size m1 A1 self) = Ok tt ->
        result_of (set_size m2 A2 self) = Ok tt ->
        (set_size m1 A1 ;;; set_size m2 A2) self = set_size m2 A2 self)
  /\ (forall m A C p g,
        result_of (set_size m A self) = Ok tt ->
        result_of (set_drag_coef C self) = Ok tt ->
        result_of (set_density p self) = Ok tt ->
        result_of (set_gravity g self) = Ok tt ->
        (set_size m A ;;; set_drag_coef C) self
        = (set_drag_coef C ;;; set_size m A) self
        /\ (set_size m A ;;; set_density p) self
           = (set_density p ;;; set_size m A) self
        /\ (set_size m A ;;; set_gravity g) self
           = (set_gravity g ;;; set_size m A) self
        /\ (set_drag_coef C ;;; set_density p) self
           = (set_density p ;;; set_drag_coef C) self
        /\ (set_drag_coef C ;;; set_gravity g) self
           = (set_gravity g ;;; set_drag_coef C) self
        /\ (set_density p ;;; set_gravity g) self
           = (set_gravity g ;;; set_density p) self).
Proof.
  split; [| split; [| split; [| split ]]].
  - intros C1 C2 H1 H2. unfold bind.
    rewrite (set_drag_coef_anywhere _ _ H1). cbv beta iota.
    rewrite !(set_drag_coef_anywhere _ _ H2). f_equal. by_key.
  - intros p1 p2 H1 H2. unfold bind.
    rewrite (set_density_anywhere _ _ H1). cbv beta iota.
    rewrite !(set_density_anywhere _ _ H2). f_equal. by_key.
  - intros g1 g2 H1 H2. unfold bind.
    rewrite (set_gravity_anywhere _ _ H1). cbv beta iota.
    rewrite !(set_gravity_anywhere _ _ H2). f_equal. by_key.
  - intros m1 A1 m2 A2 H1 H2. unfold bind.
    rewrite (set_size_anywhere _ _ _ H1). cbv beta iota.
    rewrite !(set_size_anywhere _ _ _ H2). f_equal. by_key.
  - intros m A C p g Hs HC Hp Hg. unfold bind.
    repeat match goal with |- _ /\ _ => split end;
      repeat (first [ rewrite (set_size_anywhere _ _ _ Hs)
                    | rewrite (set_drag_coef_anywhere _ _ HC)
                    | rewrite (set_density_anywhere _ _ Hp)
                    | rewrite (set_gravity_anywhere _ _ Hg) ];
              cbv beta iota);
      f_equal; by_key.
Qed.

(** X2. A setter shows in [properties].  On an instance with the five
    attributes, a setter that returns, followed by [properties()], yields
    the dictionary with the new value under the key of the setter and the
    old values under the other keys; the instance differs from the old one
    in the attributes the setter writes, and in nothing else. *)
Theorem setters_show_in_properties (self : obj) (m A C p g : pyval) :
  has_fields self m A C p g ->
  (forall C', result_of (set_drag_coef C' self) = Ok tt ->
     (set_drag_coef C' ;;; properties) self
     = (Ok (property_dict m A C' p g), <["_C" := C']> self))
  /\ (forall p', result_of (set_density p' self) = Ok tt ->
        (set_density p' ;;; properties) self
        = (Ok (property_dict m A C p' g), <["_p" := p']> self))
  /\ (forall g', result_of (set_gravity g' self) = Ok tt ->
        (set_gravity g' ;;; properties) self
        = (Ok (property_dict m A C p g'), <["_g" := g']> self))
  /\ (forall m' A', result_of (set_size m' A' self) = Ok tt ->
        (set_size m' A' ;;; properties) self
        = (Ok (property_dict m' A' C p g),
           <["_A" := A']> (<["_m" := m']> self))).
Proof.
  intros Hf. split; [| split; [| split ]].
  - intros C' H. unfold bind.
    rewrite (set_drag_coef_anywhere _ _ H). cbv beta iota.
    apply properties_of_fields. eapply has_fields_set_C, Hf.
  - intros p' H. unfold bind.
    rewrite (set_density_anywhere _ _ H). cbv beta iota.
    apply properties_of_fields. eapply has_fields_set_p, Hf.
  - intros g' H. unfold bind.
    rewrite (set_gravity_anywhere _ _ H). cbv beta iota.
    apply properties_of_fields. eapply has_fields_set_g, Hf.
  - intros m' A' H. unfold bind.
    rewrite (set_size_anywhere _ _ _ H). cbv beta iota.
    apply properties_of_fields. eapply has_fields_set_mA, Hf.
Qed.

Lemma setters_show_in_properties_witness :
  (set_size (PyInt 80) (PyFloat 0.6) ;;; properties) test_model
  = (Ok (property_dict (PyInt 80) (PyFloat 0.6) default_drag_coef
           default_density default_gravity),
     <["_A" := PyFloat 0.6]> (<["_m" := PyInt 80]> test_model)).
Proof.
  apply (setters_show_in_properties test_model (PyInt 85) (PyFloat 0.7)
           default_drag_coef default_density default_gravity).
  - constructor; reflexivity.
  - reflexivity.
Defined.

(** * The check of the height *)

Lemma bind_never {A B} (m : M A) (k : A -> M B) e :
  (forall self, result_of (m self) <> Raise e) ->
  (forall a self, result_of (k a self) <> Raise e) ->
  forall self, result_of (bind m k self) <> Raise e.
Proof.
  intros Hm Hk self. unfold bind. specialize (Hm self).
  destruct (m self) as [[a | e' |] self']; unfold result_of in *; simpl in *;
    [ apply Hk | intros [= ->]; apply Hm; reflexivity | discriminate ].
Qed.

Lemma getattr_never name e :
  e <> AttributeError -> forall self, result_of (getattr name self) <> Raise e.
Proof.
  intros He self. unfold getattr. destruct (self !! name); simpl; congruence.
Qed.

Lemma to_float_raises n e : to_float n = Raise e -> e = OverflowError.
Proof.
  destruct n; simpl; [| discriminate ]. unfold float_of_int.
  destruct (is_infinity _); congruence.
Qed.

Lemma arith_raises iop fop a b e :
  arith iop fop a b = Raise e -> e = TypeError \/ e = OverflowError.
Proof.
  unfold arith.
  destruct (as_num a) as [x |]; [| intros [= <-]; auto ].
  destruct (as_num b) as [y |]; [| destruct x; intros [= <-]; auto ].
  assert (H : obind (to_float x) (fun fx =>
                obind (to_float y) (fun fy => Ok (PyFloat (fop fx fy))))
              = Raise e -> e = TypeError \/ e = OverflowError).
  { destruct (to_float x) eqn:Ex; simpl; try discriminate.
    - destruct (to_float y) eqn:Ey; simpl; try discriminate.
      intros [= <-]. right. eapply to_float_raises, Ey.
    - intros [= <-]. right. eapply to_float_raises, Ex. }
  destruct x, y; auto. discriminate.
Qed.

Lemma py_truediv_raises a b e :
  py_truediv a b = Raise e ->
  e = TypeError \/ e = OverflowError \/ e = ZeroDivisionError.
Proof.
  unfold py_truediv.
  destruct (as_num a) as [x |]; [| intros [= <-]; auto ].
  destruct (as_num b) as [y |]; [| destruct x; intros [= <-]; auto ].
  assert (H : obind (to_float x) (fun fx =>
                obind (to_float y) (fun fy =>
                  if is_zero fy then Raise ZeroDivisionError
                  else Ok (PyFloat (fx / fy)%float)))
              = Raise e ->
              e = TypeError \/ e = OverflowError \/ e = ZeroDivisionError).
  { destruct (to_float x) eqn:Ex; simpl; try discriminate.
    - destruct (to_float y) eqn:Ey; simpl; try discriminate.
      + destruct (is_zero _); [ intros [= <-]; auto | discriminate ].
      + intros [= <-]. right. left. eapply to_float_raises, Ey.
    - intros [= <-]. right. left. eapply to_float_raises, Ex. }
  destruct x as [x | x], y as [y | y]; auto.
  unfold int_true_divide. destruct (y =? 0); [ intros [= <-]; auto |].
  destruct x; simpl; try discriminate;
    destruct (is_infinity _); simpl; try discriminate; intros [= <-]; auto.
Qed.

Lemma py_pow_2_raises a e :
  py_pow_2 a = Raise e -> e = TypeError \/ e = OverflowError.
Proof.
  unfold py_pow_2. destruct (as_num a) as [[z | x] |];
    [ discriminate | | intros [= <-]; auto ].
  unfold float_pow_2.
  destruct (is_nan x); [ discriminate |].
  destruct (is_infinity x); [ discriminate |].
  destruct (is_infinity _); simpl; [ intros [= <-]; auto | discriminate ].
Qed.

Lemma ordering_raises test a b e :
  ordering test a b = Raise e -> e = TypeError.
Proof.
  unfold ordering. destruct (as_num a); [ destruct (as_num b) |]; congruence.
Qed.

Lemma last_item_raises l e : last_item l = Raise e -> e = IndexError.
Proof. unfold last_item. destruct (last l); congruence. Qed.

Lemma py_round_2_raises a e : py_round_2 a = Raise e -> e = TypeError.
Proof. destruct a; simpl; congruence. Qed.

Lemma lift_never {A} (x : outcome A) e :
  x <> Raise e -> forall self, result_of (lift x self) <> Raise e.
Proof. intros H self. exact H. Qed.

Ltac other_error :=
  let H := fresh in
  intros H;
  first [ apply arith_raises in H | apply py_truediv_raises in H
        | apply py_pow_2_raises in H | apply ordering_raises in H
        | apply last_item_raises in H | apply py_round_2_raises in H ];
  intuition discriminate.

Ltac never_raised :=
  repeat first
    [ apply bind_never; [| intros ? ]
    | apply getattr_never; discriminate
    | apply lift_never; other_error ].

Lemma loop_body_no_ValueError s self :
  result_of (loop_body s self) <> Raise ValueError.
Proof.
  revert self. unfold loop_body, py_mul, py_sub, py_add. never_raised.
  intros self. discriminate.
Qed.

Lemma while_loop_no_ValueError fuel : forall s self,
  result_of (while_loop fuel s self) <> Raise ValueError.
Proof.
  induction fuel as [| fuel IH]; intros s self; simpl.
  - revert self. unfold py_gt. apply bind_never; [ never_raised |].
    intros [] self'; discriminate.
  - revert self. unfold py_gt. apply bind_never; [ never_raised |].
    intros [] self'; [| discriminate ].
    revert self'. apply bind_never; [ apply loop_body_no_ValueError |].
    intros s' self'. apply IH.
Qed.

Lemma run_no_ValueError fuel h proj self :
  result_of
    (bind (_calculator fuel h) (fun r =>
       bind (lift (last_item (proj r))) (fun x => lift (py_round_2 x))) self)
  <> Raise ValueError.
Proof.
  revert self. apply bind_never.
  - unfold _calculator. apply bind_never.
    + apply while_loop_no_ValueError.
    + intros s self. discriminate.
  - intros r. never_raised.
Qed.

(** X7. [ValueError] is the height check and nothing else.  [air_time]
    and [landing_speed] raise [ValueError] exactly when the height is a
    number with [height <= 0], whatever the instance and the fuel: the
    simulation itself never raises [ValueError], and a height that fails
    the check is turned away before any attribute is read, the instance
    left as it was. *)
Theorem ValueError_is_the_height_check (fuel : nat) (h : pyval) (self : obj) :
  (result_of (air_time fuel h self) = Raise ValueError
   <-> is_number h /\ py_le h (PyInt 0) = Ok true)
  /\ (result_of (landing_speed fuel h self) = Raise ValueError
      <-> is_number h /\ py_le h (PyInt 0) = Ok true)
  /\ (is_number h -> py_le h (PyInt 0) = Ok true ->
      air_time fuel h self = (Raise ValueError, self)
      /\ landing_speed fuel h self = (Raise ValueError, self)).
Proof.
  unfold air_time, landing_speed.
  destruct (number_or_not h) as [H | H].
  - pose proof H as E. unfold is_number in E. rewrite E. simpl.
    destruct (ordering_number is_le h 0 H) as [c Ec]. fold py_le in Ec.
    rewrite !bind_lift, Ec.
    destruct c.
    + repeat split; auto.
    + split; [| split ].
      * split; [| intros [_ [=]] ].
        intros F. exfalso. revert F.
        apply (run_no_ValueError fuel h fst).
      * split; [| intros [_ [=]] ].
        intros F. exfalso. revert F.
        apply (run_no_ValueError fuel h snd).
      * discriminate.
  - pose proof H as E. unfold not_a_number in E. rewrite E. simpl.
    split; [| split ];
      [ split; [ discriminate | intros [? _]; exfalso; eauto using not_both ]
      | split; [ discriminate | intros [? _]; exfalso; eauto using not_both ]
      | intros ?; exfalso; eauto using not_both ].
Qed.

(** X8. A NaN height is not simulated.  NaN passes the check
    [height <= 0] and fails the loop condition [height > 0]: on every
    instance, even one without attributes, and with any fuel, [_calculator]
    returns [([0], [0])] and both queries return the int [0].  NaN is the
    only number that does so. *)
Theorem nan_height_is_not_simulated (fuel : nat) (self : obj) :
  _calculator fuel (PyFloat nan) self = (Ok ([PyInt 0], [PyInt 0]), self)
  /\ air_time fuel (PyFloat nan) self = (Ok (PyInt 0), self)
  /\ landing_speed fuel (PyFloat nan) self = (Ok (PyInt 0), self)
  /\ (forall h, is_number h ->
        py_le h (PyInt 0) = Ok false -> py_gt h (PyInt 0) = Ok false ->
        h = PyFloat nan).
Proof.
  repeat split; try (destruct fuel; reflexivity).
  intros h Hn Hle Hgt.
  destruct h as [| b | z | f | | |]; try discriminate.
  - destruct b; discriminate.
  - unfold py_le, py_gt, ordering in *. simpl in *.
    destruct (z ?= 0); discriminate.
  - unfold py_le, py_gt, ordering in *. simpl in *.
    unfold float_compare_int in *.
    destruct (Prim2SF f) as [s | s | | s m e] eqn:E.
    + simpl in *. discriminate.
    + destruct s; discriminate.
    + f_equal. apply Prim2SF_nan, E.
    + cbv zeta in *.
      destruct (if 0 <=? e then _ else _); simpl in *; discriminate.
Qed.

(** * The quotient of two ints *)

(** The position of a remainder does not depend on the parity of the
    divisor. *)
Lemma new_location_double b r :
  0 <= r < b -> new_location b r = new_location (2 * b) (2 * r).
Proof.
  intros Hr. unfold new_location.
  assert (E2 : Z.even (2 * b) = true) by (rewrite Z.even_mul; reflexivity).
  rewrite E2. unfold new_location_even, new_location_odd.
  replace (2 * r =? 0) with (r =? 0) by (destruct r; reflexivity).
  assert (C : (2 * (2 * r) ?= 2 * b) = (2 * r ?= b)).
  { replace (2 * (2 * r)) with (2 * r * 2) by ring.
    replace (2 * b) with (b * 2) by ring.
    symmetry. apply Zmult_compare_compat_r. lia. }
  rewrite C.
  destruct (Z.even b) eqn:Eb; [ reflexivity |].
  destruct (r =? 0); [ reflexivity |]. f_equal.
  assert (Ob : Z.odd b = true) by (rewrite <- Z.negb_even, Eb; reflexivity).
  apply Z.odd_spec in Ob as [c Ec].
  destruct (Z.compare_spec (2 * r + 1) b), (Z.compare_spec (2 * r) b);
    try reflexivity; lia.
Qed.

Lemma binary_round_aux_any s m e b r k :
  0 < m -> 0 <= r < b ->
  e <= fexp prec emax (Zdigits2 m + e) -> 1074 <= k -> 0 <= e + k ->
  binary_round_aux prec emax s m e (new_location b r)
  = round_q s ((m * b + r) * 2 ^ (e + k)) (b * 2 ^ (k - 1074)).
Proof.
  intros Hm Hr Hfe Hk Hek.
  assert (P : 0 < 2 ^ (k - 1074)) by (apply Z.pow_pos_nonneg; lia).
  rewrite (new_location_double b r Hr).
  rewrite (binary_round_aux_q s m e (2 * b) (2 * r) k);
    try lia; try assumption;
    [| rewrite (Z.even_mul 2 b); reflexivity ].
  replace ((m * (2 * b) + 2 * r) * 2 ^ (e + k))
    with ((m * b + r) * 2 ^ (e + k) * 2) by ring.
  replace (2 * b * 2 ^ (k - 1074)) with (b * 2 ^ (k - 1074) * 2) by ring.
  apply round_q_scale; nia.
Qed.

(** A quotient below one, at the least exponent. *)
Lemma binary_round_aux_small s b r :
  0 <= r < b ->
  binary_round_aux prec emax s 0 (-1074) (new_location b r) = round_q s r b.
Proof.
  intros Hr. rewrite (new_location_double b r Hr).
  assert (Hr2 : 0 <= 2 * r < 2 * b) by lia.
  assert (Hb2 : Z.even (2 * b) = true)
    by (rewrite (Z.even_mul 2 b); reflexivity).
  destruct (record_of_remainder 0 (2 * b) (2 * r) Hr2 Hb2)
    as (r0 & s0 & E1 & _ & E2).
  unfold binary_round_aux, shr_fexp. rewrite fexp_64.
  change (Zdigits2 0) with 0.
  change (Z.max (0 + -1074 - 53) (-1074) - -1074) with 0.
  rewrite shr_0 by lia. rewrite E1. simpl shr_m. rewrite E2.
  replace (0 * (2 * b) + 2 * r) with (r * 2) by ring.
  replace (2 * b) with (b * 2) by ring.
  rewrite div_half_even_scale by lia.
  unfold round_q. rewrite Z.div_small by lia.
  change (Z.max (Z.log2 0 + 1 - 53) 0) with 0.
  change (2 ^ 0) with 1. rewrite Z.mul_1_r.
  pose proof (div_half_even_bounds r b ltac:(lia)) as B.
  rewrite Z.div_small in B by lia.
  set (q := div_half_even r b) in *.
  assert (Hq : q = 0 \/ q = 1) by lia.
  destruct Hq as [-> | ->]; reflexivity.
Qed.

(** The quotient of two positive ints is the nearest float to it. *)
Lemma SFdiv_ints s1 x s2 y :
  SFdiv prec emax (S754_finite s1 x 0) (S754_finite s2 y 0)
  = round_q (xorb s1 s2) (Z.pos x * 2 ^ 1074) (Z.pos y).
Proof.
  unfold SFdiv, SFdiv_core_binary. rewrite fexp_64.
  pose proof (Zdigits2_log2 (Z.pos x) ltac:(lia)) as Hd1.
  pose proof (log2_bounds (Z.pos x) ltac:(lia)) as [X1 X2].
  pose proof (Z.log2_nonneg (Z.pos x)) as X0.
  pose proof (Zdigits2_log2 (Z.pos y) ltac:(lia)) as Hd2.
  pose proof (log2_bounds (Z.pos y) ltac:(lia)) as [Y1 Y2].
  pose proof (Z.log2_nonneg (Z.pos y)) as Y0.
  set (d1 := Zdigits2 (Z.pos x)) in *.
  set (d2 := Zdigits2 (Z.pos y)) in *.
  replace (Z.log2 (Z.pos x)) with (d1 - 1) in X1, X2 by lia.
  replace (d1 - 1 + 1) with d1 in X2 by lia.
  replace (Z.log2 (Z.pos y)) with (d2 - 1) in Y1, Y2 by lia.
  replace (d2 - 1 + 1) with d2 in Y2 by lia.
  replace (d1 + 0 - (d2 + 0)) with (d1 - d2) by lia.
  replace (0 - 0) with 0 by lia.
  set (e' := Z.min (Z.max (d1 - d2 - 53) (-1074)) 0).
  assert (He' : -1074 <= e' <= 0) by (unfold e'; lia).
  assert (Hm' : match 0 - e' with
                | Z.pos _ => Z.shiftl (Z.pos x) (0 - e')
                | 0 => Z.pos x
                | Z.neg _ => 0
                end = Z.pos x * 2 ^ (- e')).
  { destruct (0 - e') as [| p | p] eqn:E; try lia.
    - replace (- e') with 0 by lia. lia.
    - rewrite <- E, Z.shiftl_mul_pow2 by lia. f_equal. }
  rewrite Hm'.
  set (m' := Z.pos x * 2 ^ (- e')).
  assert (P : 0 < 2 ^ (- e')) by (apply Z.pow_pos_nonneg; lia).
  assert (Pm : 0 < m') by (unfold m'; nia).
  assert (T : 0 < 2 ^ 52) by (apply Z.pow_pos_nonneg; lia).
  assert (Big : -1074 < e' -> 2 ^ 52 * Z.pos y <= m').
  { intros G. unfold m'.
    assert (Pd : 0 < 2 ^ d2) by (apply Z.pow_pos_nonneg; lia).
    assert (2 ^ 52 * 2 ^ d2 <= Z.pos x * 2 ^ (- e')); [| nia ].
    rewrite <- Z.pow_add_r by lia.
    destruct (Z_le_gt_dec (d1 - d2 - 53) 0) as [L | L].
    - assert (- e' = 53 + d2 - d1) as -> by (unfold e' in *; lia).
      replace (52 + d2) with ((d1 - 1) + (53 + d2 - d1)) by lia.
      rewrite (Z.pow_add_r 2 (d1 - 1) (53 + d2 - d1)) by lia.
      apply Z.mul_le_mono_nonneg_r; lia.
    - assert (- e' = 0) as -> by (unfold e'; lia).
      change (2 ^ 0) with 1. rewrite Z.mul_1_r.
      transitivity (2 ^ (d1 - 1)); [ apply Z.pow_le_mono_r; lia | lia ]. }
  pose proof (Z_div_mod m' (Z.pos y) eq_refl) as DM.
  destruct (Z.div_eucl m' (Z.pos y)) as [q r]. destruct DM as [Em Hr].
  assert (Hq0 : 0 <= q) by nia.
  destruct (Z.eq_dec q 0) as [-> | Nq].
  - assert (E : e' = -1074).
    { destruct (Z.eq_dec e' (-1074)) as [E | N]; [ exact E |].
      specialize (Big ltac:(lia)). nia. }
    rewrite E. rewrite binary_round_aux_small by exact Hr.
    f_equal. unfold m' in Em. rewrite E in Em. simpl Z.opp in Em. lia.
  - rewrite (binary_round_aux_any _ q e' (Z.pos y) r 1074);
      try lia.
    + change (2 ^ (1074 - 1074)) with 1. rewrite Z.mul_1_r.
      f_equal. replace (q * Z.pos y + r) with m' by lia. unfold m'.
      rewrite <- Z.mul_assoc, <- Z.pow_add_r by lia. f_equal. f_equal. lia.
    + rewrite fexp_64.
      destruct (Z.eq_dec e' (-1074)) as [E | N]; [ lia |].
      specialize (Big ltac:(lia)).
      assert (Hq : 2 ^ 52 <= q) by nia.
      assert (53 <= Zdigits2 q); [| lia ].
      rewrite Zdigits2_log2 by lia.
      assert (52 <= Z.log2 q); [| lia ].
      apply Z.log2_le_pow2; lia.
Qed.

Local Open Scope float_scope.

(** * The clock of the simulation *)

Lemma clock_S k : py_add (clock k) step = Ok (clock (S k)).
Proof. destruct k; reflexivity. Qed.

Lemma steps_ticks m A C p g n : forall s s' k,
  steps m A C p g n s = Ok s' -> t s = clock k ->
  t s' = clock (k + n)
  /\ time_vector s' = time_vector s ++ map clock (seq (S k) n).
Proof.
  induction n as [| n IH]; intros s s' k Hs Ht.
  - injection Hs as <-. rewrite Nat.add_0_r, app_nil_r. auto.
  - apply steps_S in Hs as (s1 & Hb & Hs).
    pose proof (body_t _ _ _ _ _ _ _ Hb) as Et.
    rewrite Ht, clock_S in Et. injection Et as Et.
    destruct (body_records _ _ _ _ _ _ _ Hb) as [Ev _].
    destruct (IH s1 s' (S k) Hs (eq_sym Et)) as [E1 E2].
    split.
    + rewrite E1. f_equal. lia.
    + rewrite E2, Ev, <- Et, <- app_assoc. reflexivity.
Qed.

Lemma tick_bounds n :
  (0 <=? tick n) = true /\ ((1 <= n)%nat -> (0.01 <=? tick n) = true).
Proof.
  induction n as [| n [IH0 IH1]].
  - split; [ reflexivity | lia ].
  - change (tick (S n)) with (tick n + 0.01).
    pose proof (add_le (tick n) 0.01 IH0 zero_le_step) as L.
    split; [ eapply leb_trans; eassumption |].
    intros _. destruct n as [| n]; [ reflexivity |].
    eapply leb_trans; [ apply IH1; lia | exact L ].
Qed.

Lemma ordering_Ok_number test a b c :
  ordering test a b = Ok c -> is_number a.
Proof.
  unfold ordering, is_number.
  destruct a; try discriminate; reflexivity.
Qed.

Lemma falling_height h :
  py_gt h (PyInt 0) = Ok true ->
  positive_number h /\ falling (initial h) = Ok true.
Proof.
  intros H. split; [| exact H ]. split.
  - eapply ordering_Ok_number, H.
  - apply py_gt_not_le, H.
Qed.

Lemma lands_after_falling m A C p g s n s' :
  falling s = Ok true -> lands_after m A C p g s n s' -> (1 <= n)%nat.
Proof.
  intros Hf (Hs & Hl & _). destruct n; [| lia ].
  injection Hs as <-. congruence.
Qed.

(** X9. The time vector is a clock.  When [_calculator] returns, after [n]
    passes, its time vector is [[0, tick 1, ..., tick n]], where [tick k] is
    the binary64 sum of [k] steps of [0.01]: it depends on the attributes and
    on the height through its length alone.  The speed vector has the same
    length, and a positive height takes at least one pass. *)
Theorem time_vector_is_the_clock
    (self : obj) (m A C p g : pyval) (fuel : nat) (h : pyval)
    (tv sv : list pyval) :
  has_fields self m A C p g ->
  result_of (_calculator fuel h self) = Ok (tv, sv) ->
  exists n,
    (n <= fuel)%nat
    /\ tv = map clock (seq 0 (S n))
    /\ length sv = S n
    /\ (py_gt h (PyInt 0) = Ok true -> (1 <= n)%nat).
Proof.
  intros Hf H.
  destruct (_calculator_lands _ _ _ _ _ _ _ _ _ _ Hf H)
    as (n & s & Hn & Hl & -> & ->).
  exists n. split; [ exact Hn |].
  pose proof Hl as (Hs & _).
  destruct (steps_ticks _ _ _ _ _ _ _ _ 0%nat Hs eq_refl) as [_ Ev].
  destruct (steps_records _ _ _ _ _ _ _ _ Hs) as (_ & Lv & _).
  split; [ exact Ev |]. split.
  - rewrite Lv. simpl. lia.
  - intros Hh. eapply lands_after_falling; [| exact Hl ]. exact Hh.
Qed.

Lemma time_vector_is_the_clock_witness :
  exists n,
    (n <= 10)%nat
    /\ [PyInt 0; PyFloat 0.01] = map clock (seq 0 (S n))
    /\ length [PyInt 0; PyFloat (9.81 * 0.01)] = S n
    /\ (py_gt (PyFloat 1e-10) (PyInt 0) = Ok true -> (1 <= n)%nat).
Proof.
  apply (time_vector_is_the_clock test_model (PyInt 85) (PyFloat 0.7)
           default_drag_coef default_density default_gravity 10
           (PyFloat 1e-10)).
  - constructor; reflexivity.
  - vm_compute. reflexivity.
Defined.

(** X10. [air_time] counts the passes.  On a positive height, when
    [air_time] returns, the loop has made [n >= 1] passes and the result is
    the float [round(tick n, 2)], which is at least [0.01]. *)
Theorem air_time_counts_the_passes
    (self : obj) (m A C p g : pyval) (fuel : nat) (h r : pyval) :
  has_fields self m A C p g ->
  py_gt h (PyInt 0) = Ok true ->
  result_of (air_time fuel h self) = Ok r ->
  exists n s,
    (1 <= n <= fuel)%nat
    /\ lands_after m A C p g (initial h) n s
    /\ r = PyFloat (float_round_2 (tick n))
    /\ (0.01 <=? float_round_2 (tick n)) = true.
Proof.
  intros Hf Hh Hr. destruct (falling_height h Hh) as [Hp Hi].
  destruct (air_time_lands _ _ _ _ _ _ _ _ _ Hf Hp Hr)
    as (n & s & Hn & Hl & Er).
  pose proof (lands_after_falling _ _ _ _ _ _ _ _ Hi Hl) as H1.
  exists n, s. split; [ lia |]. split; [ exact Hl |].
  pose proof Hl as (Hs & _).
  destruct (steps_ticks _ _ _ _ _ _ _ _ 0%nat Hs eq_refl) as [Et _].
  simpl in Et. rewrite Et in Er. destruct n as [| n]; [ lia |].
  simpl in Er. injection Er as <-. split; [ reflexivity |].
  destruct (tick_bounds (S n)) as [_ Hb].
  change 0.01 with (float_round_2 0.01) at 1.
  apply float_round_2_mono; [ reflexivity | apply Hb; lia ].
Qed.

Lemma air_time_counts_the_passes_witness :
  exists n s,
    (1 <= n <= 100)%nat
    /\ lands_after (PyInt 85) (PyFloat 0.7) default_drag_coef default_density
         default_gravity (initial (PyInt 1)) n s
    /\ PyFloat 0.45 = PyFloat (float_round_2 (tick n))
    /\ (0.01 <=? float_round_2 (tick n)) = true.
Proof.
  apply (air_time_counts_the_passes test_model (PyInt 85) (PyFloat 0.7)
           default_drag_coef default_density default_gravity 100 (PyInt 1)).
  - constructor; reflexivity.
  - reflexivity.
  - vm_compute. reflexivity.
Defined.

(** * What the queries return on a valid instance *)

Lemma obind_never {A B} (x : outcome A) (k : A -> outcome B) e :
  x <> Raise e -> (forall a, k a <> Raise e) -> obind x k <> Raise e.
Proof.
  intros Hx Hk. destruct x as [a | e' |]; simpl;
    [ apply Hk | intros [= ->]; apply Hx; reflexivity | discriminate ].
Qed.

Lemma ltb_0_not_zero y : (0 <? y) = true -> is_zero y = false.
Proof.
  intros H. apply positive_not_zero. rewrite pos_float_ltb. exact H.
Qed.

(** A positive divisor never raises [ZeroDivisionError]. *)
Lemma py_truediv_positive d m :
  py_gt m (PyInt 0) = Ok true -> py_truediv d m <> Raise ZeroDivisionError.
Proof.
  intros Hm.
  assert (Hf : forall fm, as_float m = Ok fm -> is_zero fm = false).
  { intros fm E. apply ltb_0_not_zero.
    pose proof (py_gt_0_as_float m fm E) as G. congruence. }
  unfold py_truediv. unfold as_float in Hf.
  destruct (as_num d) as [x |]; [| discriminate ].
  destruct (as_num m) as [y |] eqn:Ey; [| destruct x; discriminate ].
  assert (H : obind (to_float x) (fun fx =>
                obind (to_float y) (fun fy =>
                  if is_zero fy then Raise ZeroDivisionError
                  else Ok (PyFloat (fx / fy))))
              <> Raise ZeroDivisionError).
  { apply obind_never.
    - intros E%to_float_raises. discriminate.
    - intros fx. destruct (to_float y) as [fy | e |] eqn:E; simpl.
      + rewrite (Hf fy eq_refl). discriminate.
      + apply to_float_raises in E. congruence.
      + discriminate. }
  destruct x as [x | x], y as [y | y]; try exact H.
  assert (Hy : (0 < y)%Z).
  { unfold py_gt, ordering in Hm. rewrite Ey in Hm. simpl in Hm.
    destruct (y ?= 0)%Z eqn:Ec; try discriminate.
    apply Z.compare_gt_iff in Ec. lia. }
  unfold int_true_divide.
  destruct (Z.eqb_spec y 0) as [-> | _]; [ lia |].
  destruct x; simpl; try discriminate;
    destruct (is_infinity _); discriminate.
Qed.

Ltac not_this_error :=
  let H := fresh in
  intros H;
  first [ apply arith_raises in H | apply py_pow_2_raises in H ];
  intuition discriminate.

Lemma body_no_ZeroDivisionError m A C p g s :
  py_gt m (PyInt 0) = Ok true ->
  body m A C p g s <> Raise ZeroDivisionError.
Proof.
  intros Hm. unfold body, py_mul, py_sub, py_add.
  repeat first
    [ apply obind_never; [| intros ? ]
    | apply py_truediv_positive; exact Hm
    | not_this_error
    | discriminate ].
Qed.

Lemma while_loop_raises self m A C p g e fuel :
  has_fields self m A C p g ->
  e <> TypeError ->
  (forall s, body m A C p g s <> Raise e) ->
  forall s, result_of (while_loop fuel s self) <> Raise e.
Proof.
  intros Hf He Hb. induction fuel as [| fuel IH]; intros s.
  - simpl. rewrite bind_lift.
    destruct (py_gt (height s) (PyInt 0)) as [[] | e' |] eqn:E;
      try discriminate.
    apply ordering_raises in E. simpl. congruence.
  - destruct (falling s) as [[] | e' |] eqn:E.
    + destruct (body m A C p g s) as [s1 | e' |] eqn:B.
      * rewrite (while_loop_pass _ _ _ _ _ _ _ _ _ Hf E B). apply IH.
      * rewrite (while_loop_raise _ _ _ _ _ _ _ _ _ Hf E B). simpl.
        intros [= ->]. eapply Hb, B.
      * simpl. rewrite bind_lift. unfold falling in E. rewrite E.
        unfold bind. rewrite (loop_body_body _ _ _ _ _ _ _ Hf), B.
        discriminate.
    + simpl. rewrite bind_lift. unfold falling in E. rewrite E. discriminate.
    + simpl. rewrite bind_lift. unfold falling in E. rewrite E.
      apply ordering_raises in E. simpl. congruence.
    + simpl. rewrite bind_lift. unfold falling in E. rewrite E. discriminate.
Qed.

Lemma body_speed m A C p g s s' :
  body m A C p g s = Ok s' -> exists x, v s' = PyFloat x.
Proof.
  unfold body. intros H.
  repeat match type of H with
  | obind ?e _ = Ok _ =>
      match e with
      | py_mul _ step => fail 1
      | _ => destruct e; simpl in H; try discriminate
      end
  end.
  match type of H with
  | obind (py_mul ?acc step) _ = _ =>
      destruct (py_mul acc step) as [dv | |] eqn:E1; simpl in H;
      try discriminate
  end.
  destruct (py_mul_step _ _ E1) as [d ->].
  destruct (py_add (v s) (PyFloat d)) as [v' | |] eqn:E2; simpl in H;
    try discriminate.
  unfold py_add in E2. rewrite arith_float_r in E2.
  destruct (as_float (v s)); simpl in E2; try discriminate.
  injection E2 as <-.
  repeat match type of H with
  | obind ?e _ = Ok _ => destruct e; simpl in H; try discriminate
  end.
  injection H as <-. simpl. eauto.
Qed.

Lemma steps_speed m A C p g n : forall s s',
  steps m A C p g (S n) s = Ok s' -> exists x, v s' = PyFloat x.
Proof.
  induction n as [| n IH]; intros s s' H.
  - apply steps_S in H as (s1 & Hb & [= <-]). eapply body_speed, Hb.
  - apply steps_S in H as (s1 & _ & H). eapply IH, H.
Qed.

Lemma invariants_numbers m A C p g :
  invariants m A C p g ->
  is_number m /\ is_number A /\ is_number C /\ is_number p /\ is_number g.
Proof.
  intros []. unfold py_gt, py_ge in *.
  repeat split; eapply ordering_Ok_number; eassumption.
Qed.

(** X11. The queries on a valid instance.  For a height with
    [height > 0], [air_time] and [landing_speed] return a float or raise
    [OverflowError], when they end: never a [TypeError], [ValueError],
    [ZeroDivisionError], [AttributeError] or [IndexError], and never an
    int. *)
Theorem queries_on_a_valid_instance
    (self : obj) (m A C p g : pyval) (fuel : nat) (h : pyval) :
  has_fields self m A C p g ->
  invariants m A C p g ->
  py_gt h (PyInt 0) = Ok true ->
  float_or_OverflowError (result_of (air_time fuel h self))
  /\ float_or_OverflowError (result_of (landing_speed fuel h self)).
Proof.
  intros Hf Hi Hh. destruct (falling_height h Hh) as [Hp Hfall].
  destruct (invariants_numbers _ _ _ _ _ Hi) as (Nm & NA & NC & Np & Ng).
  destruct (query_numeric _ _ _ _ _ _ fuel h Hf Nm NA NC Np Ng Hp)
    as [Qa Ql].
  pose proof (while_loop_raises self m A C p g ZeroDivisionError fuel Hf
                ltac:(discriminate)
                (fun s => body_no_ZeroDivisionError m A C p g s (inv_m _ _ _ _ _ Hi))
                (initial h)) as Z.
  rewrite (air_time_unfold _ _ _ Hp) in Qa |- *.
  rewrite (landing_speed_unfold _ _ _ Hp) in Ql |- *.
  unfold _calculator, bind in Qa, Ql |- *.
  change {| height := h; v := PyInt 0; t := PyInt 0;
            time_vector := [PyInt 0]; speed_vector := [PyInt 0] |}
    with (initial h) in Qa, Ql |- *.
  destruct (while_loop fuel (initial h) self) as [[s | e |] self'] eqn:W;
    simpl in Qa, Ql, Z |- *.
  - destruct (while_loop_lands _ _ _ _ _ _ fuel Hf _ _ _ W) as (n & _ & Hl).
    pose proof (lands_after_falling _ _ _ _ _ _ _ _ Hfall Hl) as H1.
    pose proof Hl as (Hs & _).
    destruct n as [| n]; [ lia |].
    destruct (steps_records _ _ _ _ _ _ _ _ Hs) as (_ & _ & Lt & Lv).
    unfold last_item. rewrite (Lt eq_refl), (Lv eq_refl).
    destruct (steps_ticks _ _ _ _ _ _ _ _ 0%nat Hs eq_refl) as [Et _].
    destruct (steps_speed _ _ _ _ _ _ _ _ Hs) as [x Ev].
    rewrite Et, Ev. simpl. eauto.
  - destruct Qa as [-> | ->]; [ auto | congruence ].
  - auto.
Qed.

Lemma queries_on_a_valid_instance_witness :
  float_or_OverflowError (result_of (air_time 100 (PyInt 1) test_model))
  /\ float_or_OverflowError
       (result_of (landing_speed 100 (PyInt 1) test_model)).
Proof.
  apply (queries_on_a_valid_instance test_model (PyInt 85) (PyFloat 0.7)
           default_drag_coef default_density default_gravity 100 (PyInt 1)).
  - constructor; reflexivity.
  - constructor; reflexivity.
  - reflexivity.
Defined.

(** * The sign of the terminal velocity *)

Lemma round_q_plus a b : plus_sign (round_q false a b) = true.
Proof.
  round_q_cases; reflexivity.
Qed.

Lemma float_of_int_plus z f :
  float_of_int z = Ok f -> (0 <= z)%Z -> plus_sign (Prim2SF f) = true.
Proof.
  intros H Hz. apply float_of_int_decoded in H as [-> _].
  assert (P : (0 < 2 ^ 1074)%Z) by (apply Z.pow_pos_nonneg; lia).
  destruct z as [| p | p]; try lia; [ reflexivity |].
  destruct (Z.pos p * 2 ^ 1074)%Z eqn:E; try lia.
  apply round_q_plus.
Qed.

Lemma as_float_plus v f :
  as_float v = Ok f -> not_negative v -> plus_sign (Prim2SF f) = true.
Proof.
  unfold as_float, not_negative.
  destruct (as_num v) as [[z | x] |]; simpl; try discriminate.
  - apply float_of_int_plus.
  - intros [= <-]. auto.
Qed.

Lemma not_negative_float x :
  plus_sign (Prim2SF x) = true -> not_negative (PyFloat x).
Proof. intros H. exact H. Qed.

Lemma as_float_raises v e :
  as_float v = Raise e -> not_negative v -> e = OverflowError.
Proof.
  unfold as_float, not_negative.
  destruct (as_num v) as [n |]; [| contradiction ].
  intros H _. eapply to_float_raises, H.
Qed.

Lemma as_float_not_OutOfFuel v : as_float v <> OutOfFuel.
Proof.
  unfold as_float. destruct (as_num v) as [[z | x] |]; simpl; try discriminate.
  unfold float_of_int. destruct (is_infinity _); discriminate.
Qed.

Lemma py_mul_not_negative a b :
  not_negative a -> not_negative b ->
  match py_mul a b with
  | Ok r => not_negative r
  | Raise e => e = OverflowError
  | OutOfFuel => False
  end.
Proof.
  intros Ha Hb.
  assert (H : match obind (as_float a) (fun fx =>
                    obind (as_float b) (fun fy => Ok (PyFloat (fx * fy)))) with
              | Ok r => not_negative r
              | Raise e => e = OverflowError
              | OutOfFuel => False
              end).
  { destruct (as_float a) as [fx | e |] eqn:Ea; simpl.
    - destruct (as_float b) as [fy | e |] eqn:Eb; simpl.
      + apply not_negative_float, mul_plus; eauto using as_float_plus.
      + eapply as_float_raises; eassumption.
      + eapply as_float_not_OutOfFuel, Eb.
    - eapply as_float_raises; eassumption.
    - eapply as_float_not_OutOfFuel, Ea. }
  unfold py_mul, arith. unfold as_float, not_negative in *.
  destruct (as_num a) as [[x | x] |]; try contradiction;
    destruct (as_num b) as [[y | y] |]; try contradiction; try exact H.
  simpl. apply Z.mul_nonneg_nonneg; assumption.
Qed.

Lemma int_true_divide_plus x y :
  (0 <= x)%Z -> (0 <= y)%Z ->
  match int_true_divide x y with
  | Ok q => plus_sign (Prim2SF q) = true
  | Raise e => e = ZeroDivisionError \/ e = OverflowError
  | OutOfFuel => False
  end.
Proof.
  intros Hx Hy. unfold int_true_divide.
  destruct (Z.eqb_spec y 0) as [-> | Ny]; [ auto |].
  destruct (Z.ltb_spec x 0) as [? | _]; [ lia |].
  destruct (Z.ltb_spec y 0) as [? | _]; [ lia |].
  destruct x as [| px | px]; try lia; [ reflexivity |].
  destruct y as [| py | py]; try lia.
  simpl Z.abs. simpl Z.to_pos. rewrite SFdiv_ints. simpl xorb.
  destruct (is_infinity _); [ auto |].
  rewrite Prim2SF_SF2Prim by (apply round_q_valid; lia).
  apply round_q_plus.
Qed.

Lemma py_truediv_not_negative a b :
  not_negative a -> not_negative b ->
  match py_truediv a b with
  | Ok r => not_negative r
  | Raise e => e = ZeroDivisionError \/ e = OverflowError
  | OutOfFuel => False
  end.
Proof.
  intros Ha Hb.
  assert (H : match obind (as_float a) (fun fx =>
                    obind (as_float b) (fun fy =>
                      if is_zero fy then Raise ZeroDivisionError
                      else Ok (PyFloat (fx / fy)))) with
              | Ok r => not_negative r
              | Raise e => e = ZeroDivisionError \/ e = OverflowError
              | OutOfFuel => False
              end).
  { destruct (as_float a) as [fx | e |] eqn:Ea; simpl.
    - destruct (as_float b) as [fy | e |] eqn:Eb; simpl.
      + destruct (is_zero fy); [ auto |].
        apply not_negative_float, div_plus; eauto using as_float_plus.
      + right. eapply as_float_raises; eassumption.
      + eapply as_float_not_OutOfFuel, Eb.
    - right. eapply as_float_raises; eassumption.
    - eapply as_float_not_OutOfFuel, Ea. }
  unfold py_truediv. unfold as_float, not_negative in *.
  destruct (as_num a) as [[x | x] |]; try contradiction;
    destruct (as_num b) as [[y | y] |]; try contradiction; try exact H.
  pose proof (int_true_divide_plus x y Ha Hb) as D.
  destruct (int_true_divide x y); simpl; auto.
Qed.

Lemma sqrt_plus x :
  plus_sign (Prim2SF x) = true -> plus_sign (Prim2SF (sqrt x)) = true.
Proof.
  rewrite sqrt_spec. unfold SF64sqrt, SFsqrt.
  destruct (Prim2SF x) as [[] | [] | | [] m e]; try discriminate;
    try reflexivity.
  intros _.
  match goal with
  | |- context [SFsqrt_core_binary ?a ?b ?c ?d] =>
      destruct (SFsqrt_core_binary a b c d) as [[mz ez] lz]
  end.
  apply binary_round_aux_plus.
Qed.

Lemma py_pow_half_not_negative a :
  not_negative a ->
  match py_pow_half a with
  | Ok r => exists x, r = PyFloat x /\ plus_sign (Prim2SF x) = true
  | Raise e => e = OverflowError
  | OutOfFuel => False
  end.
Proof.
  intros Ha. unfold py_pow_half.
  pose proof (as_float_plus a) as P. pose proof (as_float_raises a) as R.
  pose proof (as_float_not_OutOfFuel a) as F.
  unfold as_float, not_negative in *.
  destruct (as_num a) as [n |]; [| contradiction ].
  destruct (to_float n) as [x | e |]; simpl; [| auto | congruence ].
  specialize (P x eq_refl Ha).
  rewrite (float_pow_half_sqrt x P). eauto using sqrt_plus.
Qed.

Lemma float_round_2_plus x :
  plus_sign (Prim2SF x) = true ->
  plus_sign (Prim2SF (float_round_2 x)) = true.
Proof.
  intros H. unfold float_round_2.
  destruct (Prim2SF x) as [s | s | | s m e] eqn:E; try (rewrite E; exact H).
  destruct s; [ discriminate |].
  destruct (0 <=? e)%Z; [ rewrite E; reflexivity |].
  destruct (div_half_even _ _) as [| n | n]; try reflexivity.
  rewrite SFdiv_ints. simpl xorb.
  rewrite Prim2SF_SF2Prim by (apply round_q_valid; lia).
  apply round_q_plus.
Qed.

Lemma py_gt_0_not_negative v :
  py_gt v (PyInt 0) = Ok true -> not_negative v.
Proof.
  intros H. unfold not_negative.
  destruct v as [| b | z | x | | |]; try discriminate; simpl.
  - destruct b; simpl; lia.
  - unfold py_gt, ordering in H. simpl in H.
    destruct (z ?= 0)%Z eqn:E; try discriminate.
    apply Z.compare_gt_iff in E. lia.
  - apply positive_plus, py_gt_0_positive, H.
Qed.

Lemma py_ge_0_not_negative v :
  py_ge v (PyInt 0) = Ok true -> py_eq v (PyInt 0) = false -> not_negative v.
Proof.
  intros H N. unfold not_negative.
  destruct v as [| b | z | x | | |]; try discriminate; simpl.
  - destruct b; simpl; lia.
  - unfold py_ge, ordering in H. simpl in H.
    destruct (z ?= 0)%Z eqn:E; try discriminate.
    + apply Z.compare_eq in E. lia.
    + apply Z.compare_gt_iff in E. lia.
  - apply positive_plus, py_ge_0_not_eq_positive; assumption.
Qed.

Ltac signed_step lemma :=
  match goal with
  | |- context [bind (lift ?x) _ _] =>
      let H := fresh "H" in
      pose proof lemma as H;
      rewrite bind_lift;
      destruct x; [| simpl; auto | contradiction ]
  end.

(** X12. [terminal] on a valid instance, ints among the attributes
    included.  It returns [None], exactly when [density == 0], or a float
    that is not negative ([inf] and NaN included), or it raises
    [ZeroDivisionError] or [OverflowError]: the base of [** 0.5] is never
    negative, so the result is never a complex number, and [round] never
    meets one. *)
Theorem terminal_on_a_valid_instance (self : obj) (m A C p g : pyval) :
  has_fields self m A C p g ->
  invariants m A C p g ->
  terminal_outcome (result_of (terminal self))
  /\ (result_of (terminal self) = Ok PyNone <-> py_eq p (PyInt 0) = true).
Proof.
  intros Hf Hi.
  destruct (py_eq p (PyInt 0)) eqn:Ep.
  - rewrite (terminal_None _ _ _ _ _ _ Hf Ep). simpl. split; [ exact I |].
    split; auto.
  - assert (Nm : not_negative m) by apply py_gt_0_not_negative, Hi.
    assert (NA : not_negative A) by apply py_gt_0_not_negative, Hi.
    assert (NC : not_negative C) by apply py_gt_0_not_negative, Hi.
    assert (Ng : not_negative g) by apply py_gt_0_not_negative, Hi.
    assert (Np : not_negative p)
      by (apply py_ge_0_not_negative; [ apply Hi | exact Ep ]).
    assert (N2 : not_negative (PyInt 2)) by (unfold not_negative; simpl; lia).
    assert (T : match result_of (terminal self) with
                | Ok (PyFloat x) => plus_sign (Prim2SF x) = true
                | Ok _ => False
                | Raise e => e = ZeroDivisionError \/ e = OverflowError
                | OutOfFuel => False
                end).
    { destruct Hf as [Fm FA FC Fp Fg]. unfold terminal.
      rewrite (bind_getattr _ _ _ _ Fp), Ep.
      rewrite (bind_getattr _ _ _ _ Fm).
      signed_step (py_mul_not_negative _ _ N2 Nm).
      rewrite (bind_getattr _ _ _ _ Fg).
      signed_step (py_mul_not_negative _ _ H Ng).
      rewrite (bind_getattr _ _ _ _ Fp), (bind_getattr _ _ _ _ FC).
      signed_step (py_mul_not_negative _ _ Np NC).
      rewrite (bind_getattr _ _ _ _ FA).
      signed_step (py_mul_not_negative _ _ H1 NA).
      signed_step (py_truediv_not_negative _ _ H0 H2).
      signed_step (py_pow_half_not_negative _ H3).
      destruct H4 as (x & -> & Hx). simpl.
      apply float_round_2_plus, Hx. }
    split.
    + destruct (result_of (terminal self)) as [[] | |]; simpl; auto.
    + split; [| discriminate ].
      intros E. rewrite E in T. contradiction.
Qed.

Lemma terminal_on_a_valid_instance_witness :
  terminal_outcome (result_of (terminal test_model))
  /\ (result_of (terminal test_model) = Ok PyNone
      <-> py_eq default_density (PyInt 0) = true).
Proof.
  apply (terminal_on_a_valid_instance test_model (PyInt 85) (PyFloat 0.7)
           default_drag_coef default_density default_gravity).
  - constructor; reflexivity.
  - constructor; reflexivity.
Defined.

(** Both products may overflow: the quotient is then [inf / inf]. *)
Lemma terminal_may_be_nan :
  valid_model (model_of (PyFloat 1e308) (PyFloat 1e308) (PyFloat 1)
                 (PyFloat 1e308) (PyFloat 9.81))
  /\ result_of (terminal (model_of (PyFloat 1e308) (PyFloat 1e308) (PyFloat 1)
                            (PyFloat 1e308) (PyFloat 9.81)))
     = Ok (PyFloat nan).
Proof.
  split; [| vm_compute; reflexivity ].
  apply valid_model_of. constructor; reflexivity.
Qed.

(** * Ints and floats as attributes *)

Lemma while_loop_same_body (Inv : frame -> Prop)
    self self' m A C p g m' A' C' p' g' fuel :
  has_fields self m A C p g -> has_fields self' m' A' C' p' g' ->
  (forall s, Inv s -> body m A C p g s = body m' A' C' p' g' s) ->
  (forall s s', Inv s -> body m' A' C' p' g' s = Ok s' -> Inv s') ->
  forall s, Inv s ->
    result_of (while_loop fuel s self) = result_of (while_loop fuel s self').
Proof.
  intros Hf Hf' Hb Hi. induction fuel as [| fuel IH]; intros s Hs;
    cbn [while_loop]; rewrite !bind_lift;
    destruct (py_gt (height s) (PyInt 0)) as [[] | e |]; try reflexivity.
  unfold bind.
  rewrite (loop_body_body _ _ _ _ _ _ _ Hf), (loop_body_body _ _ _ _ _ _ _ Hf').
  rewrite (Hb s Hs).
  destruct (body m' A' C' p' g' s) as [s' | e |] eqn:B; try reflexivity.
  apply IH. eapply Hi; eassumption.
Qed.

Lemma queries_same_body (Inv : frame -> Prop)
    self self' m A C p g m' A' C' p' g' fuel h :
  has_fields self m A C p g -> has_fields self' m' A' C' p' g' ->
  (forall s, Inv s -> body m A C p g s = body m' A' C' p' g' s) ->
  (forall s s', Inv s -> body m' A' C' p' g' s = Ok s' -> Inv s') ->
  Inv (initial h) ->
  result_of (_calculator fuel h self) = result_of (_calculator fuel h self')
  /\ result_of (air_time fuel h self) = result_of (air_time fuel h self')
  /\ result_of (landing_speed fuel h self)
     = result_of (landing_speed fuel h self').
Proof.
  intros Hf Hf' Hb Hi H0.
  pose proof (while_loop_same_body Inv _ _ _ _ _ _ _ _ _ _ _ _ fuel Hf Hf' Hb Hi
                (initial h) H0) as W.
  assert (E : result_of (_calculator fuel h self)
              = result_of (_calculator fuel h self')).
  { unfold _calculator, bind. fold (initial h).
    rewrite (read_only_run _ self (read_only_while_loop fuel (initial h))).
    rewrite (read_only_run _ self' (read_only_while_loop fuel (initial h))).
    rewrite W. destruct (result_of (while_loop fuel (initial h) self'));
      reflexivity. }
  split; [ exact E |].
  unfold air_time, landing_speed.
  destruct (isinstance_int_float h); cbn [negb]; [| split; reflexivity ].
  rewrite !bind_lift.
  destruct (py_le h (PyInt 0)) as [[] | e |]; try (split; reflexivity).
  unfold bind.
  rewrite (read_only_run _ self (read_only__calculator fuel h)).
  rewrite (read_only_run _ self' (read_only__calculator fuel h)).
  rewrite E. destruct (result_of (_calculator fuel h self')) as [r | e |];
    try (split; reflexivity).
  unfold lift. split.
  - destruct (last_item (fst r)); reflexivity.
  - destruct (last_item (snd r)); reflexivity.
Qed.

(** X13. The simulation converts int attributes.  An instance and the
    instance whose attributes are the same numbers converted to float give
    the same [_calculator], [air_time] and [landing_speed] results, for
    every height and fuel; and an int height gives what the float it
    converts to gives. *)
Theorem simulation_converts_int_attributes
    (self self' : obj) (m A C p g : pyval) (fm fA fC fp fg : float)
    (fuel : nat) (h : pyval) :
  has_fields self m A C p g ->
  has_fields self' (PyFloat fm) (PyFloat fA) (PyFloat fC) (PyFloat fp)
    (PyFloat fg) ->
  floats_of m A C p g fm fA fC fp fg ->
  result_of (_calculator fuel h self) = result_of (_calculator fuel h self')
  /\ result_of (air_time fuel h self) = result_of (air_time fuel h self')
  /\ result_of (landing_speed fuel h self)
     = result_of (landing_speed fuel h self')
  /\ (forall y, as_float h = Ok y -> (0 <? y) = true ->
        result_of (air_time fuel h self)
        = result_of (air_time fuel (PyFloat y) self')
        /\ result_of (landing_speed fuel h self)
           = result_of (landing_speed fuel (PyFloat y) self')).
Proof.
  intros Hf Hf' Fl.
  pose proof (fun s (_ : True) => body_floats _ _ _ _ _ _ _ _ _ _ s Fl) as Hb.
  destruct (queries_same_body (fun _ => True) _ _ _ _ _ _ _ _ _ _ _ _ fuel h
              Hf Hf' Hb (fun _ _ _ _ => I) I) as (Ec & Ea & El).
  split; [ exact Ec |]. split; [ exact Ea |]. split; [ exact El |].
  intros y Hy Py.
  destruct (queries_as_float_height _ _ _ _ _ _ fuel h y Hf Hy Py) as [-> ->].
  destruct (queries_same_body (fun _ => True) _ _ _ _ _ _ _ _ _ _ _ _ fuel
              (PyFloat y) Hf Hf' Hb (fun _ _ _ _ => I) I) as (_ & Ea' & El').
  split; assumption.
Qed.

Lemma simulation_converts_int_attributes_witness :
  result_of (_calculator 100 (PyInt 1) test_model)
  = result_of (_calculator 100 (PyInt 1) float_test_model)
  /\ result_of (air_time 100 (PyInt 1) test_model)
     = result_of (air_time 100 (PyInt 1) float_test_model)
  /\ result_of (landing_speed 100 (PyInt 1) test_model)
     = result_of (landing_speed 100 (PyInt 1) float_test_model)
  /\ (forall y, as_float (PyInt 1) = Ok y -> (0 <? y) = true ->
        result_of (air_time 100 (PyInt 1) test_model)
        = result_of (air_time 100 (PyFloat y) float_test_model)
        /\ result_of (landing_speed 100 (PyInt 1) test_model)
           = result_of (landing_speed 100 (PyFloat y) float_test_model)).
Proof.
  apply (simulation_converts_int_attributes test_model float_test_model
           (PyInt 85) (PyFloat 0.7) default_drag_coef default_density
           default_gravity 85 0.7 1 1.2 9.81).
  - constructor; reflexivity.
  - constructor; reflexivity.
  - constructor; vm_compute; reflexivity.
Defined.

(** [terminal] multiplies ints exactly before it meets a float: with the
    int mass [2^1023] the product [2*m] is an int too large to convert,
    while with the float of the same value it is [inf]. *)
Lemma terminal_keeps_int_products :
  as_float (PyInt (2 ^ 1023)) = Ok 0x1p+1023
  /\ result_of (terminal (model_of (PyInt (2 ^ 1023)) (PyFloat 0.7)
                            (PyFloat 1) (PyFloat 1.2) (PyFloat 9.81)))
     = Raise OverflowError
  /\ result_of (terminal (model_of (PyFloat 0x1p+1023) (PyFloat 0.7)
                            (PyFloat 1) (PyFloat 1.2) (PyFloat 9.81)))
     = Ok (PyFloat infinity).
Proof. repeat split; vm_compute; reflexivity. Qed.

(** * Emptying the air *)

Lemma py_eq_0_checks p :
  py_eq p (PyInt 0) = true ->
  is_number p /\ py_lt p (PyInt 0) = Ok false.
Proof.
  intros H. split.
  - unfold is_number. destruct p; try discriminate H; reflexivity.
  - unfold py_eq, py_lt, ordering in *.
    destruct (as_num p) as [n |]; [| discriminate ].
    cbn [as_num] in *.
    destruct (num_compare n (NInt 0)) as [[] |]; try discriminate;
      reflexivity.
Qed.

(** X14. No terminal velocity after [set_density(0)].  For every value
    with [density == 0] (the ints [0] and [False], the floats [0.0] and
    [-0.0]), [set_density(density)] returns and [terminal()] then returns
    [None], on every instance: it reads the density and nothing else. *)
Theorem no_terminal_velocity_after_set_density_0 (self : obj) (p : pyval) :
  py_eq p (PyInt 0) = true ->
  (set_density p ;;; terminal) self = (Ok PyNone, <["_p" := p]> self).
Proof.
  intros Hp. destruct (py_eq_0_checks p Hp) as [Hn Hlt].
  unfold bind. rewrite (set_density_on_numbers _ _ _ Hn Hlt).
  unfold terminal.
  rewrite (bind_getattr _ "_p" p) by (by simplify_map_eq).
  rewrite Hp. reflexivity.
Qed.

Lemma no_terminal_velocity_after_set_density_0_witness :
  (set_density (PyInt 0) ;;; terminal) test_model
  = (Ok PyNone, <["_p" := PyInt 0]> test_model).
Proof.
  apply (no_terminal_velocity_after_set_density_0 test_model (PyInt 0)).
  reflexivity.
Defined.

(** * The speed of a fall in vacuum *)

Lemma zero_le_gain fg :
  pos_float (Prim2SF fg) = true -> (0 <=? fg * 0.01) = true.
Proof.
  rewrite FloatAxioms.leb_spec, mul_spec, step_decoded.
  change (Prim2SF 0) with (S754_zero false).
  pose proof (Prim2SF_valid fg) as V.
  destruct (Prim2SF fg) as [[] | [] | | [] m e]; try discriminate; intros _.
  - reflexivity.
  - unfold SF64mul. rewrite SFmul_finite by (exact V || reflexivity).
    apply zero_le_round_q.
Qed.

(** A speed that leaves some height to fall is finite. *)
Lemma falling_speed_finite z y :
  (0 <=? z) = true -> (0 <? y - z * 0.01) = true -> is_finite z = true.
Proof.
  intros Hz Hy. pose proof (float_tests z) as T.
  rewrite FloatAxioms.leb_spec in Hz.
  change (Prim2SF 0) with (S754_zero false) in Hz.
  destruct (Prim2SF z) as [s | [] | | s m e] eqn:E; try discriminate.
  - subst z. destruct s; reflexivity.
  - subst z. exfalso.
    change (infinity * 0.01) with infinity in Hy.
    rewrite FloatAxioms.ltb_spec, sub_spec in Hy.
    change (Prim2SF infinity) with (S754_infinity false) in Hy.
    change (Prim2SF 0) with (S754_zero false) in Hy.
    destruct (Prim2SF y) as [[] | [] | | [] ? ?]; discriminate.
  - eapply finite_is_finite, E.
Qed.

Lemma iter_shift {X} (f : X -> X) n x : Nat.iter n f (f x) = f (Nat.iter n f x).
Proof. induction n as [| n IH]; simpl; congruence. Qed.

Section Vacuum.
Variables (m A C p g : pyval) (fm fA fC fp fg : float).
Hypothesis floats : floats_of m A C p g fm fA fC fp fg.
Hypothesis valid : invariants m A C p g.
Hypothesis no_drag : is_zero_float (Prim2SF (0.5 * fC * fp * fA)) = true.

Lemma gain_not_negative : (0 <=? fg * 0.01) = true.
Proof using floats valid.
  apply zero_le_gain, py_gt_0_positive.
  eapply py_gt_0_float; [ apply floats | apply valid ].
Qed.

(** From a frame with a speed that is not negative, and finite while the
    object falls, the speed at landing is the speed of the frame plus one
    gain for every pass. *)
Lemma vacuum_run n : forall s s' x y tau,
  v s = PyFloat x -> height s = PyFloat y -> t s = PyFloat tau ->
  (0 <=? x) = true ->
  (falling s = Ok true -> is_finite x = true) ->
  lands_after m A C p g s n s' ->
  v s' = PyFloat (Nat.iter n (fun z => z + fg * 0.01) x).
Proof using floats valid no_drag.
  induction n as [| n IH]; intros s s' x y tau Hv Hh Ht Hx Hfin Hl.
  - destruct Hl as ([= <-] & _). exact Hv.
  - apply lands_after_inv in Hl as (Hf & s1 & Hb & Hl).
    destruct (vacuum_body _ _ _ _ _ _ _ _ _ _ s x y tau floats valid no_drag
                Hv Hh Ht (Hfin Hf)) as [B | B];
      rewrite B in Hb; [ discriminate |]. injection Hb as <-.
    pose proof (add_le x (fg * 0.01) Hx gain_not_negative) as L.
    pose proof (leb_trans _ _ _ Hx L) as Hx'.
    assert (E : Nat.iter (S n) (fun z => z + fg * 0.01) x
                = Nat.iter n (fun z => z + fg * 0.01) (x + fg * 0.01))
      by (symmetry; apply (iter_shift (fun z => z + fg * 0.01))).
    rewrite E.
    match type of Hl with
    | lands_after _ _ _ _ _ ?s1 _ _ =>
        refine (IH s1 s' _ _ _ eq_refl eq_refl eq_refl Hx' _ Hl)
    end.
    unfold falling. cbn [height]. rewrite py_gt_0_ltb. intros [= Hy].
    eapply falling_speed_finite; eassumption.
Qed.
End Vacuum.

(** X15. The speed of a fall in vacuum.  On a valid instance with
    [density == 0] and a finite drag factor, when [landing_speed] returns
    for a positive height, after [n >= 1] passes, its result is
    [round(v, 2)] for [v] the binary64 sum of [n] gains of [gravity*0.01],
    and [air_time] returns [round(tick n, 2)] for the same [n]. *)
Theorem vacuum_speed_is_a_sum_of_gains
    (self : obj) (m A C p g h : pyval) (fm fA fC fp fg y : float)
    (fuel : nat) (r : pyval) :
  has_fields self m A C p g ->
  invariants m A C p g ->
  floats_of m A C p g fm fA fC fp fg ->
  py_eq p (PyInt 0) = true ->
  is_finite (0.5 * fC * fp * fA) = true ->
  as_float h = Ok y -> (0 <? y) = true ->
  result_of (landing_speed fuel h self) = Ok r ->
  exists n,
    (1 <= n <= fuel)%nat
    /\ r = PyFloat (float_round_2 (vacuum_speed (fg * 0.01) n))
    /\ result_of (air_time fuel h self)
       = Ok (PyFloat (float_round_2 (tick n))).
Proof.
  intros Hf Hi Fl Hp HK Hy Py Hr.
  destruct (positive_height h y Hy Py) as [Hpos Hfall].
  pose proof (vacuum_factor _ _ _ (py_eq_0_as_float _ _ (float_p _ _ _ _ _ _ _ _ _ _ Fl) Hp) HK)
    as Z.
  pose proof Hr as Hr0.
  rewrite (landing_speed_unfold _ _ _ Hpos) in Hr.
  destruct (result_of (_calculator fuel h self)) as [[tv sv] | |] eqn:Ec;
    try discriminate.
  destruct (_calculator_lands _ _ _ _ _ _ _ _ _ _ Hf Ec)
    as (n & s & Hn & Hl & _ & _).
  pose proof (lands_after_falling _ _ _ _ _ _ _ _ Hfall Hl) as H1.
  destruct (queries_at_landing _ _ _ _ _ _ _ _ _ fuel Hf Hpos Hl) as [Q _].
  destruct (Q Hn) as [Qa Ql].
  rewrite Hr0 in Ql.
  exists n. split; [ lia |].
  pose proof Hl as (Hs & _).
  destruct (steps_ticks _ _ _ _ _ _ _ _ 0%nat Hs eq_refl) as [Et _].
  simpl in Et. rewrite Et in Qa.
  destruct n as [| n]; [ lia |].
  apply lands_after_inv in Hl as (_ & s1 & Hb & Hl).
  rewrite (first_pass_numbers _ _ _ _ _ _ _ _ _ _ _ _ Fl Hi HK Hy) in Hb.
  injection Hb as <-.
  pose proof (gain_not_negative _ _ _ _ _ _ _ _ _ _ Fl Hi) as Hc.
  assert (Ev : v s = PyFloat (vacuum_speed (fg * 0.01) (S n))).
  { unfold vacuum_speed.
    replace (Nat.iter (S n) (fun x => x + fg * 0.01) 0)
      with (Nat.iter n (fun x => x + fg * 0.01) (fg * 0.01)).
    - match type of Hl with
      | lands_after _ _ _ _ _ ?s1 _ _ =>
          refine (vacuum_run _ _ _ _ _ _ _ _ _ _ Fl Hi Z n s1 s _ _ _
                    eq_refl eq_refl eq_refl Hc _ Hl)
      end.
      unfold falling. cbn [height]. rewrite py_gt_0_ltb. intros [= Hh].
      eapply falling_speed_finite; eassumption.
    - transitivity (Nat.iter n (fun x => x + fg * 0.01) (0 + fg * 0.01));
        [| apply (iter_shift (fun x => x + fg * 0.01)) ].
      f_equal. symmetry. apply add_0_plus, mul_plus; [| reflexivity ].
      apply positive_plus, py_gt_0_positive.
      eapply py_gt_0_float; [ apply Fl | apply Hi ]. }
  rewrite Ev in Ql. simpl in Ql. injection Ql as ->.
  split; [ reflexivity | exact Qa ].
Qed.

Lemma vacuum_speed_is_a_sum_of_gains_witness :
  exists n,
    (1 <= n <= 100)%nat
    /\ PyFloat 4.41 = PyFloat (float_round_2 (vacuum_speed (9.81 * 0.01) n))
    /\ result_of (air_time 100 (PyInt 1) vacuum_model)
       = Ok (PyFloat (float_round_2 (tick n))).
Proof.
  apply (vacuum_speed_is_a_sum_of_gains vacuum_model (PyInt 85) (PyFloat 0.7)
           default_drag_coef (PyInt 0) default_gravity (PyInt 1)
           85 0.7 1 0 9.81 1 100).
  - constructor; reflexivity.
  - constructor; reflexivity.
  - constructor; vm_compute; reflexivity.
  - reflexivity.
  - reflexivity.
  - vm_compute. reflexivity.
  - reflexivity.
  - vm_compute. reflexivity.
Defined.

(** * In vacuum only gravity matters *)

(** The acceleration without drag: the drag term is a zero whatever the
    mass, unless the square of the speed is infinite or NaN. *)
Lemma vacuum_acc K fm fg r :
  is_zero_float (Prim2SF K) = true ->
  pos_float (Prim2SF fm) = true -> pos_float (Prim2SF fg) = true ->
  fg - K * r / fm = if is_finite_SF (Prim2SF r) then fg else nan.
Proof.
  intros HK Hm Hg.
  destruct (is_finite_SF (Prim2SF r)) eqn:Fr.
  - apply sub_positive_0; [ exact Hg |].
    apply div_0_positive; [| exact Hm ].
    apply zero_mul_finite; assumption.
  - assert (E : K * r = nan).
    { apply Prim2SF_nan. rewrite mul_spec.
      destruct (Prim2SF K) as [sk | | |]; try discriminate.
      destruct (Prim2SF r) as [| sr | |]; try discriminate; reflexivity. }
    rewrite E. apply Prim2SF_nan. rewrite sub_spec, div_spec.
    change (Prim2SF nan) with S754_nan.
    destruct (Prim2SF fg) as [| [] | | [] ? ?]; try discriminate;
      reflexivity.
Qed.

Section TwoObjects.
Variables (m1 A1 C1 p1 g1 m2 A2 C2 p2 g2 : pyval).
Variables (fm1 fA1 fC1 fp1 fm2 fA2 fC2 fp2 fg : float).
Hypothesis floats1 : floats_of m1 A1 C1 p1 g1 fm1 fA1 fC1 fp1 fg.
Hypothesis floats2 : floats_of m2 A2 C2 p2 g2 fm2 fA2 fC2 fp2 fg.
Hypothesis valid1 : invariants m1 A1 C1 p1 g1.
Hypothesis valid2 : invariants m2 A2 C2 p2 g2.
Hypothesis no_drag1 : is_zero_float (Prim2SF (0.5 * fC1 * fp1 * fA1)) = true.
Hypothesis no_drag2 : is_zero_float (Prim2SF (0.5 * fC2 * fp2 * fA2)) = true.

Lemma vacuum_bodies_agree s :
  speed_is_read s ->
  body m1 A1 C1 p1 g1 s = body m2 A2 C2 p2 g2 s.
Proof using floats1 floats2 valid1 valid2 no_drag1 no_drag2.
  intros Hs.
  rewrite (body_floats _ _ _ _ _ _ _ _ _ _ s floats1).
  rewrite (body_floats _ _ _ _ _ _ _ _ _ _ s floats2).
  pose proof (invariants_floats _ _ _ _ _ _ _ _ _ _ floats1 valid1)
    as [Im1 _ Ig _ _ _].
  pose proof (invariants_floats _ _ _ _ _ _ _ _ _ _ floats2 valid2)
    as [Im2 _ _ _ _ _].
  apply py_gt_0_positive in Im1, Im2, Ig.
  pose proof (fun r => vacuum_acc _ _ _ r no_drag1 Im1 Ig) as E1.
  pose proof (fun r => vacuum_acc _ _ _ r no_drag2 Im2 Ig) as E2.
  unfold body.
  destruct Hs as [Hv | [x Hv]]; rewrite Hv; unfold step, py_pow_2;
    cbn [as_num].
  - simpl. unfold py_truediv. simpl.
    rewrite (positive_not_zero _ Im1), (positive_not_zero _ Im2). simpl.
    change (SF2Prim (binary_normalize prec emax 0 0 false)) with 0.
    rewrite E1, E2. reflexivity.
  - destruct (float_pow_2 x) as [r | e |]; simpl; try reflexivity.
    unfold py_truediv. simpl.
    rewrite (positive_not_zero _ Im1), (positive_not_zero _ Im2). simpl.
    rewrite E1, E2. reflexivity.
Qed.
End TwoObjects.

Lemma speed_is_read_kept m A C p g s s' :
  body m A C p g s = Ok s' -> speed_is_read s'.
Proof. intros H. right. eapply body_speed, H. Qed.

(** X16. In vacuum only gravity matters.  Two valid instances with
    [density == 0], finite drag factors and the same gravity give the same
    [_calculator], [air_time] and [landing_speed] results for every height
    and fuel, whatever their masses, areas and drag coefficients. *)
Theorem vacuum_fall_depends_on_gravity_alone
    (self1 self2 : obj) (m1 A1 C1 p1 g1 m2 A2 C2 p2 g2 : pyval)
    (fm1 fA1 fC1 fp1 fm2 fA2 fC2 fp2 fg : float) (fuel : nat) (h : pyval) :
  has_fields self1 m1 A1 C1 p1 g1 ->
  has_fields self2 m2 A2 C2 p2 g2 ->
  invariants m1 A1 C1 p1 g1 ->
  invariants m2 A2 C2 p2 g2 ->
  floats_of m1 A1 C1 p1 g1 fm1 fA1 fC1 fp1 fg ->
  floats_of m2 A2 C2 p2 g2 fm2 fA2 fC2 fp2 fg ->
  py_eq p1 (PyInt 0) = true ->
  py_eq p2 (PyInt 0) = true ->
  is_finite (0.5 * fC1 * fp1 * fA1) = true ->
  is_finite (0.5 * fC2 * fp2 * fA2) = true ->
  result_of (_calculator fuel h self1) = result_of (_calculator fuel h self2)
  /\ result_of (air_time fuel h self1) = result_of (air_time fuel h self2)
  /\ result_of (landing_speed fuel h self1)
     = result_of (landing_speed fuel h self2).
Proof.
  intros Hf1 Hf2 Hi1 Hi2 Fl1 Fl2 Hp1 Hp2 HK1 HK2.
  pose proof (vacuum_factor _ _ _
                (py_eq_0_as_float _ _ (float_p _ _ _ _ _ _ _ _ _ _ Fl1) Hp1)
                HK1) as Z1.
  pose proof (vacuum_factor _ _ _
                (py_eq_0_as_float _ _ (float_p _ _ _ _ _ _ _ _ _ _ Fl2) Hp2)
                HK2) as Z2.
  apply (queries_same_body speed_is_read _ _ _ _ _ _ _ _ _ _ _ _ fuel h
           Hf1 Hf2).
  - intros s Hs.
    eapply (vacuum_bodies_agree _ _ _ _ _ _ _ _ _ _ _ _ _ _ _ _ _ _ _
              Fl1 Fl2 Hi1 Hi2 Z1 Z2 s Hs).
  - intros s s' _ Hb. eapply speed_is_read_kept, Hb.
  - left. reflexivity.
Qed.

Lemma vacuum_fall_depends_on_gravity_alone_witness :
  result_of (_calculator 100 (PyInt 1) vacuum_model)
  = result_of (_calculator 100 (PyInt 1) feather_model)
  /\ result_of (air_time 100 (PyInt 1) vacuum_model)
     = result_of (air_time 100 (PyInt 1) feather_model)
  /\ result_of (landing_speed 100 (PyInt 1) vacuum_model)
     = result_of (landing_speed 100 (PyInt 1) feather_model).
Proof.
  apply (vacuum_fall_depends_on_gravity_alone vacuum_model feather_model
           (PyInt 85) (PyFloat 0.7) default_drag_coef (PyInt 0)
           default_gravity
           (PyFloat 0.001) (PyInt 1000) (PyFloat 1.5) (PyInt 0)
           default_gravity
           85 0.7 1 0 0.001 1000 1.5 0 9.81).
  - constructor; reflexivity.
  - constructor; reflexivity.
  - constructor; reflexivity.
  - constructor; reflexivity.
  - constructor; vm_compute; reflexivity.
  - constructor; vm_compute; reflexivity.
  - reflexivity.
  - reflexivity.
  - reflexivity.
  - reflexivity.
Defined.

(** * A height beyond the floats *)

(** A pass subtracts a float from the height: it returns only when the
    height converts. *)
Lemma body_reads_height m A C p g s s' :
  body m A C p g s = Ok s' -> exists y, as_float (height s) = Ok y.
Proof.
  unfold body. intros H.
  repeat match type of H with
  | obind ?e _ = Ok _ =>
      match e with
      | py_mul _ step => fail 1
      | _ => destruct e; simpl in H; try discriminate
      end
  end.
  match type of H with
  | obind (py_mul ?acc step) _ = _ =>
      destruct (py_mul acc step) as [dv | |] eqn:E1; simpl in H;
      try discriminate
  end.
  destruct (py_add (v s) dv) as [v' | |] eqn:E2; simpl in H;
    try discriminate.
  destruct (py_mul v' step) as [dh | |] eqn:E3; simpl in H;
    try discriminate.
  destruct (py_mul_step _ _ E3) as [d ->].
  destruct (py_sub (height s) (PyFloat d)) as [h' | |] eqn:E4; simpl in H;
    try discriminate.
  unfold py_sub in E4. rewrite arith_float_r in E4.
  destruct (as_float (height s)) as [y | |]; try discriminate. eauto.
Qed.

(** X17. A height beyond the floats.  On a valid instance, an int height
    too large to convert to a float passes both checks of the queries and
    stops the first pass of the loop, where the height first meets a float:
    [air_time] and [landing_speed] raise [OverflowError], and leave the
    instance as it was. *)
Theorem height_beyond_the_floats
    (self : obj) (m A C p g : pyval) (z : Z) (fuel : nat) :
  has_fields self m A C p g ->
  invariants m A C p g ->
  (0 < z)%Z ->
  float_of_int z = Raise OverflowError ->
  air_time (S fuel) (PyInt z) self = (Raise OverflowError, self)
  /\ landing_speed (S fuel) (PyInt z) self = (Raise OverflowError, self).
Proof.
  intros Hf Hi Hz Hc.
  assert (Hgt : py_gt (PyInt z) (PyInt 0) = Ok true).
  { unfold py_gt, ordering. simpl.
    assert ((z ?= 0)%Z = Gt) as -> by (apply Z.compare_gt_iff; lia).
    reflexivity. }
  destruct (falling_height _ Hgt) as [Hp Hfall].
  destruct (invariants_numbers _ _ _ _ _ Hi) as (Nm & NA & NC & Np & Ng).
  assert (B : body m A C p g (initial (PyInt z)) = Raise OverflowError).
  { pose proof (body_numeric m A C p g (initial (PyInt z)) Nm NA NC Np Ng
                  (initial_numeric _ (proj1 Hp))) as N.
    pose proof (body_no_ZeroDivisionError m A C p g (initial (PyInt z))
                  (inv_m _ _ _ _ _ Hi)) as Z.
    destruct (body m A C p g (initial (PyInt z))) as [s' | e |] eqn:E.
    - apply body_reads_height in E as [y Ey].
      unfold as_float in Ey. simpl in Ey. congruence.
    - destruct N as [-> | ->]; [ reflexivity | congruence ].
    - contradiction. }
  pose proof (while_loop_raise _ _ _ _ _ _ fuel _ _ Hf Hfall B) as W.
  rewrite (read_only_run _ self (read_only_air_time (S fuel) (PyInt z))).
  rewrite (read_only_run _ self (read_only_landing_speed (S fuel) (PyInt z))).
  rewrite (air_time_unfold _ _ _ Hp), (landing_speed_unfold _ _ _ Hp).
  unfold _calculator, bind. fold (initial (PyInt z)). rewrite W.
  split; reflexivity.
Qed.

Lemma height_beyond_the_floats_witness :
  air_time 1 (PyInt (2 ^ 1024)) test_model = (Raise OverflowError, test_model)
  /\ landing_speed 1 (PyInt (2 ^ 1024)) test_model
     = (Raise OverflowError, test_model).
Proof.
  apply (height_beyond_the_floats test_model (PyInt 85) (PyFloat 0.7)
           default_drag_coef default_density default_gravity).
  - constructor; reflexivity.
  - constructor; reflexivity.
  - reflexivity.
  - vm_compute. reflexivity.
Defined.
